(** * Game Boy emulator core: memory map, CPU decoder, timers, LCD status
      and interrupt dispatch

    A shallow embedding of [memory.cpp], [cpu.cpp] and [emulator.cpp].
    Bytes ([Byte]) and 16-bit words ([Byte_2], [Address]) are integers in
    [Z]; every place where the C++ code converts to one of these types is
    written out with [to_byte] or [to_word].  The [vector<Byte>] regions of
    the memory map are lists, indexed with [!!]: an index past the end of
    the vector (undefined behaviour in C++) is [None]. *)

From Stdlib Require Import ZArith Lia Bool.
From stdpp Require Import base list.

Local Open Scope Z_scope.

(** ** Fixed-width integers *)

(** Conversion to [Byte] (8-bit unsigned). *)
Definition to_byte (z : Z) : Z := z mod 256.

(** Conversion to [Byte_2] / [Address] (16-bit unsigned). *)
Definition to_word (z : Z) : Z := z mod 65536.

Definition is_byte (z : Z) : Prop := 0 <= z < 256.
Definition is_word (z : Z) : Prop := 0 <= z < 65536.

(** The range of [int] (32 bits), and the result of [int] arithmetic.
    C++ leaves signed overflow undefined; [to_int] is the two's complement
    value the compiled code produces, and it is the identity on every
    result that is representable.  It is applied where the source adds to
    an [int] accumulator whose operands the code does not bound. *)
Definition INT_MIN : Z := -2147483648.
Definition INT_MAX : Z := 2147483647.
Definition to_int (z : Z) : Z := (z - INT_MIN) mod 4294967296 + INT_MIN.
Definition int_range (z : Z) : Prop := INT_MIN <= z <= INT_MAX.

(** ** Memory map ([memory.cpp]) *)

Record Memory := mkMemory {
  CART_ROM : list Z;  (* $0000 - $7FFF, as loaded *)
  WRAM : list Z;      (* $C000 - $DFFF, 8kB Working RAM *)
  ERAM : list Z;      (* $A000 - $BFFF, 8kB switchable RAM bank *)
  ZRAM : list Z;      (* $FF00 - $FFFF, 256 bytes of RAM *)
  VRAM : list Z;      (* $8000 - $9FFF, 8kB Video RAM *)
  OAM : list Z        (* $FE00 - $FEA0, OAM Sprite RAM *)
}.

Definition set_WRAM (l : list Z) (m : Memory) : Memory :=
  mkMemory (CART_ROM m) l (ERAM m) (ZRAM m) (VRAM m) (OAM m).
Definition set_ERAM (l : list Z) (m : Memory) : Memory :=
  mkMemory (CART_ROM m) (WRAM m) l (ZRAM m) (VRAM m) (OAM m).
Definition set_ZRAM (l : list Z) (m : Memory) : Memory :=
  mkMemory (CART_ROM m) (WRAM m) (ERAM m) l (VRAM m) (OAM m).
Definition set_VRAM (l : list Z) (m : Memory) : Memory :=
  mkMemory (CART_ROM m) (WRAM m) (ERAM m) (ZRAM m) l (OAM m).
Definition set_OAM (l : list Z) (m : Memory) : Memory :=
  mkMemory (CART_ROM m) (WRAM m) (ERAM m) (ZRAM m) (VRAM m) l.

(** [Memory::load_rom]: the cartridge image replaces [CART_ROM]; the file
    contents are the argument. *)
Definition load_rom (buffer : list Z) (m : Memory) : Memory :=
  mkMemory buffer (WRAM m) (ERAM m) (ZRAM m) (VRAM m) (OAM m).

(** [Memory::read].  The result is [None] where [operator[]] is applied
    past the end of a vector. *)
Definition read (m : Memory) (location : Z) : option Z :=
  match Z.land location 0xF000 with
  (* ROM0 *)
  | 0x0000 | 0x1000 | 0x2000 | 0x3000 => CART_ROM m !! Z.to_nat location
  (* ROM1 (no bank switching) *)
  | 0x4000 | 0x5000 | 0x6000 | 0x7000 => CART_ROM m !! Z.to_nat location
  (* Graphics VRAM *)
  | 0x8000 | 0x9000 => VRAM m !! Z.to_nat (Z.land location 0x1FFF)
  (* External RAM *)
  | 0xA000 | 0xB000 => ERAM m !! Z.to_nat (Z.land location 0x1FFF)
  (* Working RAM (8kB) and RAM Shadow *)
  | 0xC000 | 0xD000 | 0xE000 => WRAM m !! Z.to_nat (Z.land location 0x1FFF)
  (* Remaining Working RAM Shadow, I/O, Zero page RAM *)
  | 0xF000 =>
      match Z.land location 0x0F00 with
      | 0x000 | 0x100 | 0x200 | 0x300 | 0x400 | 0x500 | 0x600
      | 0x700 | 0x800 | 0x900 | 0xA00 | 0xB00 | 0xC00 | 0xD00 =>
          WRAM m !! Z.to_nat (Z.land location 0x1FFF)
      (* Sprite OAM *)
      | 0xE00 =>
          if location <? 0xFEA0
          then OAM m !! Z.to_nat (Z.land location 0xFF)
          else Some 0
      | 0xF00 => ZRAM m !! Z.to_nat (Z.land location 0xFF)
      | _ => None
      end
  | _ => None
  end.

(** [Memory::write].  [data] is a [Byte] parameter. *)
Definition write (m : Memory) (location : Z) (data : Z) : Memory :=
  match Z.land location 0xF000 with
  (* ROM0, ROM1: read only *)
  | 0x0000 | 0x1000 | 0x2000 | 0x3000 => m
  | 0x4000 | 0x5000 | 0x6000 | 0x7000 => m
  | 0x8000 | 0x9000 =>
      set_VRAM (<[Z.to_nat (Z.land location 0x1FFF) := to_byte data]> (VRAM m)) m
  | 0xA000 | 0xB000 =>
      set_ERAM (<[Z.to_nat (Z.land location 0x1FFF) := to_byte data]> (ERAM m)) m
  | 0xC000 | 0xD000 | 0xE000 =>
      set_WRAM (<[Z.to_nat (Z.land location 0x1FFF) := to_byte data]> (WRAM m)) m
  | 0xF000 =>
      match Z.land location 0x0F00 with
      | 0x000 | 0x100 | 0x200 | 0x300 | 0x400 | 0x500 | 0x600
      | 0x700 | 0x800 | 0x900 | 0xA00 | 0xB00 | 0xC00 | 0xD00 =>
          set_WRAM (<[Z.to_nat (Z.land location 0x1FFF) := to_byte data]> (WRAM m)) m
      | 0xE00 =>
          if location <? 0xFEA0
          then set_OAM (<[Z.to_nat (Z.land location 0xFF) := to_byte data]> (OAM m)) m
          else m
      | 0xF00 =>
          set_ZRAM (<[Z.to_nat (Z.land location 0xFF) := to_byte data]> (ZRAM m)) m
      | _ => m
      end
  | _ => m
  end.

(** The vectors have the sizes given by the constructor. *)
Record wf_memory (m : Memory) : Prop := {
  wf_WRAM : Z.of_nat (length (WRAM m)) = 0x2000;
  wf_ERAM : Z.of_nat (length (ERAM m)) = 0x2000;
  wf_ZRAM : Z.of_nat (length (ZRAM m)) = 0x0100;
  wf_VRAM : Z.of_nat (length (VRAM m)) = 0x2000;
  wf_OAM : Z.of_nat (length (OAM m)) = 0x00A0
}.

(** ** The memory map as a partition of the address space

    A proof device: every 16-bit address names one cell of one region.
    [cell_of] follows the masks of [Memory::read] and [Memory::write];
    [region_of] is the same partition by address ranges. *)

Inductive Cell :=
  | CRom (i : Z) | CVram (i : Z) | CEram (i : Z) | CWram (i : Z)
  | COam (i : Z) | CUnusable | CZram (i : Z) | CNone.

Definition cell_of (location : Z) : Cell :=
  match Z.land location 0xF000 with
  | 0x0000 | 0x1000 | 0x2000 | 0x3000 => CRom location
  | 0x4000 | 0x5000 | 0x6000 | 0x7000 => CRom location
  | 0x8000 | 0x9000 => CVram (Z.land location 0x1FFF)
  | 0xA000 | 0xB000 => CEram (Z.land location 0x1FFF)
  | 0xC000 | 0xD000 | 0xE000 => CWram (Z.land location 0x1FFF)
  | 0xF000 =>
      match Z.land location 0x0F00 with
      | 0x000 | 0x100 | 0x200 | 0x300 | 0x400 | 0x500 | 0x600
      | 0x700 | 0x800 | 0x900 | 0xA00 | 0xB00 | 0xC00 | 0xD00 =>
          CWram (Z.land location 0x1FFF)
      | 0xE00 =>
          if location <? 0xFEA0 then COam (Z.land location 0xFF) else CUnusable
      | 0xF00 => CZram (Z.land location 0xFF)
      | _ => CNone
      end
  | _ => CNone
  end.

Definition region_of (a : Z) : Cell :=
  if a <? 0x8000 then CRom a
  else if a <? 0xA000 then CVram (a - 0x8000)
  else if a <? 0xC000 then CEram (a - 0xA000)
  else if a <? 0xE000 then CWram (a - 0xC000)
  else if a <? 0xFE00 then CWram (a - 0xE000)
  else if a <? 0xFEA0 then COam (a - 0xFE00)
  else if a <? 0xFF00 then CUnusable
  else CZram (a - 0xFF00).

Definition cell_eqb (c d : Cell) : bool :=
  match c, d with
  | CRom i, CRom j | CVram i, CVram j | CEram i, CEram j
  | CWram i, CWram j | COam i, COam j | CZram i, CZram j => i =? j
  | CUnusable, CUnusable | CNone, CNone => true
  | _, _ => false
  end.

Definition cell_read (m : Memory) (c : Cell) : option Z :=
  match c with
  | CRom i => CART_ROM m !! Z.to_nat i
  | CVram i => VRAM m !! Z.to_nat i
  | CEram i => ERAM m !! Z.to_nat i
  | CWram i => WRAM m !! Z.to_nat i
  | COam i => OAM m !! Z.to_nat i
  | CUnusable => Some 0
  | CZram i => ZRAM m !! Z.to_nat i
  | CNone => None
  end.

Definition cell_write (m : Memory) (c : Cell) (v : Z) : Memory :=
  match c with
  | CVram i => set_VRAM (<[Z.to_nat i := v]> (VRAM m)) m
  | CEram i => set_ERAM (<[Z.to_nat i := v]> (ERAM m)) m
  | CWram i => set_WRAM (<[Z.to_nat i := v]> (WRAM m)) m
  | COam i => set_OAM (<[Z.to_nat i := v]> (OAM m)) m
  | CZram i => set_ZRAM (<[Z.to_nat i := v]> (ZRAM m)) m
  | CRom _ | CUnusable | CNone => m
  end.

(** Checking a boolean property on every integer of a range. *)
Fixpoint all_from (P : Z -> bool) (lo : Z) (n : nat) : bool :=
  match n with
  | O => true
  | S k => P lo && all_from P (lo + 1) k
  end.

(** ** CPU ([cpu.cpp]) *)

(** Modelled from the spec: [cpu.h] is absent; the flag masks are the bit
    positions the specification gives for the F register (Z bit 7, N bit 6,
    H bit 5, C bit 4). *)
Definition FLAG_ZERO : Z := 0x80.
Definition FLAG_SUB : Z := 0x40.
Definition FLAG_HALF_CARRY : Z := 0x20.
Definition FLAG_CARRY : Z := 0x10.

(** The register file, the interrupt master enable, the cycle count of the
    last instruction, and the memory the CPU is attached to.  The emulator
    and the CPU work on one [Memory] object; it is held here once. *)
Record CPU := mkCPU {
  reg_A : Z; reg_B : Z; reg_C : Z; reg_D : Z;
  reg_E : Z; reg_F : Z; reg_H : Z; reg_L : Z;
  reg_SP : Z; reg_PC : Z;
  interrupt_master_enable : bool;
  num_cycles : Z;
  memory : Memory
}.

(** A [Byte&] parameter bound to one of the 8-bit registers. *)
Inductive Reg := rA | rB | rC | rD | rE | rF | rH | rL.

Definition get_reg (r : Reg) (s : CPU) : Z :=
  match r with
  | rA => reg_A s | rB => reg_B s | rC => reg_C s | rD => reg_D s
  | rE => reg_E s | rF => reg_F s | rH => reg_H s | rL => reg_L s
  end.

Definition set_reg (r : Reg) (v : Z) (s : CPU) : CPU :=
  mkCPU (if r is rA then v else reg_A s) (if r is rB then v else reg_B s)
        (if r is rC then v else reg_C s) (if r is rD then v else reg_D s)
        (if r is rE then v else reg_E s) (if r is rF then v else reg_F s)
        (if r is rH then v else reg_H s) (if r is rL then v else reg_L s)
        (reg_SP s) (reg_PC s) (interrupt_master_enable s) (num_cycles s)
        (memory s).

Definition set_SP (v : Z) (s : CPU) : CPU :=
  mkCPU (reg_A s) (reg_B s) (reg_C s) (reg_D s) (reg_E s) (reg_F s)
        (reg_H s) (reg_L s) v (reg_PC s) (interrupt_master_enable s)
        (num_cycles s) (memory s).
Definition set_PC (v : Z) (s : CPU) : CPU :=
  mkCPU (reg_A s) (reg_B s) (reg_C s) (reg_D s) (reg_E s) (reg_F s)
        (reg_H s) (reg_L s) (reg_SP s) v (interrupt_master_enable s)
        (num_cycles s) (memory s).
Definition set_IME (v : bool) (s : CPU) : CPU :=
  mkCPU (reg_A s) (reg_B s) (reg_C s) (reg_D s) (reg_E s) (reg_F s)
        (reg_H s) (reg_L s) (reg_SP s) (reg_PC s) v (num_cycles s) (memory s).
Definition set_num_cycles (v : Z) (s : CPU) : CPU :=
  mkCPU (reg_A s) (reg_B s) (reg_C s) (reg_D s) (reg_E s) (reg_F s)
        (reg_H s) (reg_L s) (reg_SP s) (reg_PC s) (interrupt_master_enable s)
        v (memory s).
Definition set_memory (v : Memory) (s : CPU) : CPU :=
  mkCPU (reg_A s) (reg_B s) (reg_C s) (reg_D s) (reg_E s) (reg_F s)
        (reg_H s) (reg_L s) (reg_SP s) (reg_PC s) (interrupt_master_enable s)
        (num_cycles s) v.

(** [CPU::address]: [(high << 8 | low)] returned as an [Address]. *)
Definition address (high low : Z) : Z :=
  to_word (Z.lor (Z.shiftl high 8) low).

Definition high_nibble (target : Z) : Z :=
  to_byte (Z.land (Z.shiftr target 4) 0xF).

Definition low_nibble (target : Z) : Z :=
  to_byte (Z.land target 0xF).

(** [(Byte) (reg_pair >> 8) & 0xFF] *)
Definition high_reg_pair (reg_pair : Z) : Z :=
  to_byte (Z.land (to_byte (Z.shiftr reg_pair 8)) 0xFF).

Definition low_reg_pair (reg_pair : Z) : Z :=
  to_byte reg_pair.

Definition dec_reg_pair (high low : Reg) (s : CPU) : CPU :=
  let addr := to_word (address (get_reg high s) (get_reg low s) - 1) in
  let s := set_reg high (high_reg_pair addr) s in
  set_reg low (low_reg_pair addr) s.

Definition inc_reg_pair (high low : Reg) (s : CPU) : CPU :=
  let addr := to_word (address (get_reg high s) (get_reg low s) + 1) in
  let s := set_reg high (to_byte (Z.land (to_byte (Z.shiftr addr 8)) 0xFF)) s in
  set_reg low (to_byte addr) s.

(** [CPU::set_flag]: [reg_F |= flag] when [value] is true, [reg_F &= ~flag]
    otherwise. *)
Definition set_flag (flag : Z) (value : bool) (s : CPU) : CPU :=
  set_reg rF (if value
              then to_byte (Z.lor (reg_F s) flag)
              else to_byte (Z.land (reg_F s) (Z.lnot flag))) s.

(** A flag is tested as in [(reg_F & FLAG_CARRY)]. *)
Definition flag (f : Z) (s : CPU) : bool :=
  negb (Z.land (reg_F s) f =? 0).

(** The carry-in of ADDC and SUBC: [(reg_F & FLAG_CARRY) ? 1 : 0]. *)
Definition carry_in (s : CPU) : Z :=
  if Z.land (reg_F s) FLAG_CARRY =? 0 then 0 else 1.

(** *** 8-bit loads *)

(** [LD(Byte& destination, Byte value)] *)
Definition LD (destination : Reg) (value : Z) (s : CPU) : CPU :=
  set_reg destination (to_byte value) s.

(** [LD(Byte& destination, Address addr)] *)
Definition LD_from (destination : Reg) (addr : Z) (s : CPU) : option CPU :=
  v ← read (memory s) addr; Some (set_reg destination v s).

(** [LD(Address addr, Byte value)] *)
Definition LD_to (addr : Z) (value : Z) (s : CPU) : CPU :=
  set_memory (write (memory s) addr value) s.

(** *** 16-bit loads *)

(** [LD(Byte_2& reg, Byte lsb, Byte msb)]; [reg] is always [reg_SP]. *)
Definition LD_SP (lsb msb : Z) (s : CPU) : CPU :=
  set_SP (address msb lsb) s.

(** [LD(Byte& reg_high, Byte& reg_low, Byte lsb, Byte msb)] *)
Definition LD_pair (reg_high reg_low : Reg) (lsb msb : Z) (s : CPU) : CPU :=
  let s := set_reg reg_high (to_byte msb) s in
  set_reg reg_low (to_byte lsb) s.

(** [LD(Byte& reg_high, Byte& reg_low, Byte_2 value)] *)
Definition LD_pair16 (reg_high reg_low : Reg) (value : Z) (s : CPU) : CPU :=
  let value := to_word value in
  let s := set_reg reg_high (high_reg_pair value) s in
  let s := set_reg reg_low (low_reg_pair value) s in
  let s := set_flag FLAG_ZERO false s in
  set_flag FLAG_SUB false s.

(** [LD(Address destination, Byte_2 value)] *)
Definition LD_to16 (destination : Z) (value : Z) (s : CPU) : CPU :=
  let s := set_memory (write (memory s) destination (low_reg_pair value)) s in
  let destination := to_word (destination + 1) in
  set_memory (write (memory s) destination (high_reg_pair value)) s.

(** *** Stack operations *)

Definition PUSH (high low : Z) (s : CPU) : CPU :=
  let s := set_SP (to_word (reg_SP s - 1)) s in
  let s := set_memory (write (memory s) (reg_SP s) high) s in
  let s := set_SP (to_word (reg_SP s - 1)) s in
  set_memory (write (memory s) (reg_SP s) low) s.

Definition POP (high low : Reg) (s : CPU) : option CPU :=
  v ← read (memory s) (reg_SP s);
  let s := set_SP (to_word (reg_SP s + 1)) s in
  let s := set_reg low v s in
  v ← read (memory s) (reg_SP s);
  let s := set_SP (to_word (reg_SP s + 1)) s in
  Some (set_reg high v s).

(** *** ALU operations

    The intermediate [result] is an [int]; comparisons are made on it as
    written, and only the assignment to [target] truncates. *)

Definition ADD (target : Reg) (value : Z) (s : CPU) : CPU :=
  let result := get_reg target s + value in
  let s := set_flag FLAG_ZERO (result =? 0) s in
  let s := set_flag FLAG_SUB false s in
  let s := set_flag FLAG_HALF_CARRY
    (negb (Z.land (Z.land (get_reg target s) 0xF + Z.land value 0xF) 0x10 =? 0)) s in
  let s := set_flag FLAG_CARRY (0xFF <? result) s in
  set_reg target (to_byte (get_reg target s + value)) s.

Definition ADD_addr (target : Reg) (addr : Z) (s : CPU) : option CPU :=
  val ← read (memory s) addr; Some (ADD target val s).

Definition ADDC (target : Reg) (value : Z) (s : CPU) : CPU :=
  let carry := carry_in s in
  let s := ADD target value s in
  set_reg target (to_byte (get_reg target s + carry)) s.

Definition ADDC_addr (target : Reg) (addr : Z) (s : CPU) : option CPU :=
  val ← read (memory s) addr; Some (ADDC target val s).

Definition SUB (target : Reg) (value : Z) (s : CPU) : CPU :=
  let result := get_reg target s - value in
  let s := set_flag FLAG_ZERO (result =? 0) s in
  let s := set_flag FLAG_SUB true s in
  let s := set_flag FLAG_HALF_CARRY
    (Z.land (get_reg target s) 0xF - Z.land value 0xF <? 0) s in
  let s := set_flag FLAG_CARRY (result <? 0) s in
  set_reg target (to_byte (get_reg target s - value)) s.

Definition SUB_addr (target : Reg) (addr : Z) (s : CPU) : option CPU :=
  val ← read (memory s) addr; Some (SUB target val s).

Definition SUBC (target : Reg) (value : Z) (s : CPU) : CPU :=
  let carry := carry_in s in
  let s := SUB target value s in
  set_reg target (to_byte (get_reg target s - carry)) s.

Definition SUBC_addr (target : Reg) (addr : Z) (s : CPU) : option CPU :=
  val ← read (memory s) addr; Some (SUBC target val s).

Definition AND (target : Reg) (value : Z) (s : CPU) : CPU :=
  let s := set_reg target (to_byte (Z.land (get_reg target s) value)) s in
  let s := set_flag FLAG_ZERO (get_reg target s =? 0) s in
  let s := set_flag FLAG_SUB false s in
  let s := set_flag FLAG_HALF_CARRY true s in
  set_flag FLAG_CARRY false s.

Definition AND_addr (target : Reg) (addr : Z) (s : CPU) : option CPU :=
  val ← read (memory s) addr; Some (AND target val s).

Definition OR (target : Reg) (value : Z) (s : CPU) : CPU :=
  let s := set_reg target (to_byte (Z.lor (get_reg target s) value)) s in
  let s := set_flag FLAG_ZERO (get_reg target s =? 0) s in
  let s := set_flag FLAG_SUB false s in
  let s := set_flag FLAG_HALF_CARRY false s in
  set_flag FLAG_CARRY false s.

Definition OR_addr (target : Reg) (addr : Z) (s : CPU) : option CPU :=
  val ← read (memory s) addr; Some (OR target val s).

Definition XOR (target : Reg) (value : Z) (s : CPU) : CPU :=
  let s := set_reg target (to_byte (Z.lxor (get_reg target s) value)) s in
  let s := set_flag FLAG_ZERO (get_reg target s =? 0) s in
  let s := set_flag FLAG_SUB false s in
  let s := set_flag FLAG_HALF_CARRY false s in
  set_flag FLAG_CARRY false s.

(** [XOR(Byte& target, Address addr)] calls [OR]. *)
Definition XOR_addr (target : Reg) (addr : Z) (s : CPU) : option CPU :=
  val ← read (memory s) addr; Some (OR target val s).

Definition CP (target : Reg) (value : Z) (s : CPU) : CPU :=
  let result := get_reg target s - value in
  let s := set_flag FLAG_ZERO (result =? 0) s in
  let s := set_flag FLAG_SUB true s in
  let s := set_flag FLAG_HALF_CARRY
    (Z.land (get_reg target s) 0xF - Z.land value 0xF <? 0) s in
  set_flag FLAG_CARRY (result <? 0) s.

Definition CP_addr (target : Reg) (addr : Z) (s : CPU) : option CPU :=
  val ← read (memory s) addr; Some (CP target val s).

(** [INC(Byte& target)] and [DEC(Byte& target)] are also applied to a local
    variable by the [Address] overloads: the body takes the referenced
    value and returns its new value with the updated flags. *)
Definition INC_byte (target : Z) (s : CPU) : Z * CPU :=
  let result := target + 1 in
  let s := set_flag FLAG_ZERO (result =? 0) s in
  let s := set_flag FLAG_SUB false s in
  let s := set_flag FLAG_HALF_CARRY
    (negb (Z.land (Z.land target 0xF + 1) 0x10 =? 0)) s in
  (to_byte (target + 1), s).

Definition INC (target : Reg) (s : CPU) : CPU :=
  let '(v, s) := INC_byte (get_reg target s) s in set_reg target v s.

Definition INC_addr (addr : Z) (s : CPU) : option CPU :=
  value ← read (memory s) addr;
  let '(value, s) := INC_byte value s in
  Some (set_memory (write (memory s) addr value) s).

Definition DEC_byte (target : Z) (s : CPU) : Z * CPU :=
  let result := target - 1 in
  let s := set_flag FLAG_ZERO (result =? 0) s in
  let s := set_flag FLAG_SUB true s in
  let s := set_flag FLAG_HALF_CARRY (Z.land target 0xF - 1 <? 0) s in
  (to_byte (target - 1), s).

Definition DEC (target : Reg) (s : CPU) : CPU :=
  let '(v, s) := DEC_byte (get_reg target s) s in set_reg target v s.

Definition DEC_addr (addr : Z) (s : CPU) : option CPU :=
  value ← read (memory s) addr;
  let '(value, s) := DEC_byte value s in
  Some (set_memory (write (memory s) addr value) s).

(** *** Opcode dispatch

    The [switch] of [CPU::parse_opcode], with the locals [value] and
    [value2] it refers to as arguments.  Each case gives the effect of the
    calls on the CPU ([None] when a read indexes past the end of a vector)
    and the value [opbytes] has at the [break]. *)
Definition decode (code value value2 : Z) (s : CPU) : option CPU * Z :=
  match code with
  | 0x06 => (Some (LD rB value s), 2)
  | 0x0E => (Some (LD rC value s), 2)
  | 0x16 => (Some (LD rD value s), 2)
  | 0x1E => (Some (LD rE value s), 2)
  | 0x26 => (Some (LD rH value s), 2)
  | 0x2E => (Some (LD rL value s), 2)
  | 0x7F => (Some (LD rA (reg_A s) s), 1)
  | 0x78 => (Some (LD rA (reg_B s) s), 1)
  | 0x79 => (Some (LD rA (reg_C s) s), 1)
  | 0x7A => (Some (LD rA (reg_D s) s), 1)
  | 0x7B => (Some (LD rA (reg_E s) s), 1)
  | 0x7C => (Some (LD rA (reg_H s) s), 1)
  | 0x7D => (Some (LD rA (reg_L s) s), 1)
  | 0x7E => (LD_from rA (address (reg_H s) (reg_L s)) s, 1)
  | 0x40 => (Some (LD rB (reg_B s) s), 1)
  | 0x41 => (Some (LD rB (reg_C s) s), 1)
  | 0x42 => (Some (LD rB (reg_D s) s), 1)
  | 0x43 => (Some (LD rB (reg_E s) s), 1)
  | 0x44 => (Some (LD rB (reg_H s) s), 1)
  | 0x45 => (Some (LD rB (reg_L s) s), 1)
  | 0x46 => (LD_from rB (address (reg_H s) (reg_L s)) s, 1)
  | 0x48 => (Some (LD rC (reg_B s) s), 1)
  | 0x49 => (Some (LD rC (reg_C s) s), 1)
  | 0x4A => (Some (LD rC (reg_D s) s), 1)
  | 0x4B => (Some (LD rC (reg_E s) s), 1)
  | 0x4C => (Some (LD rC (reg_H s) s), 1)
  | 0x4D => (Some (LD rC (reg_L s) s), 1)
  | 0x4E => (LD_from rC (address (reg_H s) (reg_L s)) s, 1)
  | 0x50 => (Some (LD rD (reg_B s) s), 1)
  | 0x51 => (Some (LD rD (reg_C s) s), 1)
  | 0x52 => (Some (LD rD (reg_D s) s), 1)
  | 0x53 => (Some (LD rD (reg_E s) s), 1)
  | 0x54 => (Some (LD rD (reg_H s) s), 1)
  | 0x55 => (Some (LD rD (reg_L s) s), 1)
  | 0x56 => (LD_from rD (address (reg_H s) (reg_L s)) s, 1)
  | 0x58 => (Some (LD rE (reg_B s) s), 1)
  | 0x59 => (Some (LD rE (reg_C s) s), 1)
  | 0x5A => (Some (LD rE (reg_D s) s), 1)
  | 0x5B => (Some (LD rE (reg_E s) s), 1)
  | 0x5C => (Some (LD rE (reg_H s) s), 1)
  | 0x5D => (Some (LD rE (reg_L s) s), 1)
  | 0x5E => (LD_from rE (address (reg_H s) (reg_L s)) s, 1)
  | 0x60 => (Some (LD rH (reg_B s) s), 1)
  | 0x61 => (Some (LD rH (reg_C s) s), 1)
  | 0x62 => (Some (LD rH (reg_D s) s), 1)
  | 0x63 => (Some (LD rH (reg_E s) s), 1)
  | 0x64 => (Some (LD rH (reg_H s) s), 1)
  | 0x65 => (Some (LD rH (reg_L s) s), 1)
  | 0x66 => (LD_from rH (address (reg_H s) (reg_L s)) s, 1)
  | 0x68 => (Some (LD rL (reg_B s) s), 1)
  | 0x69 => (Some (LD rL (reg_C s) s), 1)
  | 0x6A => (Some (LD rL (reg_D s) s), 1)
  | 0x6B => (Some (LD rL (reg_E s) s), 1)
  | 0x6C => (Some (LD rL (reg_H s) s), 1)
  | 0x6D => (Some (LD rL (reg_L s) s), 1)
  | 0x6E => (LD_from rL (address (reg_H s) (reg_L s)) s, 1)
  | 0x70 => (Some (LD_to (address (reg_H s) (reg_L s)) (reg_B s) s), 1)
  | 0x71 => (Some (LD_to (address (reg_H s) (reg_L s)) (reg_C s) s), 1)
  | 0x72 => (Some (LD_to (address (reg_H s) (reg_L s)) (reg_D s) s), 1)
  | 0x73 => (Some (LD_to (address (reg_H s) (reg_L s)) (reg_E s) s), 1)
  | 0x74 => (Some (LD_to (address (reg_H s) (reg_L s)) (reg_H s) s), 1)
  | 0x75 => (Some (LD_to (address (reg_H s) (reg_L s)) (reg_L s) s), 1)
  | 0x36 => (Some (LD_to (address (reg_H s) (reg_L s)) value s), 2)
  | 0x0A => (LD_from rA (address (reg_B s) (reg_C s)) s, 1)
  | 0x1A => (LD_from rA (address (reg_D s) (reg_E s)) s, 1)
  | 0xFA => (LD_from rA (address value2 value) s, 3)
  | 0x47 => (Some (LD rB (reg_A s) s), 1)
  | 0x4F => (Some (LD rC (reg_A s) s), 1)
  | 0x57 => (Some (LD rD (reg_A s) s), 1)
  | 0x5F => (Some (LD rE (reg_A s) s), 1)
  | 0x67 => (Some (LD rH (reg_A s) s), 1)
  | 0x6F => (Some (LD rL (reg_A s) s), 1)
  | 0x02 => (Some (LD_to (address (reg_B s) (reg_C s)) (reg_A s) s), 1)
  | 0x12 => (Some (LD_to (address (reg_D s) (reg_E s)) (reg_A s) s), 1)
  | 0x77 => (Some (LD_to (address (reg_H s) (reg_L s)) (reg_A s) s), 1)
  | 0xEA => (Some (LD_to (address value2 value) (reg_A s) s), 3)
  | 0xF2 => ((v ← read (memory s) (to_word (0xFF00 + reg_C s)); Some (LD rA v s)), 1)
  | 0xE2 => (Some (LD_to (to_word (0xFF00 + reg_C s)) (reg_A s) s), 1)
  | 0x3A => ((s1 ← LD_from rA (address (reg_H s) (reg_L s)) s; Some (dec_reg_pair rH rL s1)), 1)
  | 0x32 => ((let s1 := LD_to (address (reg_H s) (reg_L s)) (reg_A s) s in Some (dec_reg_pair rH rL s1)), 1)
  | 0x2A => ((s1 ← LD_from rA (address (reg_H s) (reg_L s)) s; Some (inc_reg_pair rH rL s1)), 1)
  | 0x22 => ((let s1 := LD_to (address (reg_H s) (reg_L s)) (reg_A s) s in Some (inc_reg_pair rH rL s1)), 1)
  | 0xE0 => (Some (set_memory (write (memory s) (to_word (0xFF00 + value)) (reg_A s)) s), 1)
  | 0xF0 => ((v ← read (memory s) (to_word (0xFF00 + value)); Some (LD rA v s)), 1)
  | 0x01 => (Some (LD_pair rB rC value value2 s), 3)
  | 0x11 => (Some (LD_pair rD rE value value2 s), 3)
  | 0x21 => (Some (LD_pair rH rL value value2 s), 3)
  | 0x31 => (Some (LD_SP value value2 s), 3)
  | 0xF9 => (Some (LD_SP (reg_L s) (reg_H s) s), 1)
  | 0xF8 => (Some (LD_pair16 rH rL (reg_SP s + value) s), 2)
  | 0x08 => (Some (LD_to16 (address value2 value) (reg_SP s) s), 3)
  | 0xF5 => (Some (PUSH (reg_A s) (reg_F s) s), 1)
  | 0xC5 => (Some (PUSH (reg_B s) (reg_C s) s), 1)
  | 0xD5 => (Some (PUSH (reg_D s) (reg_E s) s), 1)
  | 0xE5 => (Some (PUSH (reg_H s) (reg_L s) s), 1)
  | 0xF1 => (POP rA rF s, 1)
  | 0xC1 => (POP rB rC s, 1)
  | 0xD1 => (POP rD rE s, 1)
  | 0xE1 => (POP rH rL s, 1)
  | 0x87 => (Some (ADD rA (reg_A s) s), 1)
  | 0x80 => (Some (ADD rA (reg_B s) s), 1)
  | 0x81 => (Some (ADD rA (reg_C s) s), 1)
  | 0x82 => (Some (ADD rA (reg_D s) s), 1)
  | 0x83 => (Some (ADD rA (reg_E s) s), 1)
  | 0x84 => (Some (ADD rA (reg_H s) s), 1)
  | 0x85 => (Some (ADD rA (reg_L s) s), 1)
  | 0x86 => (ADD_addr rA (address (reg_H s) (reg_L s)) s, 1)
  | 0xC6 => (Some (ADD rA value s), 2)
  | 0x8F => (Some (ADDC rA (reg_A s) s), 1)
  | 0x88 => (Some (ADDC rA (reg_B s) s), 1)
  | 0x89 => (Some (ADDC rA (reg_C s) s), 1)
  | 0x8A => (Some (ADDC rA (reg_D s) s), 1)
  | 0x8B => (Some (ADDC rA (reg_E s) s), 1)
  | 0x8C => (Some (ADDC rA (reg_H s) s), 1)
  | 0x8D => (Some (ADDC rA (reg_L s) s), 1)
  | 0x8E => (ADDC_addr rA (address (reg_H s) (reg_L s)) s, 1)
  | 0xCE => (Some (ADDC rA value s), 2)
  | 0x97 => (Some (SUB rA (reg_A s) s), 1)
  | 0x90 => (Some (SUB rA (reg_B s) s), 1)
  | 0x91 => (Some (SUB rA (reg_C s) s), 1)
  | 0x92 => (Some (SUB rA (reg_D s) s), 1)
  | 0x93 => (Some (SUB rA (reg_E s) s), 1)
  | 0x94 => (Some (SUB rA (reg_H s) s), 1)
  | 0x95 => (Some (SUB rA (reg_L s) s), 1)
  | 0x96 => (SUB_addr rA (address (reg_H s) (reg_L s)) s, 1)
  | 0xD6 => (Some (SUB rA value s), 2)
  | 0x9F => (Some (SUBC rA (reg_A s) s), 1)
  | 0x98 => (Some (SUBC rA (reg_B s) s), 1)
  | 0x99 => (Some (SUBC rA (reg_C s) s), 1)
  | 0x9A => (Some (SUBC rA (reg_D s) s), 1)
  | 0x9B => (Some (SUBC rA (reg_E s) s), 1)
  | 0x9C => (Some (SUBC rA (reg_H s) s), 1)
  | 0x9D => (Some (SUBC rA (reg_L s) s), 1)
  | 0x9E => (SUBC_addr rA (address (reg_H s) (reg_L s)) s, 1)
  | 0xA7 => (Some (AND rA (reg_A s) s), 1)
  | 0xA0 => (Some (AND rA (reg_B s) s), 1)
  | 0xA1 => (Some (AND rA (reg_C s) s), 1)
  | 0xA2 => (Some (AND rA (reg_D s) s), 1)
  | 0xA3 => (Some (AND rA (reg_E s) s), 1)
  | 0xA4 => (Some (AND rA (reg_H s) s), 1)
  | 0xA5 => (Some (AND rA (reg_L s) s), 1)
  | 0xA6 => (AND_addr rA (address (reg_H s) (reg_L s)) s, 1)
  | 0xE6 => (Some (AND rA value s), 2)
  | 0xB7 => (Some (OR rA (reg_A s) s), 1)
  | 0xB0 => (Some (OR rA (reg_B s) s), 1)
  | 0xB1 => (Some (OR rA (reg_C s) s), 1)
  | 0xB2 => (Some (OR rA (reg_D s) s), 1)
  | 0xB3 => (Some (OR rA (reg_E s) s), 1)
  | 0xB4 => (Some (OR rA (reg_H s) s), 1)
  | 0xB5 => (Some (OR rA (reg_L s) s), 1)
  | 0xB6 => (OR_addr rA (address (reg_H s) (reg_L s)) s, 1)
  | 0xF6 => (Some (OR rA value s), 2)
  | 0xAF => (Some (XOR rA (reg_A s) s), 1)
  | 0xA8 => (Some (XOR rA (reg_B s) s), 1)
  | 0xA9 => (Some (XOR rA (reg_C s) s), 1)
  | 0xAA => (Some (XOR rA (reg_D s) s), 1)
  | 0xAB => (Some (XOR rA (reg_E s) s), 1)
  | 0xAC => (Some (XOR rA (reg_H s) s), 1)
  | 0xAD => (Some (XOR rA (reg_L s) s), 1)
  | 0xAE => (XOR_addr rA (address (reg_H s) (reg_L s)) s, 1)
  | 0xEE => (Some (XOR rA value s), 2)
  | 0xBF => (Some (CP rA (reg_A s) s), 1)
  | 0xB8 => (Some (CP rA (reg_B s) s), 1)
  | 0xB9 => (Some (CP rA (reg_C s) s), 1)
  | 0xBA => (Some (CP rA (reg_D s) s), 1)
  | 0xBB => (Some (CP rA (reg_E s) s), 1)
  | 0xBC => (Some (CP rA (reg_H s) s), 1)
  | 0xBD => (Some (CP rA (reg_L s) s), 1)
  | 0xBE => (CP_addr rA (address (reg_H s) (reg_L s)) s, 1)
  | 0xFE => (Some (CP rA value s), 2)
  | 0x3C => (Some (INC rA s), 1)
  | 0x04 => (Some (INC rB s), 1)
  | 0x0C => (Some (INC rC s), 1)
  | 0x14 => (Some (INC rD s), 1)
  | 0x1C => (Some (INC rE s), 1)
  | 0x24 => (Some (INC rH s), 1)
  | 0x2C => (Some (INC rL s), 1)
  | 0x34 => (INC_addr (address (reg_H s) (reg_L s)) s, 1)
  | 0x3D => (Some (DEC rA s), 1)
  | 0x05 => (Some (DEC rB s), 1)
  | 0x0D => (Some (DEC rC s), 1)
  | 0x15 => (Some (DEC rD s), 1)
  | 0x1D => (Some (DEC rE s), 1)
  | 0x25 => (Some (DEC rH s), 1)
  | 0x2D => (Some (DEC rL s), 1)
  | 0x35 => (DEC_addr (address (reg_H s) (reg_L s)) s, 1)
  | _ => (Some s, 1)
  end.

(** [CPU::parse_opcode]: the operand bytes are the constants of the source,
    and H and L are assigned before the switch. *)
Definition parse_opcode (code : Z) (s : CPU) : option (Z * CPU) :=
  let value := 200 in
  let value2 := 200 in
  let addr1 := 0 (* 0b00000000 *) in
  let addr2 := 5 (* 0b00000101 *) in
  let s := set_reg rH addr1 s in
  let s := set_reg rL addr2 s in
  let '(r, opbytes) := decode code value value2 s in
  s ← r; Some (opbytes, s).

(** [CPU::init] *)
Definition CPU_init (m : Memory) (ime : bool) (n : Z) : CPU :=
  mkCPU 0 0 0 0 0 0 0 0 0xFFFE 0 ime n m.

(** ** Memory-mapped registers ([MemoryRegister])

    A [MemoryRegister] holds a pointer to one byte of [ZRAM]; it is modelled
    by the offset of that byte, so that a register and the address
    [0xFF00 + offset] name the same cell. *)

(** The bindings made by the [Memory] constructor. *)
Definition TIMA : Z := 0x05.
Definition TMA : Z := 0x06.
Definition TAC : Z := 0x07.
Definition LCDC : Z := 0x40.
Definition SCY : Z := 0x42.
Definition SCX : Z := 0x43.
Definition LYC : Z := 0x45.
Definition BGP : Z := 0x47.
Definition ZBP0 : Z := 0x48.
Definition ZBP1 : Z := 0x49.
Definition WY : Z := 0x4A.
Definition WX : Z := 0x4B.
Definition IE : Z := 0xFF.

(** Modelled from the spec: [memory.h] is absent and the constructor in
    [memory.cpp] does not bind [DIV], [IF], [STAT] and [LY]; their offsets
    are those of the specification's table of MMIO registers. *)
Definition DIV : Z := 0x04.
Definition IF : Z := 0x0F.
Definition STAT : Z := 0x41.
Definition LY : Z := 0x44.

(** [MemoryRegister::get] *)
Definition reg_get (r : Z) (m : Memory) : Z :=
  default 0 (ZRAM m !! Z.to_nat r).

(** [MemoryRegister::set] *)
Definition reg_set (r : Z) (data : Z) (m : Memory) : Memory :=
  set_ZRAM (<[Z.to_nat r := to_byte data]> (ZRAM m)) m.

(** Modelled from the spec: the bit helpers of [MemoryRegister] and the
    free functions [is_bit_set], [set_bit], [clear_bit], [high_byte] and
    [low_byte] are declared outside the three source files; they are the
    usual single-bit tests and updates on a byte, and the two halves of a
    16-bit word. *)
Definition is_bit_set (data : Z) (bit : Z) : bool := Z.testbit data bit.
Definition set_bit (data : Z) (bit : Z) : Z :=
  to_byte (Z.lor data (Z.shiftl 1 bit)).
Definition clear_bit (data : Z) (bit : Z) : Z :=
  to_byte (Z.land data (Z.lnot (Z.shiftl 1 bit))).
Definition high_byte (w : Z) : Z := to_byte (Z.shiftr w 8).
Definition low_byte (w : Z) : Z := to_byte w.

Definition reg_is_bit_set (r : Z) (bit : Z) (m : Memory) : bool :=
  is_bit_set (reg_get r m) bit.
Definition reg_set_bit (r : Z) (bit : Z) (m : Memory) : Memory :=
  reg_set r (set_bit (reg_get r m) bit) m.
Definition reg_clear_bit (r : Z) (bit : Z) (m : Memory) : Memory :=
  reg_set r (clear_bit (reg_get r m) bit) m.
Definition reg_clear (r : Z) (m : Memory) : Memory :=
  reg_set r 0 m.

(** The [Memory] constructor: zeroed vectors, then the values the registers
    have after the boot ROM. *)
Definition Memory_init : Memory :=
  let m := mkMemory []
             (replicate (Z.to_nat 0x2000) 0) (replicate (Z.to_nat 0x2000) 0)
             (replicate (Z.to_nat 0x0100) 0) (replicate (Z.to_nat 0x2000) 0)
             (replicate (Z.to_nat 0x00A0) 0) in
  let m := reg_set TIMA 0x00 m in
  let m := reg_set TMA 0x00 m in
  let m := reg_set TAC 0x00 m in
  let m := reg_set LCDC 0x91 m in
  let m := reg_set SCY 0x00 m in
  let m := reg_set SCX 0x00 m in
  let m := reg_set LYC 0x00 m in
  let m := reg_set BGP 0xFC m in
  let m := reg_set ZBP0 0xFF m in
  let m := reg_set ZBP1 0xFF m in
  let m := reg_set WY 0x00 m in
  let m := reg_set WX 0x00 m in
  reg_set IE 0x00 m.

(** ** Emulator ([emulator.cpp]) *)

(** Modelled from the spec: the interrupt numbers and bit names of the
    absent headers; bit [i] of IF and IE is interrupt [i], in the order
    V-Blank, LCDC, Timer, Serial, Joypad. *)
Definition INTERRUPT_VBLANK : Z := 0.
Definition INTERRUPT_LCDC : Z := 1.
Definition INTERRUPT_TIMER : Z := 2.
Definition INTERRUPT_SERIAL : Z := 3.
Definition INTERRUPT_JOYPAD : Z := 4.
Definition BIT_0 : Z := 0.
Definition BIT_1 : Z := 1.
Definition BIT_2 : Z := 2.
Definition BIT_3 : Z := 3.
Definition BIT_4 : Z := 4.
Definition BIT_5 : Z := 5.
Definition BIT_6 : Z := 6.
Definition BIT_7 : Z := 7.

(** The CPU (with the memory it shares with the emulator) and the [int]
    counters of the timer and LCD units. *)
Record Emulator := mkEmulator {
  cpu : CPU;
  divider_counter : Z;
  timer_counter : Z;
  timer_frequency : Z;
  scanline_counter : Z
}.

Definition emem (e : Emulator) : Memory := memory (cpu e).

Definition set_cpu (c : CPU) (e : Emulator) : Emulator :=
  mkEmulator c (divider_counter e) (timer_counter e) (timer_frequency e)
    (scanline_counter e).
Definition set_emem (m : Memory) (e : Emulator) : Emulator :=
  set_cpu (set_memory m (cpu e)) e.
Definition set_divider_counter (v : Z) (e : Emulator) : Emulator :=
  mkEmulator (cpu e) v (timer_counter e) (timer_frequency e) (scanline_counter e).
Definition set_timer_counter (v : Z) (e : Emulator) : Emulator :=
  mkEmulator (cpu e) (divider_counter e) v (timer_frequency e) (scanline_counter e).
Definition set_timer_frequency_field (v : Z) (e : Emulator) : Emulator :=
  mkEmulator (cpu e) (divider_counter e) (timer_counter e) v (scanline_counter e).
Definition set_scanline_counter (v : Z) (e : Emulator) : Emulator :=
  mkEmulator (cpu e) (divider_counter e) (timer_counter e) (timer_frequency e) v.

(** Modelled from the spec: [display.cpp] is absent; the LCD enable query is
    bit 7 of LCDC, and [draw_scanline] writes only the display's own pixel
    buffer, which is not part of this state. *)
Definition is_lcd_enabled (e : Emulator) : bool :=
  reg_is_bit_set LCDC BIT_7 (emem e).
Definition draw_scanline (e : Emulator) : Emulator := e.

Definition update_divider (cycles : Z) (e : Emulator) : Emulator :=
  let e := set_divider_counter (to_int (divider_counter e + cycles)) e in
  if 256 <=? divider_counter e (* 16384 Hz *)
  then
    let e := set_divider_counter 0 e in
    set_emem (reg_set DIV (reg_get DIV (emem e) + 1) (emem e)) e
  else e.

Definition timer_enabled (e : Emulator) : bool :=
  reg_is_bit_set TAC BIT_2 (emem e).

Definition get_timer_frequency (e : Emulator) : Z :=
  to_byte (Z.land (reg_get TAC (emem e)) 0x3).

Definition set_timer_frequency (e : Emulator) : Emulator :=
  let frequency := get_timer_frequency e in
  let e := set_timer_frequency_field frequency e in
  match frequency with
  | 0 => set_timer_counter 1024 e (* 4096 Hz *)
  | 1 => set_timer_counter 16 e (* 262144 Hz *)
  | 2 => set_timer_counter 64 e (* 65536 Hz *)
  | 3 => set_timer_counter 256 e (* 16384 Hz *)
  | _ => e
  end.

Definition request_interrupt (id : Z) (e : Emulator) : Emulator :=
  set_emem (reg_set_bit IF id (emem e)) e.

Definition update_timers (cycles : Z) (e : Emulator) : Emulator :=
  let e := update_divider cycles e in
  let new_freq := get_timer_frequency e in
  let e :=
    if negb (timer_frequency e =? new_freq)
    then set_timer_frequency_field new_freq (set_timer_frequency e)
    else e in
  if timer_enabled e
  then
    let e := set_timer_counter (timer_counter e - cycles) e in
    (* enough cpu clock cycles have happened to update timer *)
    if timer_counter e <=? 0
    then
      let timer_value := reg_get TIMA (emem e) in
      let e := set_timer_frequency e in
      if timer_value =? 255
      then
        let e := set_emem (reg_set TIMA (reg_get TMA (emem e)) (emem e)) e in
        request_interrupt INTERRUPT_TIMER e
      else set_emem (reg_set TIMA (timer_value + 1) (emem e)) e
    else e
  else e.

Definition service_interrupt (id : Z) (e : Emulator) : Emulator :=
  let e := set_cpu (set_IME false (cpu e)) e in
  let e := set_emem (reg_clear_bit IF id (emem e)) e in
  (* Push current execution address to stack *)
  let e := set_cpu (set_SP (to_word (reg_SP (cpu e) - 1)) (cpu e)) e in
  let e := set_emem (write (emem e) (reg_SP (cpu e)) (high_byte (reg_PC (cpu e)))) e in
  let e := set_cpu (set_SP (to_word (reg_SP (cpu e) - 1)) (cpu e)) e in
  let e := set_emem (write (emem e) (reg_SP (cpu e)) (low_byte (reg_PC (cpu e)))) e in
  match id with
  | 0 (* INTERRUPT_VBLANK *) => set_cpu (set_PC 0x40 (cpu e)) e
  | 1 (* INTERRUPT_LCDC *) => set_cpu (set_PC 0x48 (cpu e)) e
  | 2 (* INTERRUPT_TIMER *) => set_cpu (set_PC 0x50 (cpu e)) e
  | 4 (* INTERRUPT_JOYPAD *) => set_cpu (set_PC 0x60 (cpu e)) e
  | _ => e
  end.

(** One iteration of the [for] loop of [do_interrupts]. *)
Definition do_interrupt_bit (e : Emulator) (i : Z) : Emulator :=
  if reg_is_bit_set IF i (emem e)
  then if reg_is_bit_set IE i (emem e) then service_interrupt i e else e
  else e.

Definition do_interrupts (e : Emulator) : Emulator :=
  (* If master flag is enabled *)
  if interrupt_master_enable (cpu e)
  then
    (* If there are any interrupts set *)
    if 0 <? reg_get IF (emem e)
    then fold_left do_interrupt_bit [0; 1; 2; 3; 4] e
    else e
  else e.

Definition set_lcd_status (e : Emulator) : Emulator :=
  let status := reg_get STAT (emem e) in
  if negb (is_lcd_enabled e)
  then
    (* Set mode to 1 during LCD disabled and reset scanline *)
    let e := set_scanline_counter 456 e in
    let e := set_emem (reg_clear LY (emem e)) e in
    let status := to_byte (Z.land status 252) in
    let status := set_bit status 0 in
    set_emem (reg_set STAT status (emem e)) e
  else
    let current_line := reg_get LY (emem e) in
    (* extract current LCD mode *)
    let current_mode := to_byte (Z.land status 0x03) in
    let '(mode, status, do_interrupt) :=
      if 144 <=? current_line
      then
        let status := set_bit status BIT_0 in
        let status := clear_bit status BIT_1 in
        (1, status, is_bit_set status BIT_4)
      else
        let mode2_threshold := 456 - 80 in
        let mode3_threshold := mode2_threshold - 172 in
        if mode2_threshold <=? scanline_counter e
        then
          let status := set_bit status BIT_1 in
          let status := clear_bit status BIT_0 in
          (2, status, is_bit_set status BIT_5)
        else if mode3_threshold <=? scanline_counter e
        then
          let status := set_bit status BIT_1 in
          let status := set_bit status BIT_0 in
          (3, status, false)
        else
          let status := clear_bit status BIT_1 in
          let status := clear_bit status BIT_0 in
          (0, status, is_bit_set status BIT_3) in
    (* Entered new mode, request interrupt *)
    let e :=
      if do_interrupt && negb (mode =? current_mode)
      then request_interrupt INTERRUPT_LCDC e
      else e in
    (* check coincidence flag *)
    let '(status, e) :=
      if reg_get LY (emem e) =? reg_get LYC (emem e)
      then
        let status := set_bit status BIT_2 in
        (status,
         if is_bit_set status BIT_6 then request_interrupt INTERRUPT_LCDC e else e)
      else (clear_bit status BIT_2, e) in
    set_emem (reg_set STAT status (emem e)) e.

Definition update_scanline (cycles : Z) (e : Emulator) : Emulator :=
  let e := set_lcd_status e in
  if is_lcd_enabled e
  then
    let e := set_scanline_counter (scanline_counter e - cycles) e in
    if scanline_counter e <=? 0
    then
      let current_scanline := reg_get LY (emem e) in
      (* increment scanline and reset counter *)
      let e := set_emem (reg_set LY (current_scanline + 1) (emem e)) e in
      let e := set_scanline_counter 456 e in
      (* Entered VBLANK period *)
      if current_scanline =? 144 then request_interrupt 0 e
      (* Reset counter if past maximum *)
      else if 153 <? current_scanline then set_emem (reg_clear LY (emem e)) e
      (* Draw the next scanline *)
      else if current_scanline <? 144 then draw_scanline e
      else e
    else e
  else e.

(** The body of the inner loop of [Emulator::run] after the call of
    [parse_opcode]: the timer, LCD and interrupt units are given the cycle
    count of the instruction, which is then reset. *)
Definition after_opcode (e : Emulator) : Emulator :=
  let e := update_timers (num_cycles (cpu e)) e in
  let e := update_scanline (num_cycles (cpu e)) e in
  let e := do_interrupts e in
  set_cpu (set_num_cycles 0 (cpu e)) e.

(** One iteration of the inner loop of [Emulator::run].  The value
    returned by [parse_opcode] is not used. *)
Definition step (e : Emulator) : option Emulator :=
  code ← read (emem e) (reg_PC (cpu e));
  '(_, c) ← parse_opcode code (cpu e);
  Some (after_opcode (set_cpu c e)).

(** [n] iterations of the inner loop of [Emulator::run]. *)
Fixpoint steps (n : nat) (e : Emulator) : option Emulator :=
  match n with
  | O => Some e
  | S k => e1 ← step e; steps k e1
  end.

(** Modelled from the spec: [emulator.h] is absent; the scanline counter
    starts at 456.  The other counters, the interrupt master enable and the
    cycle count start at values the three source files do not give. *)
Definition Emulator_init (ime : bool) (n dc tc tf : Z) : Emulator :=
  mkEmulator (CPU_init Memory_init ime n) dc tc tf 456.

(** ** What the opcodes write and read through HL *)

(** The opcodes whose case in [parse_opcode] assigns [reg_H], and those
    whose case assigns [reg_L]. *)
Definition writes_H : list Z :=
  [0x26; 0x60; 0x61; 0x62; 0x63; 0x64; 0x65; 0x66; 0x67; 0x21; 0xF8; 0xE1;
   0x24; 0x25; 0x3A; 0x32; 0x2A; 0x22].
Definition writes_L : list Z :=
  [0x2E; 0x68; 0x69; 0x6A; 0x6B; 0x6C; 0x6D; 0x6E; 0x6F; 0x21; 0xF8; 0xE1;
   0x2C; 0x2D; 0x3A; 0x32; 0x2A; 0x22].

(** The opcodes whose case passes [address(reg_H, reg_L)] to a load, a
    store or an ALU operation. *)
Definition hl_indirect : list Z :=
  [0x7E; 0x46; 0x4E; 0x56; 0x5E; 0x66; 0x6E;
   0x70; 0x71; 0x72; 0x73; 0x74; 0x75; 0x36; 0x77;
   0x3A; 0x32; 0x2A; 0x22;
   0x86; 0x8E; 0x96; 0x9E; 0xA6; 0xB6; 0xAE; 0xBE; 0x34; 0x35].

(** ** Instruction lengths and operand bytes *)

(** The opcodes whose case sets [opbytes = 3], those whose case sets
    [opbytes = 2], and the length every case leaves in [opbytes] (1 unless
    assigned). *)
Definition three_byte_opcodes : list Z :=
  [0xFA; 0xEA; 0x01; 0x11; 0x21; 0x31; 0x08].
Definition two_byte_opcodes : list Z :=
  [0x06; 0x0E; 0x16; 0x1E; 0x26; 0x2E; 0x36; 0xF8;
   0xC6; 0xCE; 0xD6; 0xE6; 0xF6; 0xEE; 0xFE].
Definition opcode_length (code : Z) : Z :=
  if existsb (Z.eqb code) three_byte_opcodes then 3
  else if existsb (Z.eqb code) two_byte_opcodes then 2
  else 1.

(** The opcodes whose case refers to the operand byte [value]: the two-
    and three-byte opcodes, and 0xE0 and 0xF0, which leave [opbytes] at
    1.  The cases that refer to [value2] are the three-byte opcodes. *)
Definition operand_opcodes : list Z :=
  two_byte_opcodes ++ three_byte_opcodes ++ [0xE0; 0xF0].

(** ** The (HL)-indirect cases *)

(** The opcodes whose case reads [memory.read(address(reg_H, reg_L))], and
    what the case does with the byte [v] it has read: the calls of the
    case, with the result of the read as an argument. *)
Definition hl_reads : list Z :=
  [0x7E; 0x46; 0x4E; 0x56; 0x5E; 0x66; 0x6E; 0x3A; 0x2A;
   0x86; 0x8E; 0x96; 0x9E; 0xA6; 0xB6; 0xAE; 0xBE; 0x34; 0x35].
Definition hl_read_case (code v : Z) (s : CPU) : option CPU :=
  match code with
  | 0x7E => Some (set_reg rA v s)
  | 0x46 => Some (set_reg rB v s)
  | 0x4E => Some (set_reg rC v s)
  | 0x56 => Some (set_reg rD v s)
  | 0x5E => Some (set_reg rE v s)
  | 0x66 => Some (set_reg rH v s)
  | 0x6E => Some (set_reg rL v s)
  | 0x3A => Some (dec_reg_pair rH rL (set_reg rA v s))
  | 0x2A => Some (inc_reg_pair rH rL (set_reg rA v s))
  | 0x86 => Some (ADD rA v s)
  | 0x8E => Some (ADDC rA v s)
  | 0x96 => Some (SUB rA v s)
  | 0x9E => Some (SUBC rA v s)
  | 0xA6 => Some (AND rA v s)
  | 0xB6 => Some (OR rA v s)
  | 0xAE => Some (OR rA v s) (* XOR(Byte&, Address) calls OR *)
  | 0xBE => Some (CP rA v s)
  | 0x34 =>
      let '(v, s) := INC_byte v s in
      Some (set_memory (write (memory s) 0x0005 v) s)
  | 0x35 =>
      let '(v, s) := DEC_byte v s in
      Some (set_memory (write (memory s) 0x0005 v) s)
  | _ => None
  end.

(** The opcodes whose case stores through [address(reg_H, reg_L)] without
    reading, and the value the case passes to the store ([value] is the
    operand byte). *)
Definition hl_stores : list Z :=
  [0x70; 0x71; 0x72; 0x73; 0x74; 0x75; 0x36; 0x77; 0x32; 0x22].
Definition hl_store_value (code value : Z) (s : CPU) : Z :=
  match code with
  | 0x70 => reg_B s
  | 0x71 => reg_C s
  | 0x72 => reg_D s
  | 0x73 => reg_E s
  | 0x74 => reg_H s
  | 0x75 => reg_L s
  | 0x36 => value
  | _ => reg_A s
  end.

(** The registers of a CPU state, without the memory. *)
Definition registers (s : CPU) : list Z :=
  [reg_A s; reg_B s; reg_C s; reg_D s; reg_E s; reg_F s; reg_H s; reg_L s;
   reg_SP s; reg_PC s].

(** The CPU side of an emulator state: everything but the memory. *)
Definition cpu_state (e : Emulator) : list Z * bool * Z :=
  (registers (cpu e), interrupt_master_enable (cpu e), num_cycles (cpu e)).

(** ** Vocabulary of the statements *)

(** Registers hold bytes, SP and PC hold 16-bit words, and the memory has
    the sizes of the constructor. *)
Record wf_cpu (s : CPU) : Prop := {
  wf_A : is_byte (reg_A s); wf_B : is_byte (reg_B s);
  wf_C : is_byte (reg_C s); wf_D : is_byte (reg_D s);
  wf_E : is_byte (reg_E s); wf_F : is_byte (reg_F s);
  wf_H : is_byte (reg_H s); wf_L : is_byte (reg_L s);
  wf_SP : is_word (reg_SP s); wf_PC : is_word (reg_PC s);
  wf_mem : wf_memory (memory s)
}.

(** A stack cell the memory map stores: anything from 0x8000 up except the
    unusable range 0xFEA0-0xFEFF. *)
Definition stored (a : Z) : Prop :=
  0x8000 <= a < 0xFEA0 \/ 0xFF00 <= a <= 0xFFFF.

(** PUSH then POP through the decoder. *)
Definition push_pop (push pop : Z) (s : CPU) : option CPU :=
  '(_, s1) ← parse_opcode push s;
  '(_, s2) ← parse_opcode pop s1;
  Some s2.

(** Interrupt [i] is the only one both requested and enabled. *)
Definition only_pending (e : Emulator) (i : Z) : Prop :=
  Z.land (Z.land (reg_get IF (emem e)) (reg_get IE (emem e))) 0x1F
  = Z.shiftl 1 i.

(** The vector of interrupt [i] in the specification's table:
    0x40, 0x48, 0x50, 0x58, 0x60. *)
Definition interrupt_vector (i : Z) : Z := 0x40 + 8 * i.

(** The divider side of an emulator state: the accumulator and DIV. *)
Definition divider_state (e : Emulator) : Z * Z :=
  (divider_counter e, reg_get DIV (emem e)).

(** [update_divider] applied once per step, with the cycle count of each
    step. *)
Definition run_divider (cycles : list Z) (e : Emulator) : Emulator :=
  fold_left (fun e c => update_divider c e) cycles e.

(** The divider as the specification words it: the accumulator advances by
    the cycle count, DIV increments once per 256 cycles, and the
    accumulator keeps the remainder.  The state is the accumulator and
    DIV. *)
Definition spec_divider (cycles : Z) (st : Z * Z) : Z * Z :=
  let acc := fst st + cycles in
  (acc mod 256, to_byte (snd st + acc / 256)).

(** The divider as the code has it: a step at which the accumulator
    reaches 256 is one tick and empties the accumulator.  The state is the
    accumulator and the number of ticks. *)
Fixpoint divider_ticks (acc ticks : Z) (cycles : list Z) : Z * Z :=
  match cycles with
  | [] => (acc, ticks)
  | c :: cs =>
      if 256 <=? acc + c
      then divider_ticks 0 (ticks + 1) cs
      else divider_ticks (acc + c) ticks cs
  end.

Definition sum_cycles (cycles : list Z) : Z := fold_right Z.add 0 cycles.

(** A cycle count that cannot overflow an accumulator holding less than
    256: between 0 and [INT_MAX - 255]. *)
Definition cycle_count (c : Z) : Prop := 0 <= c <= INT_MAX - 255.

(** [update_scanline] applied once per step, with the cycle count of each
    step, and the special case of [k] steps of one scanline (456 cycles)
    each. *)
Definition run_scanlines (cycles : list Z) (e : Emulator) : Emulator :=
  fold_left (fun e c => update_scanline c e) cycles e.

Definition after_scanlines (k : nat) (e : Emulator) : Emulator :=
  Nat.iter k (update_scanline 456) e.

(** The LCD side of an emulator state that [set_lcd_status] leaves alone
    while the LCD is enabled: LY, LCDC and the scanline counter. *)
Definition lcd_frame (e : Emulator) : Z * Z * Z :=
  (reg_get LY (emem e), reg_get LCDC (emem e), scanline_counter e).

(** ** Example states *)

(** A two-byte image holding [LD B,0x0F], in the state the constructors
    give, with interrupts disabled. *)
Definition emulator_LD_B : Emulator :=
  mkEmulator (CPU_init (load_rom [0x06; 0x0F] Memory_init) false 0) 0 1024 0 456.

(** A register file with distinct bytes in every register, the stack at
    the top of high RAM. *)
Definition cpu_stack_example : CPU :=
  mkCPU 0x01 0x12 0x34 0x56 0x78 0xC8 0x8A 0x5C 0xFFFE 0x0100 false 0 Memory_init.

(** A state in which the program has set HL to 0xC010, a WRAM cell holding
    0x77, while the cartridge image holds 0x5A at address 0x0005. *)
Definition cpu_hl_example : CPU :=
  mkCPU 0x01 0x12 0x34 0x56 0x78 0x00 0xC0 0x10 0xFFFE 0x0100 false 0
    (load_rom [0x00; 0x11; 0x22; 0x33; 0x44; 0x5A]
       (write Memory_init 0xC010 0x77)).

(** An emulator state with the given IF and IE bytes, interrupts enabled,
    and the given SP and PC. *)
Definition emulator_pending (ifv iev sp pc : Z) : Emulator :=
  mkEmulator
    (mkCPU 0 0 0 0 0 0 0 0 sp pc true 0
       (reg_set IE iev (reg_set IF ifv Memory_init)))
    0 1024 0 456.

(** ** Vocabulary of the further properties *)

(** Every cell of every region of the memory holds a byte. *)
Record bytes_memory (m : Memory) : Prop := {
  bytes_ROM : Forall is_byte (CART_ROM m);
  bytes_WRAM : Forall is_byte (WRAM m);
  bytes_ERAM : Forall is_byte (ERAM m);
  bytes_ZRAM : Forall is_byte (ZRAM m);
  bytes_VRAM : Forall is_byte (VRAM m);
  bytes_OAM : Forall is_byte (OAM m)
}.

(** The 16-bit value of a register pair. *)
Definition reg_pair (high low : Reg) (s : CPU) : Z :=
  address (get_reg high s) (get_reg low s).

(** A boolean property of every pair of bytes. *)
Definition all_bytes2 (P : Z -> Z -> bool) : bool :=
  all_from (fun a => all_from (P a) 0 256) 0 256.

(** The opcodes that have a case in the [switch] of [parse_opcode], in the
    order of the source. *)
Definition implemented : list Z :=
  [0x06; 0x0E; 0x16; 0x1E; 0x26; 0x2E; 0x7F; 0x78; 0x79; 0x7A; 0x7B; 0x7C;
   0x7D; 0x7E; 0x40; 0x41; 0x42; 0x43; 0x44; 0x45; 0x46; 0x48; 0x49; 0x4A;
   0x4B; 0x4C; 0x4D; 0x4E; 0x50; 0x51; 0x52; 0x53; 0x54; 0x55; 0x56; 0x58;
   0x59; 0x5A; 0x5B; 0x5C; 0x5D; 0x5E; 0x60; 0x61; 0x62; 0x63; 0x64; 0x65;
   0x66; 0x68; 0x69; 0x6A; 0x6B; 0x6C; 0x6D; 0x6E; 0x70; 0x71; 0x72; 0x73;
   0x74; 0x75; 0x36; 0x0A; 0x1A; 0xFA; 0x47; 0x4F; 0x57; 0x5F; 0x67; 0x6F;
   0x02; 0x12; 0x77; 0xEA; 0xF2; 0xE2; 0x3A; 0x32; 0x2A; 0x22; 0xE0; 0xF0;
   0x01; 0x11; 0x21; 0x31; 0xF9; 0xF8; 0x08; 0xF5; 0xC5; 0xD5; 0xE5; 0xF1;
   0xC1; 0xD1; 0xE1; 0x87; 0x80; 0x81; 0x82; 0x83; 0x84; 0x85; 0x86; 0xC6;
   0x8F; 0x88; 0x89; 0x8A; 0x8B; 0x8C; 0x8D; 0x8E; 0xCE; 0x97; 0x90; 0x91;
   0x92; 0x93; 0x94; 0x95; 0x96; 0xD6; 0x9F; 0x98; 0x99; 0x9A; 0x9B; 0x9C;
   0x9D; 0x9E; 0xA7; 0xA0; 0xA1; 0xA2; 0xA3; 0xA4; 0xA5; 0xA6; 0xE6; 0xB7;
   0xB0; 0xB1; 0xB2; 0xB3; 0xB4; 0xB5; 0xB6; 0xF6; 0xAF; 0xA8; 0xA9; 0xAA;
   0xAB; 0xAC; 0xAD; 0xAE; 0xEE; 0xBF; 0xB8; 0xB9; 0xBA; 0xBB; 0xBC; 0xBD;
   0xBE; 0xFE; 0x3C; 0x04; 0x0C; 0x14; 0x1C; 0x24; 0x2C; 0x34; 0x3D; 0x05;
   0x0D; 0x15; 0x1D; 0x25; 0x2D; 0x35].

(** The opcodes whose case calls an ALU operation, the flag-clearing
    16-bit load [LD HL,SP+n], or [POP AF]: the ones that can assign
    [reg_F]. *)
Definition writes_F : list Z :=
  [0xF8; 0xF1; 0x87; 0x80; 0x81; 0x82; 0x83; 0x84; 0x85; 0x86; 0xC6; 0x8F;
   0x88; 0x89; 0x8A; 0x8B; 0x8C; 0x8D; 0x8E; 0xCE; 0x97; 0x90; 0x91; 0x92;
   0x93; 0x94; 0x95; 0x96; 0xD6; 0x9F; 0x98; 0x99; 0x9A; 0x9B; 0x9C; 0x9D;
   0x9E; 0xA7; 0xA0; 0xA1; 0xA2; 0xA3; 0xA4; 0xA5; 0xA6; 0xE6; 0xB7; 0xB0;
   0xB1; 0xB2; 0xB3; 0xB4; 0xB5; 0xB6; 0xF6; 0xAF; 0xA8; 0xA9; 0xAA; 0xAB;
   0xAC; 0xAD; 0xAE; 0xEE; 0xBF; 0xB8; 0xB9; 0xBA; 0xBB; 0xBC; 0xBD; 0xBE;
   0xFE; 0x3C; 0x04; 0x0C; 0x14; 0x1C; 0x24; 0x2C; 0x34; 0x3D; 0x05; 0x0D;
   0x15; 0x1D; 0x25; 0x2D; 0x35].

(** The opcodes whose case calls [memory.write]: the stores, the PUSHes
    and INC/DEC (HL). *)
Definition writes_memory : list Z :=
  [0x70; 0x71; 0x72; 0x73; 0x74; 0x75; 0x36; 0x02; 0x12; 0x77; 0xEA; 0xE2;
   0x32; 0x22; 0xE0; 0x08; 0xF5; 0xC5; 0xD5; 0xE5; 0x34; 0x35].

(** A register file attached to a memory whose cartridge image fills the
    32 KiB of the ROM range (all zero bytes). *)
Definition cpu_full_rom : CPU :=
  mkCPU 0x01 0x12 0x34 0x56 0x78 0xC0 0x8A 0x5C 0xFFFE 0x0100 false 0
    (load_rom (replicate (Z.to_nat 0x8000) 0) Memory_init).

(** An emulator state is well-formed when its CPU is and every memory
    cell holds a byte. *)
Definition wf_emulator (e : Emulator) : Prop :=
  wf_cpu (cpu e) /\ bytes_memory (emem e).

(** The addresses of the registers the timer unit writes (DIV, TIMA, IF)
    and of those the LCD unit writes (IF, STAT, LY). *)
Definition timer_addresses : list Z := [0xFF04; 0xFF05; 0xFF0F].
Definition lcd_addresses : list Z := [0xFF0F; 0xFF41; 0xFF44].

(** The cartridge image fills the 32 KiB of the ROM range. *)
Definition full_rom (m : Memory) : Prop :=
  0x8000 <= Z.of_nat (length (CART_ROM m)).

(** The three cycle accumulators are within the ranges the units keep
    them in: the divider below 256, the timer counter positive and at most
    the longest period, the scanline counter positive and at most one
    scanline. *)
Definition counters_in_range (e : Emulator) : Prop :=
  0 <= divider_counter e < 256 /\
  0 < timer_counter e <= 1024 /\
  0 < scanline_counter e <= 456.

(** The period in cycles that [set_timer_frequency] selects for the two
    low bits of TAC. *)
Definition timer_period (frequency : Z) : Z :=
  match frequency with
  | 0 => 1024
  | 1 => 16
  | 2 => 64
  | _ => 256
  end.

(** An emulator attached to the full-size all-zero image, in the state the
    constructors give, with interrupts enabled. *)
Definition emulator_full_rom : Emulator :=
  mkEmulator
    (CPU_init (load_rom (replicate (Z.to_nat 0x8000) 0) Memory_init) true 0)
    0 1024 0 456.



(** The LCD mode in bits 1-0 of STAT, as the pair (bit 1, bit 0). *)
Definition stat_mode (m : Memory) : bool * bool :=
  (Z.testbit (reg_get STAT m) 1, Z.testbit (reg_get STAT m) 0).


(** ** The run loop ([Emulator::run])

    The inner loop of [Emulator::run] has no bound of its own, so each
    frame is given at most [fuel] iterations of it.  The result is the
    state at loop exit, or [OutOfBounds] when a vector is indexed out of
    bounds, or [Running] when the bound is reached with the loop
    condition still true. *)
Inductive Outcome :=
| Finished (e : Emulator)
| OutOfBounds
| Running.

(** The inner [while (current_cycle < cycles_per_frame)] loop.  The
    quotient [cpu.CLOCK_SPEED / display.framerate] is computed from
    constants declared outside the three source files; it is the argument
    [cycles_per_frame]. *)
Fixpoint run_frame (fuel : nat) (cycles_per_frame current_cycle : Z)
    (e : Emulator) : Outcome :=
  if current_cycle <? cycles_per_frame
  then
    match fuel with
    | O => Running
    | S k =>
        match read (emem e) (reg_PC (cpu e)) with
        | None => OutOfBounds
        | Some code =>
            match parse_opcode code (cpu e) with
            | None => OutOfBounds
            | Some (_, c) =>
                let e := set_cpu c e in
                let current_cycle := current_cycle + num_cycles (cpu e) in
                run_frame k cycles_per_frame current_cycle (after_opcode e)
            end
        end
    end
  else Finished e.

(** The outer [for] loop: [total_iterations] frames, each starting with
    [current_cycle = 0]. *)
Fixpoint run (fuel total_iterations : nat) (cycles_per_frame : Z)
    (e : Emulator) : Outcome :=
  match total_iterations with
  | O => Finished e
  | S i =>
      match run_frame fuel cycles_per_frame 0 e with
      | Finished e' => run fuel i cycles_per_frame e'
      | o => o
      end
  end.

(* ================================================================== *)
(** * Properties *)

(** Preservation of the vector sizes, for [auto with wf]. *)
Create HintDb wf discriminated.

(** Projections of an emulator state after a field update, for
    [autorewrite with emem]. *)
Create Rewrite HintDb emem.

Lemma all_from_spec (P : Z -> bool) (n : nat) :
  forall lo, all_from P lo n = true ->
  forall a, lo <= a < lo + Z.of_nat n -> P a = true.
Proof.
  induction n as [|k IH]; intros lo Hall a Ha.
  - simpl in Ha. lia.
  - simpl in Hall. apply andb_true_iff in Hall as [Hlo Hrest].
    destruct (Z.eq_dec a lo) as [->|Hne]; [exact Hlo|].
    apply (IH (lo + 1) Hrest). lia.
Qed.

Lemma cell_eqb_eq (c d : Cell) : cell_eqb c d = true -> c = d.
Proof.
  destruct c, d; simpl; intros H; try discriminate; try reflexivity;
    apply Z.eqb_eq in H; now subst.
Qed.

Lemma cell_of_region (a : Z) : is_word a -> cell_of a = region_of a.
Proof.
  intros Ha. apply cell_eqb_eq.
  apply (all_from_spec (fun a => cell_eqb (cell_of a) (region_of a))
           (Z.to_nat 65536) 0); [vm_compute; reflexivity|].
  unfold is_word in Ha. lia.
Qed.

Ltac split_mask p :=
  repeat (first [ reflexivity | destruct p as [p|p|] ]).

Lemma read_cell (m : Memory) (location : Z) :
  read m location = cell_read m (cell_of location).
Proof.
  unfold read, cell_of.
  destruct (Z.land location 0xF000) as [|p|p]; try reflexivity.
  split_mask p.
  all: destruct (Z.land location 0x0F00) as [|q|q]; try reflexivity.
  all: try (split_mask q).
  all: destruct (location <? 0xFEA0); reflexivity.
Qed.

Lemma write_cell (m : Memory) (location data : Z) :
  write m location data = cell_write m (cell_of location) (to_byte data).
Proof.
  unfold write, cell_of.
  destruct (Z.land location 0xF000) as [|p|p]; try reflexivity.
  split_mask p.
  all: destruct (Z.land location 0x0F00) as [|q|q]; try reflexivity.
  all: try (split_mask q).
  all: destruct (location <? 0xFEA0); reflexivity.
Qed.

Lemma read_region (m : Memory) (a : Z) :
  is_word a -> read m a = cell_read m (region_of a).
Proof. intros Ha. now rewrite read_cell, cell_of_region. Qed.

Lemma write_region (m : Memory) (a v : Z) :
  is_word a -> write m a v = cell_write m (region_of a) (to_byte v).
Proof. intros Ha. now rewrite write_cell, cell_of_region. Qed.

(** Deciding the range tests of [region_of] from the hypotheses. *)
Ltac range_cases :=
  repeat match goal with
  | |- context [?x <? ?y] => destruct (Z.ltb_spec x y); try lia
  end.

Lemma cell_write_wf (m : Memory) (c : Cell) (v : Z) :
  wf_memory m -> wf_memory (cell_write m c v).
Proof.
  intros [H1 H2 H3 H4 H5].
  destruct c; simpl; try (now constructor);
    constructor; simpl; rewrite ?length_insert; assumption.
Qed.

Lemma write_wf (m : Memory) (a v : Z) :
  wf_memory m -> wf_memory (write m a v).
Proof. rewrite write_cell. apply cell_write_wf. Qed.

#[local] Hint Resolve cell_write_wf write_wf : wf.

Lemma lookup_insert_Z (l : list Z) (i v : Z) :
  0 <= i < Z.of_nat (length l) ->
  <[Z.to_nat i := v]> l !! Z.to_nat i = Some v.
Proof. intros Hi. apply list_lookup_insert_eq. lia. Qed.

Lemma lookup_insert_Z_ne (l : list Z) (i j v : Z) :
  0 <= i -> 0 <= j -> i <> j ->
  <[Z.to_nat i := v]> l !! Z.to_nat j = l !! Z.to_nat j.
Proof. intros Hi Hj Hne. apply list_lookup_insert_ne. lia. Qed.

Lemma land_1FFF (a : Z) : Z.land a 0x1FFF = a mod 0x2000.
Proof. change 0x1FFF with (Z.ones 13). now rewrite Z.land_ones. Qed.

(** ** The WRAM echo *)

(** C8. For every address [a] of the echo region 0xE000-0xFDFF, a read of
    [a] returns the byte of the WRAM cell [a & 0x1FFF], which is the byte a
    read of the WRAM address [a - 0x2000] returns; a write to either address
    gives the same memory, and the byte written is what a read of the other
    address then returns. *)
Theorem echo_region_aliases_wram (m : Memory) (a v : Z) :
  wf_memory m -> 0xE000 <= a <= 0xFDFF ->
  read m a = WRAM m !! Z.to_nat (Z.land a 0x1FFF) /\
  read m a = read m (a - 0x2000) /\
  (exists b, read m a = Some b) /\
  write m a v = write m (a - 0x2000) v /\
  read (write m a v) (a - 0x2000) = Some (to_byte v) /\
  read (write m (a - 0x2000) v) a = Some (to_byte v).
Proof.
  intros Hwf Ha.
  assert (Hw : is_word a) by (unfold is_word; lia).
  assert (Hw' : is_word (a - 0x2000)) by (unfold is_word; lia).
  assert (Hidx : Z.land a 0x1FFF = a - 0xE000).
  { rewrite land_1FFF. symmetry. apply (Z.mod_unique a 0x2000 7); lia. }
  assert (Hr : region_of a = CWram (a - 0xE000)).
  { unfold region_of. range_cases. reflexivity. }
  assert (Hr' : region_of (a - 0x2000) = CWram (a - 0xE000)).
  { unfold region_of. range_cases. f_equal. lia. }
  assert (Hlen : 0 <= a - 0xE000 < Z.of_nat (length (WRAM m))).
  { rewrite (wf_WRAM m Hwf). lia. }
  rewrite !write_region, !read_region, Hr, Hr', Hidx by assumption.
  simpl. rewrite lookup_insert_Z by assumption.
  repeat split; try reflexivity.
  destruct (WRAM m !! Z.to_nat (a - 0xE000)) as [b|] eqn:Hb; [now exists b|].
  apply lookup_ge_None_1 in Hb. lia.
Qed.

Lemma Memory_init_wf : wf_memory Memory_init.
Proof. constructor; vm_compute; reflexivity. Qed.

Lemma echo_region_aliases_wram_witness :
  read Memory_init 0xE123 = read Memory_init 0xC123 /\
  read (write Memory_init 0xE123 0x5A) 0xC123 = Some 0x5A.
Proof.
  destruct (echo_region_aliases_wram Memory_init 0xE123 0x5A)
    as (_ & H1 & _ & _ & H2 & _).
  - constructor; vm_compute; reflexivity.
  - lia.
  - split; [exact H1 | exact H2].
Defined.

(** ** Cartridge reads past the end of the image *)

Lemma read_rom (m : Memory) (a : Z) :
  0 <= a < 0x8000 -> read m a = CART_ROM m !! Z.to_nat a.
Proof.
  intros Ha. rewrite read_region by (unfold is_word; lia).
  unfold region_of. range_cases. reflexivity.
Qed.

Lemma read_rom_in_range (m : Memory) (a : Z) :
  0 <= a < 0x8000 -> a < Z.of_nat (length (CART_ROM m)) ->
  exists b, read m a = Some b /\ CART_ROM m !! Z.to_nat a = Some b.
Proof.
  intros Ha Hlen. rewrite read_rom by assumption.
  destruct (CART_ROM m !! Z.to_nat a) as [b|] eqn:Hb; [now exists b|].
  apply lookup_ge_None_1 in Hb. lia.
Qed.

(** C9. For every address in 0x0000-0x7FFF at or beyond the length of the
    loaded image, [Memory::read] applies [CART_ROM[location]] past the end
    of the vector: the read has no defined result, and it is not 0xFF. *)
Theorem read_past_rom_end (m : Memory) (a : Z) :
  0 <= a < 0x8000 -> Z.of_nat (length (CART_ROM m)) <= a ->
  read m a = None /\ read m a <> Some 0xFF.
Proof.
  intros Ha Hlen. rewrite read_rom by assumption.
  assert (H : CART_ROM m !! Z.to_nat a = None) by (apply lookup_ge_None_2; lia).
  rewrite H. split; [reflexivity | discriminate].
Qed.

Lemma read_past_rom_end_witness :
  read (load_rom [0x00; 0xC3] Memory_init) 0x0100 = None /\
  read (load_rom [0x00; 0xC3] Memory_init) 0x0100 <> Some 0xFF.
Proof.
  apply (read_past_rom_end (load_rom [0x00; 0xC3] Memory_init) 0x0100).
  - lia.
  - simpl. lia.
Defined.

(** ** Flags *)

Lemma land_pow2 (x i : Z) :
  0 <= i -> (Z.land x (2 ^ i) =? 0) = negb (Z.testbit x i).
Proof.
  intros Hi.
  assert (H : Z.land x (2 ^ i) = if Z.testbit x i then 2 ^ i else 0).
  { apply Z.bits_inj'. intros n Hn.
    rewrite Z.land_spec, Z.pow2_bits_eqb by assumption.
    destruct (Z.eqb_spec i n) as [->|Hne].
    - rewrite andb_true_r. destruct (Z.testbit x n) eqn:E.
      + now rewrite Z.pow2_bits_true.
      + now rewrite Z.bits_0.
    - rewrite andb_false_r. destruct (Z.testbit x i).
      + rewrite Z.pow2_bits_false; [reflexivity | congruence].
      + now rewrite Z.bits_0. }
  rewrite H. destruct (Z.testbit x i); [|reflexivity].
  simpl. apply Z.eqb_neq. pose proof (Z.pow_pos_nonneg 2 i). lia.
Qed.

Lemma testbit_to_byte (x i : Z) :
  0 <= i < 8 -> Z.testbit (to_byte x) i = Z.testbit x i.
Proof.
  intros Hi. unfold to_byte. change 256 with (2 ^ 8).
  apply Z.mod_pow2_bits_low. lia.
Qed.

Lemma flag_set_flag (i k : Z) (b : bool) (s : CPU) :
  0 <= i < 8 -> 0 <= k < 8 ->
  flag (2 ^ i) (set_flag (2 ^ k) b s) = if i =? k then b else flag (2 ^ i) s.
Proof.
  intros Hi Hk. unfold flag, set_flag. simpl.
  rewrite !land_pow2, !negb_involutive by lia.
  destruct b; rewrite testbit_to_byte by lia.
  - rewrite Z.lor_spec, Z.pow2_bits_eqb by lia.
    rewrite (Z.eqb_sym k i). destruct (i =? k); [apply orb_true_r | apply orb_false_r].
  - rewrite Z.land_spec, Z.lnot_spec, Z.pow2_bits_eqb by lia.
    rewrite (Z.eqb_sym k i). destruct (i =? k); [apply andb_false_r | apply andb_true_r].
Qed.

Lemma flags_after (bz bn bh bc : bool) (s : CPU) :
  let s' := set_flag FLAG_CARRY bc (set_flag FLAG_HALF_CARRY bh
              (set_flag FLAG_SUB bn (set_flag FLAG_ZERO bz s))) in
  flag FLAG_ZERO s' = bz /\ flag FLAG_SUB s' = bn /\
  flag FLAG_HALF_CARRY s' = bh /\ flag FLAG_CARRY s' = bc.
Proof.
  intros s'. subst s'.
  change FLAG_ZERO with (2 ^ 7). change FLAG_SUB with (2 ^ 6).
  change FLAG_HALF_CARRY with (2 ^ 5). change FLAG_CARRY with (2 ^ 4).
  rewrite !flag_set_flag by lia. simpl. auto.
Qed.

(** ** ADD *)

Lemma ADD_A_flags (v : Z) (s : CPU) :
  flag FLAG_ZERO (ADD rA v s) = (reg_A s + v =? 0) /\
  flag FLAG_SUB (ADD rA v s) = false /\
  flag FLAG_HALF_CARRY (ADD rA v s)
    = negb (Z.land (Z.land (reg_A s) 0xF + Z.land v 0xF) 0x10 =? 0) /\
  flag FLAG_CARRY (ADD rA v s) = (0xFF <? reg_A s + v).
Proof.
  exact (flags_after (reg_A s + v =? 0) false
           (negb (Z.land (Z.land (reg_A s) 0xF + Z.land v 0xF) 0x10 =? 0))
           (0xFF <? reg_A s + v) s).
Qed.

Lemma ADD_A_value (v : Z) (s : CPU) :
  reg_A (ADD rA v s) = to_byte (reg_A s + v).
Proof. reflexivity. Qed.

Lemma ADD_zero_flag_differs (v : Z) (s : CPU) :
  is_byte (reg_A s) -> is_byte v ->
  (flag FLAG_ZERO (ADD rA v s) <> (to_byte (reg_A s + v) =? 0)
   <-> reg_A s + v = 256).
Proof.
  intros Ha Hv. unfold is_byte in *.
  destruct (ADD_A_flags v s) as [-> _]. unfold to_byte.
  destruct (Z.eq_dec (reg_A s + v) 256) as [E|E].
  - rewrite E. split; [reflexivity | discriminate].
  - split; [|contradiction]. intros H. exfalso. apply H.
    destruct (Z_lt_dec (reg_A s + v) 256) as [Hlt|Hge].
    + now rewrite Z.mod_small by lia.
    + replace ((reg_A s + v) mod 256) with (reg_A s + v - 256)
        by (apply (Z.mod_unique _ 256 1); lia).
      destruct (Z.eqb_spec (reg_A s + v) 0), (Z.eqb_spec (reg_A s + v - 256) 0);
        (reflexivity || lia).
Qed.

(** C3. With A=0x3A and B=0xC6, opcode 0x80 (ADD A,B) leaves A=0x00, N=0,
    H=1 and C=1, but Z=0: [CPU::ADD] compares the [int] sum 0x100 with zero.
    In general ADD sets Z exactly when the sum A + v, before truncation to
    8 bits, is zero. *)
Theorem ADD_A_B_3A_C6 (s : CPU) :
  let s0 := set_reg rA 0x3A (set_reg rB 0xC6 s) in
  (exists s', parse_opcode 0x80 s0 = Some (1, s') /\
     reg_A s' = 0x00 /\ flag FLAG_ZERO s' = false /\ flag FLAG_SUB s' = false /\
     flag FLAG_HALF_CARRY s' = true /\ flag FLAG_CARRY s' = true) /\
  (forall v, flag FLAG_ZERO (ADD rA v s) = (reg_A s + v =? 0)).
Proof.
  intros s0. split.
  - exists (ADD rA 0xC6 (set_reg rL 5 (set_reg rH 0 s0))).
    split; [reflexivity|].
    split; [reflexivity|].
    apply (ADD_A_flags 0xC6 (set_reg rL 5 (set_reg rH 0 s0))).
  - intros v. apply ADD_A_flags.
Qed.

(** ** SBC *)

Lemma SUB_A_flags (v : Z) (s : CPU) :
  flag FLAG_ZERO (SUB rA v s) = (reg_A s - v =? 0) /\
  flag FLAG_SUB (SUB rA v s) = true /\
  flag FLAG_HALF_CARRY (SUB rA v s)
    = (Z.land (reg_A s) 0xF - Z.land v 0xF <? 0) /\
  flag FLAG_CARRY (SUB rA v s) = (reg_A s - v <? 0).
Proof.
  exact (flags_after (reg_A s - v =? 0) true
           (Z.land (reg_A s) 0xF - Z.land v 0xF <? 0) (reg_A s - v <? 0) s).
Qed.

Lemma SUBC_A_flags (v : Z) (s : CPU) :
  reg_F (SUBC rA v s) = reg_F (SUB rA v s).
Proof. reflexivity. Qed.

Lemma SUBC_A_value (v : Z) (s : CPU) :
  reg_A (SUBC rA v s) = (reg_A s - v - carry_in s) mod 256.
Proof.
  change (reg_A (SUBC rA v s))
    with (to_byte (to_byte (reg_A s - v) - carry_in s)).
  unfold to_byte. now rewrite Zminus_mod_idemp_l.
Qed.

(** C4. With A=0x00, operand B=0x00 and the carry flag set, opcode 0x98
    (SBC A,B) leaves A=0xFF: the value is (A - v - c) mod 256.  The flags
    are those [CPU::SUB] computes for A - v, before the carry is
    subtracted: Z=1, N=1, H=0, C=0.  In general the flags after
    [CPU::SUBC] are the flags of SUB on the same operands, whatever the
    carry-in. *)
Theorem SBC_A_B_carry_in (s : CPU) :
  let s0 := set_reg rA 0x00 (set_reg rB 0x00 (set_reg rF 0x10 s)) in
  (exists s', parse_opcode 0x98 s0 = Some (1, s') /\
     carry_in s0 = 1 /\ reg_A s' = 0xFF /\
     flag FLAG_ZERO s' = true /\ flag FLAG_SUB s' = true /\
     flag FLAG_HALF_CARRY s' = false /\ flag FLAG_CARRY s' = false) /\
  (forall v, reg_A (SUBC rA v s) = (reg_A s - v - carry_in s) mod 256 /\
             reg_F (SUBC rA v s) = reg_F (SUB rA v s)).
Proof.
  intros s0. split.
  - exists (SUBC rA 0x00 (set_reg rL 5 (set_reg rH 0 s0))).
    split; [reflexivity|].
    split; [reflexivity|].
    split; [reflexivity|].
    apply (SUB_A_flags 0x00 (set_reg rL 5 (set_reg rH 0 s0))).
  - intros v. split; [apply SUBC_A_value | reflexivity].
Qed.

(** ** Opcode dispatch *)

#[local] Arguments read : simpl never.
#[local] Arguments write : simpl never.

(** Case analysis on the opcode: the binary digits of [p] are split until
    the [switch] has selected a case. *)
Ltac explore p leaf :=
  cbv beta iota;
  lazymatch goal with
  | |- context [match p with xI _ => _ | xO _ => _ | xH => _ end] =>
      destruct p as [p|p|]; explore p leaf
  | _ => leaf
  end.

Ltac unfold_fallible H :=
  unfold LD_from, ADD_addr, ADDC_addr, SUB_addr, SUBC_addr, AND_addr, OR_addr,
    XOR_addr, CP_addr, INC_addr, DEC_addr, POP in H; simpl in H.

Ltac case_reads H :=
  repeat match type of H with
  | context [read ?m ?a] => destruct (read m a) eqn:?; simpl in H
  end; try discriminate.

Lemma decode_length (code : Z) :
  exists n, (n = 1 \/ n = 2 \/ n = 3) /\
    forall value value2 s, snd (decode code value value2 s) = n.
Proof.
  unfold decode.
  destruct code as [|p|p];
    [exists 1; split; [auto | reflexivity] | | exists 1; split; [auto | reflexivity]].
  explore p ltac:(first
    [ exists 1; split; [auto | reflexivity]
    | exists 2; split; [auto | reflexivity]
    | exists 3; split; [auto | reflexivity] ]).
Qed.

Lemma parse_opcode_frame (code : Z) (s s' : CPU) (n : Z) :
  parse_opcode code s = Some (n, s') ->
  n = snd (decode code 200 200 s) /\
  reg_PC s' = reg_PC s /\
  interrupt_master_enable s' = interrupt_master_enable s /\
  num_cycles s' = num_cycles s.
Proof.
  unfold parse_opcode, decode.
  destruct code as [|p|p].
  1,3: intros H; inversion H; repeat split; reflexivity.
  explore p ltac:(intros H; unfold_fallible H; case_reads H;
                  inversion H; repeat split; reflexivity).
Qed.

Lemma parse_opcode_HL_after (code : Z) (s s' : CPU) (n : Z) :
  parse_opcode code s = Some (n, s') ->
  (existsb (Z.eqb code) writes_H = false -> reg_H s' = 0) /\
  (existsb (Z.eqb code) writes_L = false -> reg_L s' = 5).
Proof.
  unfold parse_opcode, decode.
  destruct code as [|p|p].
  1,3: intros H; inversion H; split; reflexivity.
  explore p ltac:(intros H; unfold_fallible H; case_reads H; inversion H;
    split; intros Hw; first [reflexivity | discriminate Hw]).
Qed.

Lemma parse_opcode_ignores_HL (code h l : Z) (s : CPU) :
  parse_opcode code (set_reg rH h (set_reg rL l s)) = parse_opcode code s.
Proof. reflexivity. Qed.

Lemma hl_indirect_only_cell_5 :
  Forall (fun code => forall s m',
            read m' 0x0005 = read (memory s) 0x0005 ->
            (forall n s', parse_opcode code s = Some (n, s') ->
                          memory s' = memory s) /\
            option_map (fun r => registers (snd r)) (parse_opcode code (set_memory m' s))
            = option_map (fun r => registers (snd r)) (parse_opcode code s))
         hl_indirect.
Proof.
  unfold hl_indirect.
  repeat apply List.Forall_cons; try apply List.Forall_nil.
  all: intros s m' Hm; split;
    [ intros n s' H; unfold parse_opcode in H; simpl in H;
      unfold_fallible H; case_reads H; inversion H; reflexivity
    | unfold parse_opcode; simpl;
      unfold LD_from, ADD_addr, ADDC_addr, SUB_addr, SUBC_addr, AND_addr,
        OR_addr, XOR_addr, CP_addr, INC_addr, DEC_addr; simpl;
      change (address 0 5) with 5; rewrite ?Hm;
      try destruct (read (memory s) 5); reflexivity ].
Qed.

Lemma address_bytes (high low : Z) :
  is_byte high -> is_byte low -> address high low = 256 * high + low.
Proof.
  intros Hh Hl. apply Z.eqb_eq.
  assert (H : all_from (fun h => all_from (fun l => address h l =? 256 * h + l)
                                   0 (Z.to_nat 256)) 0 (Z.to_nat 256) = true)
    by (vm_compute; reflexivity).
  apply (all_from_spec _ _ _ H high) in Hh.
  apply (all_from_spec _ _ _ Hh low). exact Hl.
Qed.

(** ** The timer, LCD and interrupt units leave the registers alone *)

Ltac split_ifs :=
  cbv zeta;
  repeat (match goal with
          | |- context [if ?c then _ else _] => destruct c
          | |- context [match ?c with (_, _) => _ end] => destruct c
          end; cbv beta iota).

Lemma update_divider_cpu (cycles : Z) (e : Emulator) :
  cpu_state (update_divider cycles e) = cpu_state e.
Proof. unfold update_divider. split_ifs; reflexivity. Qed.

Lemma set_timer_frequency_cpu (e : Emulator) :
  cpu_state (set_timer_frequency e) = cpu_state e.
Proof. unfold set_timer_frequency. cbv zeta. repeat case_match; reflexivity. Qed.

Lemma update_timers_cpu (cycles : Z) (e : Emulator) :
  cpu_state (update_timers cycles e) = cpu_state e.
Proof.
  unfold update_timers. cbv zeta.
  set (e1 := update_divider cycles e).
  assert (H1 : cpu_state e1 = cpu_state e) by apply update_divider_cpu.
  set (e2 := if negb (timer_frequency e1 =? get_timer_frequency e1)
             then set_timer_frequency_field (get_timer_frequency e1)
                    (set_timer_frequency e1)
             else e1).
  assert (H2 : cpu_state e2 = cpu_state e).
  { subst e2. destruct (negb _); [|exact H1].
    rewrite <- H1, <- (set_timer_frequency_cpu e1). reflexivity. }
  clearbody e2. clear H1 e1.
  destruct (timer_enabled e2); [|exact H2].
  set (e3 := set_timer_counter (timer_counter e2 - cycles) e2).
  assert (H3 : cpu_state e3 = cpu_state e) by exact H2.
  clearbody e3.
  destruct (timer_counter e3 <=? 0); [|exact H3].
  rewrite <- H3, <- (set_timer_frequency_cpu e3).
  destruct (reg_get TIMA (emem e3) =? 255); reflexivity.
Qed.

Lemma set_lcd_status_cpu (e : Emulator) :
  cpu_state (set_lcd_status e) = cpu_state e.
Proof.
  unfold set_lcd_status, request_interrupt. split_ifs; reflexivity.
Qed.

Lemma update_scanline_cpu (cycles : Z) (e : Emulator) :
  cpu_state (update_scanline cycles e) = cpu_state e.
Proof.
  unfold update_scanline. cbv zeta.
  set (e1 := set_lcd_status e).
  assert (H1 : cpu_state e1 = cpu_state e) by apply set_lcd_status_cpu.
  clearbody e1.
  destruct (is_lcd_enabled e1); [|exact H1].
  rewrite <- H1. unfold request_interrupt, draw_scanline.
  split_ifs; reflexivity.
Qed.

Lemma do_interrupts_disabled (e : Emulator) :
  interrupt_master_enable (cpu e) = false -> do_interrupts e = e.
Proof. intros H. unfold do_interrupts. now rewrite H. Qed.

Lemma cpu_state_PC (e e' : Emulator) :
  cpu_state e' = cpu_state e ->
  reg_PC (cpu e') = reg_PC (cpu e) /\
  interrupt_master_enable (cpu e') = interrupt_master_enable (cpu e).
Proof.
  intros H. split.
  - exact (f_equal (fun x => nth 9 (fst (fst x)) 0) H).
  - exact (f_equal (fun x => snd (fst x)) H).
Qed.

Lemma units_cpu_state (e : Emulator) :
  cpu_state (update_scanline (num_cycles (cpu (update_timers (num_cycles (cpu e)) e)))
               (update_timers (num_cycles (cpu e)) e)) = cpu_state e.
Proof. now rewrite update_scanline_cpu, update_timers_cpu. Qed.

Lemma reg_PC_reset_cycles (e : Emulator) :
  reg_PC (cpu (set_cpu (set_num_cycles 0 (cpu e)) e)) = reg_PC (cpu e).
Proof. reflexivity. Qed.

Lemma IME_reset_cycles (e : Emulator) :
  interrupt_master_enable (cpu (set_cpu (set_num_cycles 0 (cpu e)) e))
  = interrupt_master_enable (cpu e).
Proof. reflexivity. Qed.

Lemma after_opcode_PC (e : Emulator) :
  interrupt_master_enable (cpu e) = false ->
  reg_PC (cpu (after_opcode e)) = reg_PC (cpu e) /\
  interrupt_master_enable (cpu (after_opcode e)) = false.
Proof.
  intros Hime. unfold after_opcode. cbv zeta.
  destruct (cpu_state_PC _ _ (units_cpu_state e)) as [Hr Hi].
  rewrite do_interrupts_disabled by congruence.
  rewrite reg_PC_reset_cycles, IME_reset_cycles. split; congruence.
Qed.

Lemma step_PC (e e' : Emulator) :
  step e = Some e' -> interrupt_master_enable (cpu e) = false ->
  reg_PC (cpu e') = reg_PC (cpu e) /\ interrupt_master_enable (cpu e') = false.
Proof.
  unfold step. intros H Hime.
  apply bind_Some in H as (code & _ & H).
  apply bind_Some in H as ([n c] & Hp & H).
  apply parse_opcode_frame in Hp as (_ & Hpc & Hi & _).
  assert (He : e' = after_opcode (set_cpu c e)) by congruence.
  rewrite He.
  destruct (after_opcode_PC (set_cpu c e)) as [H1 H2];
    [now rewrite <- Hime | split; [now rewrite H1 | exact H2]].
Qed.

Lemma steps_PC (n : nat) :
  forall e e', steps n e = Some e' ->
    interrupt_master_enable (cpu e) = false ->
    reg_PC (cpu e') = reg_PC (cpu e).
Proof.
  induction n as [|k IH]; intros e e' H Hime.
  - cbn in H. congruence.
  - cbn [steps] in H. apply bind_Some in H as (e1 & H1 & Hk).
    destruct (step_PC e e1 H1 Hime) as [Hpc Hime1].
    rewrite (IH e1 e' Hk Hime1). exact Hpc.
Qed.

Ltac case_goal_reads :=
  repeat match goal with
  | |- context [read ?m ?a] => destruct (read m a)
  end.

Lemma decode_opcode_length (code value value2 : Z) (s : CPU) :
  snd (decode code value value2 s) = opcode_length code.
Proof.
  unfold decode.
  destruct code as [|p|p]; [reflexivity | | reflexivity].
  explore p ltac:(reflexivity).
Qed.

Lemma decode_without_operand (code : Z) :
  (existsb (Z.eqb code) operand_opcodes = false ->
   forall value value2 value' value2' s,
     decode code value value2 s = decode code value' value2' s) /\
  (existsb (Z.eqb code) three_byte_opcodes = false ->
   forall value value2 value2' s,
     decode code value value2 s = decode code value value2' s).
Proof.
  unfold decode.
  destruct code as [|p|p]; [split; reflexivity | | split; reflexivity].
  explore p ltac:(split; intros H; first [reflexivity | discriminate H]).
Qed.

Lemma parse_opcode_PC_independent (code pc : Z) (s : CPU) :
  parse_opcode code (set_PC pc s)
  = option_map (fun r => (fst r, set_PC pc (snd r))) (parse_opcode code s).
Proof.
  unfold parse_opcode, decode.
  destruct code as [|p|p]; [reflexivity | | reflexivity].
  explore p ltac:(
    unfold LD_from, ADD_addr, ADDC_addr, SUB_addr, SUBC_addr, AND_addr,
      OR_addr, XOR_addr, CP_addr, INC_addr, DEC_addr, POP; simpl;
    case_goal_reads; reflexivity).
Qed.

(** C1. The length of an instruction (1, 2 or 3 bytes) is determined by
    the opcode alone and is what [parse_opcode] returns: 3 for the seven
    opcodes with a 16-bit operand, 2 for the fifteen with an 8-bit operand,
    1 for every other argument, among them 0xE0 and 0xF0, whose cases use
    the operand byte all the same.  A 16-bit immediate operand is formed
    low byte first from the two operand bytes ([value], then [value2]).
    The operand bytes are the constant 200 of [parse_opcode]: an immediate
    load leaves 200 in its register whatever the memory holds, and the
    result of [parse_opcode] is the same from every PC.  [parse_opcode]
    leaves PC unchanged, and so does any number of iterations of the run
    loop while interrupts are disabled. *)
Theorem opcode_length_and_operands :
  (forall code, exists n, (n = 1 \/ n = 2 \/ n = 3) /\
     forall value value2 s, snd (decode code value value2 s) = n) /\
  (forall code s n s', parse_opcode code s = Some (n, s') ->
     n = snd (decode code 200 200 s) /\ reg_PC s' = reg_PC s) /\
  (forall n e e', steps n e = Some e' ->
     interrupt_master_enable (cpu e) = false ->
     reg_PC (cpu e') = reg_PC (cpu e)) /\
  (forall value value2 s, is_byte value -> is_byte value2 ->
     address value2 value = 256 * value2 + value /\
     option_map (fun s' => (reg_B s', reg_C s')) (fst (decode 0x01 value value2 s))
       = Some (value2, value) /\
     option_map (fun s' => (reg_D s', reg_E s')) (fst (decode 0x11 value value2 s))
       = Some (value2, value) /\
     option_map (fun s' => (reg_H s', reg_L s')) (fst (decode 0x21 value value2 s))
       = Some (value2, value) /\
     option_map reg_SP (fst (decode 0x31 value value2 s))
       = Some (256 * value2 + value) /\
     fst (decode 0xFA value value2 s) = LD_from rA (256 * value2 + value) s /\
     fst (decode 0xEA value value2 s)
       = Some (LD_to (256 * value2 + value) (reg_A s) s) /\
     fst (decode 0x08 value value2 s)
       = Some (LD_to16 (256 * value2 + value) (reg_SP s) s)) /\
  (* the length table *)
  (forall code value value2 s,
     snd (decode code value value2 s) = opcode_length code) /\
  (forall code s n s', parse_opcode code s = Some (n, s') ->
     n = opcode_length code) /\
  (* which cases use the operand bytes *)
  (forall code, existsb (Z.eqb code) operand_opcodes = false ->
     opcode_length code = 1 /\
     forall value value2 value' value2' s,
       decode code value value2 s = decode code value' value2' s) /\
  (forall code, existsb (Z.eqb code) three_byte_opcodes = false ->
     forall value value2 value2' s,
       decode code value value2 s = decode code value value2' s) /\
  (forall value value2 s,
     decode 0xE0 value value2 s
     = (Some (set_memory (write (memory s) (to_word (0xFF00 + value)) (reg_A s)) s),
        1) /\
     decode 0xF0 value value2 s
     = ((v ← read (memory s) (to_word (0xFF00 + value)); Some (LD rA v s)), 1)) /\
  (forall value value2 s,
     option_map reg_B (fst (decode 0x06 value value2 s)) = Some (value mod 256) /\
     option_map reg_C (fst (decode 0x0E value value2 s)) = Some (value mod 256) /\
     option_map reg_D (fst (decode 0x16 value value2 s)) = Some (value mod 256) /\
     option_map reg_E (fst (decode 0x1E value value2 s)) = Some (value mod 256) /\
     option_map reg_H (fst (decode 0x26 value value2 s)) = Some (value mod 256) /\
     option_map reg_L (fst (decode 0x2E value value2 s)) = Some (value mod 256)) /\
  (* the operand bytes of parse_opcode are the constant 200 *)
  (forall code s,
     parse_opcode code s
     = (let '(r, n) := decode code 200 200 (set_reg rL 5 (set_reg rH 0 s)) in
        s' ← r; Some (n, s'))) /\
  (forall s,
     option_map (fun r => reg_B (snd r)) (parse_opcode 0x06 s) = Some 200 /\
     option_map (fun r => reg_C (snd r)) (parse_opcode 0x0E s) = Some 200 /\
     option_map (fun r => reg_D (snd r)) (parse_opcode 0x16 s) = Some 200 /\
     option_map (fun r => reg_E (snd r)) (parse_opcode 0x1E s) = Some 200 /\
     option_map (fun r => reg_H (snd r)) (parse_opcode 0x26 s) = Some 200 /\
     option_map (fun r => reg_L (snd r)) (parse_opcode 0x2E s) = Some 200 /\
     option_map (fun r => (reg_B (snd r), reg_C (snd r))) (parse_opcode 0x01 s)
       = Some (200, 200) /\
     option_map (fun r => (reg_D (snd r), reg_E (snd r))) (parse_opcode 0x11 s)
       = Some (200, 200) /\
     option_map (fun r => (reg_H (snd r), reg_L (snd r))) (parse_opcode 0x21 s)
       = Some (200, 200) /\
     option_map (fun r => reg_SP (snd r)) (parse_opcode 0x31 s) = Some 0xC8C8 /\
     option_map (fun r => reg_A (snd r)) (parse_opcode 0xC6 s)
       = Some ((reg_A s + 200) mod 256)) /\
  (forall code pc s,
     parse_opcode code (set_PC pc s)
     = option_map (fun r => (fst r, set_PC pc (snd r))) (parse_opcode code s)).
Proof.
  split; [exact decode_length|].
  split.
  { intros code s n s' H. apply parse_opcode_frame in H as (Hn & Hpc & _).
    now split. }
  split; [exact steps_PC|].
  split.
  { intros value value2 s Hv Hv2.
    assert (Ha := address_bytes value2 value Hv2 Hv).
    assert (Hb : to_byte value = value) by (apply Z.mod_small; exact Hv).
    assert (Hb2 : to_byte value2 = value2) by (apply Z.mod_small; exact Hv2).
    split; [exact Ha|].
    cbn [decode fst option_map LD_pair LD_SP set_reg set_SP reg_B reg_C reg_D
         reg_E reg_H reg_L reg_SP].
    rewrite Ha, Hb, Hb2. repeat split; reflexivity. }
  split; [exact decode_opcode_length|].
  split.
  { intros code s n s' H. apply parse_opcode_frame in H as (Hn & _).
    rewrite Hn. apply decode_opcode_length. }
  split.
  { intros code H. split.
    - unfold operand_opcodes in H. rewrite !existsb_app, !orb_false_iff in H.
      destruct H as (H2 & H3 & _). unfold opcode_length. now rewrite H3, H2.
    - now apply decode_without_operand. }
  split; [intros code H; now apply decode_without_operand|].
  split; [intros value value2 s; split; reflexivity|].
  split; [intros value value2 s; repeat split; reflexivity|].
  split; [reflexivity|].
  split; [intros s; repeat split; reflexivity|].
  intros code pc s. apply parse_opcode_PC_independent.
Qed.

Lemma opcode_length_and_operands_witness :
  reg_PC (cpu (default emulator_LD_B (steps 3 emulator_LD_B)))
  = reg_PC (cpu emulator_LD_B) /\
  option_map (fun r => reg_B (snd r)) (parse_opcode 0x06 (cpu emulator_LD_B))
  = Some 200.
Proof.
  destruct opcode_length_and_operands
    as (_ & _ & H & _ & _ & _ & _ & _ & _ & _ & _ & H200 & _).
  split.
  - apply (H 3%nat); vm_compute; reflexivity.
  - apply (H200 (cpu emulator_LD_B)).
Defined.

(** C1, as stated, fails: the image holds [LD B,0x0F] at PC = 0; after the
    step B holds the constant 200, not the byte 0x0F stored at PC+1, and PC
    is still 0 although the instruction is 2 bytes long. *)
Lemma step_neither_fetches_operand_nor_advances_PC :
  read (emem emulator_LD_B) (reg_PC (cpu emulator_LD_B)) = Some 0x06 /\
  read (emem emulator_LD_B) (reg_PC (cpu emulator_LD_B) + 1) = Some 0x0F /\
  snd (decode 0x06 200 200 (cpu emulator_LD_B)) = 2 /\
  option_map (fun e => (reg_B (cpu e), reg_PC (cpu e))) (step emulator_LD_B)
  = Some (200, 0).
Proof. repeat split; vm_compute; reflexivity. Qed.

Lemma hl_reads_cell_5 (code : Z) (s : CPU) :
  In code hl_reads ->
  parse_opcode code s
  = (v ← read (memory s) 0x0005;
     s' ← hl_read_case code v (set_reg rL 5 (set_reg rH 0 s));
     Some (1, s')).
Proof.
  unfold hl_reads. intros H.
  repeat (destruct H as [<-|H];
          [ unfold parse_opcode; cbn [decode hl_read_case];
            unfold LD_from, ADD_addr, ADDC_addr, SUB_addr, SUBC_addr, AND_addr,
              OR_addr, XOR_addr, CP_addr, INC_addr, DEC_addr;
            cbn [memory set_reg reg_H reg_L];
            change (address 0 5) with 5;
            destruct (read (memory s) 5); reflexivity | ]).
  destruct H.
Qed.

Lemma hl_read_case_defined (code v : Z) (s : CPU) :
  In code hl_reads -> exists s', hl_read_case code v s = Some s'.
Proof.
  unfold hl_reads. intros H.
  repeat (destruct H as [<-|H]; [cbn [hl_read_case]; eexists; reflexivity|]).
  destruct H.
Qed.

Lemma hl_stores_cell_5 (code : Z) (s : CPU) :
  In code hl_stores ->
  exists n s',
    parse_opcode code s = Some (n, s') /\
    memory s'
    = write (memory s) 0x0005
        (hl_store_value code 200 (set_reg rL 5 (set_reg rH 0 s))) /\
    memory s' = memory s.
Proof.
  unfold hl_stores. intros H.
  repeat (destruct H as [<-|H];
          [ eexists; eexists; split; [reflexivity|]; split; reflexivity | ]).
  destruct H.
Qed.

(** C10. Every call of [parse_opcode] assigns H = 0x00 and L = 0x05 before
    the switch: the result does not depend on the H and L the state came
    with; the address [address(reg_H, reg_L)] the switch computes is 0x0005.
    An (HL)-indirect instruction that reads its operand reads the byte at
    0x0005 and works on it: a load leaves that byte in its register, an
    ALU instruction combines it with A, and the instruction has no defined
    result exactly when 0x0005 lies outside the loaded image.  An
    (HL)-indirect store addresses 0x0005, which is cartridge ROM, so the
    memory is as it was.  No other memory cell has an influence.  After
    the call H is 0 unless the opcode's own case assigns H, and L is 5
    unless it assigns L. *)
Theorem parse_opcode_overwrites_HL :
  (forall code h l s,
     parse_opcode code (set_reg rH h (set_reg rL l s)) = parse_opcode code s) /\
  (forall code s,
     let s0 := set_reg rL 0x05 (set_reg rH 0x00 s) in
     address (reg_H s0) (reg_L s0) = 0x0005 /\
     parse_opcode code s
     = (let '(r, n) := decode code 200 200 s0 in s' ← r; Some (n, s'))) /\
  Forall (fun code => forall s m',
            read m' 0x0005 = read (memory s) 0x0005 ->
            (forall n s', parse_opcode code s = Some (n, s') ->
                          memory s' = memory s) /\
            option_map (fun r => registers (snd r))
              (parse_opcode code (set_memory m' s))
            = option_map (fun r => registers (snd r)) (parse_opcode code s))
         hl_indirect /\
  (forall code s n s', parse_opcode code s = Some (n, s') ->
     (existsb (Z.eqb code) writes_H = false -> reg_H s' = 0x00) /\
     (existsb (Z.eqb code) writes_L = false -> reg_L s' = 0x05)) /\
  (* the reading cases read the byte at 0x0005 *)
  (forall code s, In code hl_reads ->
     parse_opcode code s
     = (v ← read (memory s) 0x0005;
        s' ← hl_read_case code v (set_reg rL 5 (set_reg rH 0 s));
        Some (1, s'))) /\
  (forall code s, In code hl_reads ->
     (parse_opcode code s = None <-> read (memory s) 0x0005 = None)) /\
  (forall s,
     option_map (fun r => reg_A (snd r)) (parse_opcode 0x7E s)
       = read (memory s) 0x0005 /\
     option_map (fun r => reg_B (snd r)) (parse_opcode 0x46 s)
       = read (memory s) 0x0005 /\
     option_map (fun r => reg_C (snd r)) (parse_opcode 0x4E s)
       = read (memory s) 0x0005 /\
     option_map (fun r => reg_D (snd r)) (parse_opcode 0x56 s)
       = read (memory s) 0x0005 /\
     option_map (fun r => reg_E (snd r)) (parse_opcode 0x5E s)
       = read (memory s) 0x0005 /\
     option_map (fun r => reg_H (snd r)) (parse_opcode 0x66 s)
       = read (memory s) 0x0005 /\
     option_map (fun r => reg_L (snd r)) (parse_opcode 0x6E s)
       = read (memory s) 0x0005 /\
     option_map (fun r => reg_A (snd r)) (parse_opcode 0x3A s)
       = read (memory s) 0x0005 /\
     option_map (fun r => reg_A (snd r)) (parse_opcode 0x2A s)
       = read (memory s) 0x0005) /\
  (* the storing cases address 0x0005 *)
  (forall code s, In code hl_stores ->
     exists n s',
       parse_opcode code s = Some (n, s') /\
       memory s'
       = write (memory s) 0x0005
           (hl_store_value code 200 (set_reg rL 5 (set_reg rH 0 s))) /\
       memory s' = memory s) /\
  (forall code, In code hl_indirect <-> In code hl_reads \/ In code hl_stores).
Proof.
  split; [exact parse_opcode_ignores_HL|].
  split; [intros code s s0; split; reflexivity|].
  split; [exact hl_indirect_only_cell_5|].
  split; [intros code s n s'; apply parse_opcode_HL_after|].
  split; [intros code s H; now apply hl_reads_cell_5|].
  split.
  { intros code s H. rewrite (hl_reads_cell_5 code s H).
    destruct (read (memory s) 5) as [v|]; cbn [mbind option_bind].
    - destruct (hl_read_case_defined code v (set_reg rL 5 (set_reg rH 0 s)) H)
        as [s' ->].
      cbn [mbind option_bind]. split; discriminate.
    - split; reflexivity. }
  split.
  { intros s.
    rewrite !hl_reads_cell_5 by (unfold hl_reads; simpl; tauto).
    destruct (read (memory s) 5); repeat split; reflexivity. }
  split; [intros code s H; now apply hl_stores_cell_5|].
  intros code. unfold hl_indirect, hl_reads, hl_stores. simpl. split.
  - intros H. repeat (destruct H as [<-|H]; [tauto|]). destruct H.
  - intros [H|H]; repeat (destruct H as [<-|H]; [tauto|]); destruct H.
Qed.

Lemma parse_opcode_overwrites_HL_witness :
  read (memory cpu_hl_example)
    (address (reg_H cpu_hl_example) (reg_L cpu_hl_example)) = Some 0x77 /\
  read (memory cpu_hl_example) 0x0005 = Some 0x5A /\
  option_map (fun r => reg_A (snd r)) (parse_opcode 0x7E cpu_hl_example)
  = Some 0x5A.
Proof.
  destruct parse_opcode_overwrites_HL as (_ & _ & _ & _ & _ & _ & H & _).
  destruct (H cpu_hl_example) as (HA & _).
  split; [vm_compute; reflexivity|]. split; [vm_compute; reflexivity|].
  rewrite HA. vm_compute. reflexivity.
Defined.

(** ** Reading back what was written *)

Lemma read_write_same (m : Memory) (a v : Z) :
  wf_memory m -> is_word a -> stored a ->
  read (write m a v) a = Some (to_byte v).
Proof.
  intros [H1 H2 H3 H4 H5] Ha Hs. unfold is_word in Ha. unfold stored in Hs.
  rewrite write_region, read_region by assumption.
  unfold region_of. range_cases; simpl; apply lookup_insert_Z; lia.
Qed.

Lemma read_write_other (m : Memory) (a b v : Z) :
  is_word a -> is_word b -> region_of a <> region_of b ->
  read (write m a v) b = read m b.
Proof.
  intros Ha Hb. unfold is_word in Ha, Hb.
  rewrite write_region, !read_region by assumption.
  unfold region_of. range_cases; simpl; intros Hne; try reflexivity.
  all: apply lookup_insert_Z_ne; try lia; intros Heq; apply Hne; f_equal; lia.
Qed.

Lemma to_word_small (a : Z) : is_word a -> to_word a = a.
Proof. intros Ha. apply Z.mod_small. exact Ha. Qed.

Lemma to_word_range (a : Z) : is_word (to_word a).
Proof. unfold is_word, to_word. apply Z.mod_pos_bound. lia. Qed.

Lemma to_word_pred_succ (a : Z) :
  is_word a -> to_word (to_word (a - 1) + 1) = a.
Proof.
  intros Ha. unfold to_word. rewrite Zplus_mod_idemp_l.
  replace (a - 1 + 1) with a by lia. apply Z.mod_small. exact Ha.
Qed.

Lemma to_word_pred_pred (a : Z) :
  to_word (to_word (a - 1) - 1) = to_word (a - 2).
Proof.
  unfold to_word. rewrite Zminus_mod_idemp_l. f_equal. lia.
Qed.

Lemma region_of_succ (a : Z) :
  is_word a -> stored a -> region_of a <> region_of (to_word (a + 1)).
Proof.
  intros Ha Hs. unfold is_word in Ha. unfold stored in Hs.
  destruct (Z.eq_dec a 65535) as [->|Hne]; [vm_compute; discriminate|].
  rewrite to_word_small by (unfold is_word; lia).
  unfold region_of. range_cases; intros Heq; inversion Heq; lia.
Qed.

(** ** PUSH then POP *)

Lemma PUSH_POP (hi lo : Z) (rh rl : Reg) (s : CPU) :
  wf_memory (memory s) -> is_word (reg_SP s) ->
  stored (to_word (reg_SP s - 1)) -> stored (to_word (reg_SP s - 2)) ->
  rh <> rl ->
  exists s2, POP rh rl (PUSH hi lo s) = Some s2 /\
    get_reg rh s2 = to_byte hi /\ get_reg rl s2 = to_byte lo /\
    reg_SP s2 = reg_SP s /\ memory s2 = memory (PUSH hi lo s).
Proof.
  intros Hwf Hsp Hs1 Hs2 Hne.
  set (a1 := to_word (reg_SP s - 1)) in *.
  set (a2 := to_word (a1 - 1)).
  assert (Ha2 : a2 = to_word (reg_SP s - 2)) by apply to_word_pred_pred.
  rewrite <- Ha2 in Hs2.
  assert (Hw1 : is_word a1) by apply to_word_range.
  assert (Hw2 : is_word a2) by apply to_word_range.
  assert (Hnext : to_word (a2 + 1) = a1) by (apply to_word_pred_succ; exact Hw1).
  set (m1 := write (memory s) a1 hi).
  assert (Hr1 : read (write m1 a2 lo) a2 = Some (to_byte lo)).
  { apply read_write_same; [unfold m1; auto with wf | assumption..]. }
  assert (Hr2 : read (write m1 a2 lo) a1 = Some (to_byte hi)).
  { rewrite read_write_other; [apply read_write_same; assumption | assumption..|].
    rewrite <- Hnext. apply region_of_succ; assumption. }
  unfold POP, PUSH. cbv zeta.
  cbn [reg_SP memory set_SP set_memory set_reg].
  fold a1. fold a2. fold m1.
  rewrite Hr1. cbn [mbind option_bind]. rewrite Hnext, Hr2.
  cbn [mbind option_bind]. eexists. split; [reflexivity|].
  split; [destruct rh; reflexivity|].
  split; [destruct rh, rl; try reflexivity; contradiction|].
  split; [|reflexivity].
  cbn [reg_SP set_reg set_SP]. subst a1. now apply to_word_pred_succ.
Qed.

Lemma byte_small (v : Z) : is_byte v -> to_byte v = v.
Proof. intros Hv. apply Z.mod_small. exact Hv. Qed.

Lemma push_pop_pair (push pop : Z) (rh rl : Reg) (s : CPU) :
  (forall s, parse_opcode push s
     = Some (1, PUSH (get_reg rh (set_reg rL 5 (set_reg rH 0 s)))
                     (get_reg rl (set_reg rL 5 (set_reg rH 0 s)))
                     (set_reg rL 5 (set_reg rH 0 s)))) ->
  (forall s, parse_opcode pop s
     = (s' ← POP rh rl (set_reg rL 5 (set_reg rH 0 s)); Some (1, s'))) ->
  rh <> rl ->
  wf_cpu s -> stored (to_word (reg_SP s - 1)) -> stored (to_word (reg_SP s - 2)) ->
  exists s2, push_pop push pop s = Some s2 /\
    get_reg rh s2 = get_reg rh (set_reg rL 5 (set_reg rH 0 s)) /\
    get_reg rl s2 = get_reg rl (set_reg rL 5 (set_reg rH 0 s)) /\
    reg_SP s2 = reg_SP s.
Proof.
  intros Hpush Hpop Hne Hwf Hs1 Hs2.
  unfold push_pop. rewrite Hpush. cbn [mbind option_bind]. rewrite Hpop.
  set (s0 := set_reg rL 5 (set_reg rH 0 s)).
  set (hi := get_reg rh s0). set (lo := get_reg rl s0).
  assert (Hhi : is_byte hi).
  { subst hi s0. destruct Hwf. destruct rh; cbn; try assumption;
      unfold is_byte; lia. }
  assert (Hlo : is_byte lo).
  { subst lo s0. destruct Hwf. destruct rl; cbn; try assumption;
      unfold is_byte; lia. }
  replace (set_reg rL 5 (set_reg rH 0 (PUSH hi lo s0))) with (PUSH hi lo s0)
    by reflexivity.
  destruct (PUSH_POP hi lo rh rl s0 (wf_mem s Hwf) (wf_SP s Hwf) Hs1 Hs2 Hne)
    as (s2 & Hpp & Hh & Hl & Hsp & _).
  rewrite Hpp. cbn [mbind option_bind]. exists s2.
  rewrite Hh, Hl, !byte_small by assumption. auto.
Qed.

(** C5. When both stack bytes, at SP-1 and SP-2, are cells the memory map
    stores, PUSH rr followed by POP rr restores rr and SP for rr in
    {BC, DE}; for AF it restores A and F exactly as they were, without
    clearing the low nibble of F; for HL the pair read back is 0x0005, the
    value [parse_opcode] assigned to it before the PUSH. *)
Theorem push_pop_round_trip (s : CPU) :
  wf_cpu s -> stored (to_word (reg_SP s - 1)) -> stored (to_word (reg_SP s - 2)) ->
  (exists s2, push_pop 0xC5 0xC1 s = Some s2 /\
     reg_B s2 = reg_B s /\ reg_C s2 = reg_C s /\ reg_SP s2 = reg_SP s) /\
  (exists s2, push_pop 0xD5 0xD1 s = Some s2 /\
     reg_D s2 = reg_D s /\ reg_E s2 = reg_E s /\ reg_SP s2 = reg_SP s) /\
  (exists s2, push_pop 0xF5 0xF1 s = Some s2 /\
     reg_A s2 = reg_A s /\ reg_F s2 = reg_F s /\ reg_SP s2 = reg_SP s) /\
  (exists s2, push_pop 0xE5 0xE1 s = Some s2 /\
     reg_H s2 = 0x00 /\ reg_L s2 = 0x05 /\ reg_SP s2 = reg_SP s).
Proof.
  intros Hwf Hs1 Hs2.
  split; [|split; [|split]].
  - apply (push_pop_pair 0xC5 0xC1 rB rC s); try assumption;
      [reflexivity | reflexivity | discriminate].
  - apply (push_pop_pair 0xD5 0xD1 rD rE s); try assumption;
      [reflexivity | reflexivity | discriminate].
  - apply (push_pop_pair 0xF5 0xF1 rA rF s); try assumption;
      [reflexivity | reflexivity | discriminate].
  - apply (push_pop_pair 0xE5 0xE1 rH rL s); try assumption;
      [reflexivity | reflexivity | discriminate].
Qed.

Lemma push_pop_round_trip_witness :
  exists s2, push_pop 0xC5 0xC1 cpu_stack_example = Some s2 /\
    reg_B s2 = 0x12 /\ reg_C s2 = 0x34 /\ reg_SP s2 = 0xFFFE.
Proof.
  apply (push_pop_round_trip cpu_stack_example).
  - constructor; try (unfold is_byte, is_word; cbn; lia).
    constructor; vm_compute; reflexivity.
  - change (stored 0xFFFD). unfold stored. lia.
  - change (stored 0xFFFC). unfold stored. lia.
Defined.

(** C5, as stated, fails in three ways.  With H=0x8A and L=0x5C, PUSH HL
    then POP HL leaves HL = 0x0005.  With F=0xC8, PUSH AF then POP AF
    leaves F=0xC8, not 0xC0.  With SP=0xFF00 the two stack bytes fall in
    the unusable range 0xFEA0-0xFEFF, and PUSH BC then POP BC leaves
    BC = 0x0000 instead of 0x1234. *)
Lemma push_pop_not_restored :
  (reg_H cpu_stack_example = 0x8A /\ reg_L cpu_stack_example = 0x5C /\
   option_map (fun s => (reg_H s, reg_L s)) (push_pop 0xE5 0xE1 cpu_stack_example)
   = Some (0x00, 0x05)) /\
  (reg_F cpu_stack_example = 0xC8 /\
   option_map reg_F (push_pop 0xF5 0xF1 cpu_stack_example) = Some 0xC8 /\
   Z.land 0xC8 0xF0 = 0xC0) /\
  (reg_B cpu_stack_example = 0x12 /\ reg_C cpu_stack_example = 0x34 /\
   option_map (fun s => (reg_B s, reg_C s))
     (push_pop 0xC5 0xC1 (set_SP 0xFF00 cpu_stack_example))
   = Some (0x00, 0x00)).
Proof. repeat split; vm_compute; reflexivity. Qed.

(** ** Memory-mapped registers *)

Lemma reg_set_wf (r v : Z) (m : Memory) :
  wf_memory m -> wf_memory (reg_set r v m).
Proof.
  intros [H1 H2 H3 H4 H5]. constructor; simpl; rewrite ?length_insert; assumption.
Qed.

#[local] Hint Resolve reg_set_wf : wf.

Lemma reg_get_set_same (r v : Z) (m : Memory) :
  wf_memory m -> 0 <= r < 256 -> reg_get r (reg_set r v m) = to_byte v.
Proof.
  intros Hwf Hr. unfold reg_get, reg_set. simpl.
  rewrite lookup_insert_Z; [reflexivity|]. rewrite (wf_ZRAM m Hwf). lia.
Qed.

Lemma reg_get_set_other (r r' v : Z) (m : Memory) :
  0 <= r -> 0 <= r' -> r <> r' -> reg_get r (reg_set r' v m) = reg_get r m.
Proof.
  intros Hr Hr' Hne. unfold reg_get, reg_set. simpl.
  now rewrite lookup_insert_Z_ne by auto.
Qed.

Lemma reg_get_write (r a v : Z) (m : Memory) :
  is_word a -> 0 <= r < 256 -> a <> 0xFF00 + r ->
  reg_get r (write m a v) = reg_get r m.
Proof.
  intros Ha Hr Hne. unfold is_word in Ha.
  rewrite write_region by assumption.
  unfold region_of, reg_get. range_cases; simpl; try reflexivity.
  now rewrite lookup_insert_Z_ne by lia.
Qed.

Lemma testbit_clear_bit (x i j : Z) :
  0 <= i -> 0 <= j < 8 ->
  Z.testbit (clear_bit x i) j = Z.testbit x j && negb (i =? j).
Proof.
  intros Hi Hj. unfold clear_bit.
  rewrite testbit_to_byte, Z.land_spec, Z.lnot_spec, Z.shiftl_1_l by lia.
  now rewrite Z.pow2_bits_eqb by lia.
Qed.

(** ** Interrupt dispatch *)

Lemma do_interrupt_bit_skip (e : Emulator) (j : Z) :
  Z.testbit (reg_get IF (emem e)) j && Z.testbit (reg_get IE (emem e)) j = false ->
  do_interrupt_bit e j = e.
Proof.
  unfold do_interrupt_bit, reg_is_bit_set, is_bit_set. intros H.
  destruct (Z.testbit (reg_get IF (emem e)) j); [|reflexivity].
  now destruct (Z.testbit (reg_get IE (emem e)) j).
Qed.

Lemma do_interrupt_bit_service (e : Emulator) (j : Z) :
  Z.testbit (reg_get IF (emem e)) j && Z.testbit (reg_get IE (emem e)) j = true ->
  do_interrupt_bit e j = service_interrupt j e.
Proof.
  unfold do_interrupt_bit, reg_is_bit_set, is_bit_set. intros H.
  apply andb_true_iff in H as [-> ->]. reflexivity.
Qed.

Lemma pending_bit (x y i j : Z) :
  0 <= i -> 0 <= j < 5 ->
  Z.land (Z.land x y) 0x1F = Z.shiftl 1 i ->
  Z.testbit x j && Z.testbit y j = (i =? j).
Proof.
  intros Hi Hj H.
  apply (f_equal (fun z => Z.testbit z j)) in H.
  rewrite !Z.land_spec, Z.shiftl_1_l, Z.pow2_bits_eqb in H by lia.
  rewrite <- H.
  assert (Hm : Z.testbit 0x1F j = true).
  { assert (j = 0 \/ j = 1 \/ j = 2 \/ j = 3 \/ j = 4) as [->|[->|[->|[->| ->]]]]
      by lia; reflexivity. }
  rewrite Hm. now rewrite andb_true_r.
Qed.

Section InterruptDispatch.

(** The state at the step boundary.  The two bytes [service_interrupt]
    pushes go to [SP-1] and [SP-2]; the stack is assumed not to lie on
    the IF and IE registers, which the dispatch loop reads again after a
    push. *)
Variable e : Emulator.
Hypothesis Hwf : wf_memory (emem e).
Hypothesis Hstack_IF :
  to_word (reg_SP (cpu e) - 1) <> 0xFF0F /\ to_word (reg_SP (cpu e) - 2) <> 0xFF0F.
Hypothesis Hstack_IE :
  to_word (reg_SP (cpu e) - 1) <> 0xFFFF /\ to_word (reg_SP (cpu e) - 2) <> 0xFFFF.

Lemma service_interrupt_emem (i : Z) :
  emem (service_interrupt i e)
  = write (write (reg_clear_bit IF i (emem e))
             (to_word (reg_SP (cpu e) - 1)) (high_byte (reg_PC (cpu e))))
      (to_word (reg_SP (cpu e) - 2)) (low_byte (reg_PC (cpu e))).
Proof.
  rewrite <- to_word_pred_pred.
  unfold service_interrupt. cbv zeta. repeat case_match; reflexivity.
Qed.

Lemma service_interrupt_cpu (i : Z) :
  interrupt_master_enable (cpu (service_interrupt i e)) = false /\
  reg_SP (cpu (service_interrupt i e)) = to_word (reg_SP (cpu e) - 2).
Proof.
  unfold service_interrupt. cbv zeta.
  repeat case_match; (split; [reflexivity | apply to_word_pred_pred]).
Qed.

Lemma service_interrupt_IF (i : Z) :
  reg_get IF (emem (service_interrupt i e)) = clear_bit (reg_get IF (emem e)) i.
Proof.
  destruct Hstack_IF as [H1 H2]. rewrite service_interrupt_emem.
  rewrite !reg_get_write; try apply to_word_range; try (unfold IF; lia);
    try assumption.
  unfold reg_clear_bit.
  rewrite reg_get_set_same by (assumption || (unfold IF; lia)).
  unfold clear_bit, to_byte. now rewrite Z.mod_mod by lia.
Qed.

Lemma service_interrupt_IE (i : Z) :
  reg_get IE (emem (service_interrupt i e)) = reg_get IE (emem e).
Proof.
  destruct Hstack_IE as [H1 H2]. rewrite service_interrupt_emem.
  rewrite !reg_get_write; try apply to_word_range; try (unfold IE; lia);
    try assumption.
  unfold reg_clear_bit. apply reg_get_set_other; unfold IE, IF; lia.
Qed.

(** Interrupts are enabled, and [i] is the one interrupt both requested
    and enabled. *)
Hypothesis Hime : interrupt_master_enable (cpu e) = true.
Hypothesis Hif : is_byte (reg_get IF (emem e)).

Lemma pending_before (i j : Z) :
  only_pending e i -> 0 <= i < 5 -> 0 <= j < 5 ->
  Z.testbit (reg_get IF (emem e)) j && Z.testbit (reg_get IE (emem e)) j
  = (i =? j).
Proof. intros Hp Hi Hj. apply pending_bit; [lia | exact Hj | exact Hp]. Qed.

Lemma pending_after (i j : Z) :
  only_pending e i -> 0 <= i < 5 -> 0 <= j < 5 -> i <> j ->
  Z.testbit (reg_get IF (emem (service_interrupt i e))) j
  && Z.testbit (reg_get IE (emem (service_interrupt i e))) j = false.
Proof.
  intros Hp Hi Hj Hne.
  rewrite service_interrupt_IF, service_interrupt_IE, testbit_clear_bit by lia.
  pose proof (pending_before i j Hp Hi Hj) as Hbit.
  apply Z.eqb_neq in Hne. rewrite Hne in Hbit. rewrite Hne.
  destruct (Z.testbit (reg_get IF (emem e)) j); [|reflexivity].
  cbn [andb negb] in Hbit |- *. exact Hbit.
Qed.

Lemma do_interrupts_only (i : Z) :
  only_pending e i -> 0 <= i < 5 -> do_interrupts e = service_interrupt i e.
Proof.
  intros Hp Hi.
  assert (Hpos : (0 <? reg_get IF (emem e)) = true).
  { apply Z.ltb_lt. destruct (Z.eq_dec (reg_get IF (emem e)) 0) as [H0|H0].
    - pose proof (pending_before i i Hp Hi Hi) as Hbit.
      rewrite H0, Z.bits_0, Z.eqb_refl in Hbit. discriminate.
    - unfold is_byte in Hif. lia. }
  unfold do_interrupts. rewrite Hime, Hpos. cbn [fold_left].
  assert (i = 0 \/ i = 1 \/ i = 2 \/ i = 3 \/ i = 4)
    as [->|[->|[->|[->| ->]]]] by lia.
  all: repeat first
    [ rewrite (do_interrupt_bit_skip e)
        by (rewrite (pending_before _ _ Hp) by lia; reflexivity)
    | rewrite (do_interrupt_bit_service e)
        by (rewrite (pending_before _ _ Hp) by lia; reflexivity)
    | rewrite (do_interrupt_bit_skip (service_interrupt _ e))
        by (apply pending_after; (exact Hp || lia)) ].
  all: reflexivity.
Qed.

(** C2. If IME is true, exactly one interrupt [i] other than Serial is
    both requested and enabled among bits 0..4 of IF and IE, and neither
    pushed byte falls on the IF or IE register, then [do_interrupts]
    services that interrupt: IME is cleared, bit [i] of IF is cleared, PC
    is written high byte at SP-1 then low byte at SP-2, SP is decremented
    by two, and PC becomes the vector 0x40, 0x48, 0x50 or 0x60. *)
Theorem do_interrupts_single (i : Z) :
  Z.land (Z.land (reg_get IF (emem e)) (reg_get IE (emem e))) 0x1F
  = Z.shiftl 1 i ->
  i = 0 \/ i = 1 \/ i = 2 \/ i = 4 ->
  let e' := do_interrupts e in
  e' = service_interrupt i e /\
  interrupt_master_enable (cpu e') = false /\
  reg_get IF (emem e') = clear_bit (reg_get IF (emem e)) i /\
  Z.testbit (reg_get IF (emem e')) i = false /\
  reg_get IE (emem e') = reg_get IE (emem e) /\
  emem e' = write (write (reg_clear_bit IF i (emem e))
                     (to_word (reg_SP (cpu e) - 1)) (high_byte (reg_PC (cpu e))))
              (to_word (reg_SP (cpu e) - 2)) (low_byte (reg_PC (cpu e))) /\
  reg_SP (cpu e') = to_word (reg_SP (cpu e) - 2) /\
  reg_PC (cpu e') = interrupt_vector i.
Proof.
  intros Hp Hi e'.
  assert (He : e' = service_interrupt i e)
    by (apply do_interrupts_only; [exact Hp | lia]).
  rewrite He. split; [reflexivity|].
  split; [apply service_interrupt_cpu|].
  split; [apply service_interrupt_IF|].
  split.
  { rewrite service_interrupt_IF, testbit_clear_bit by lia.
    rewrite Z.eqb_refl. apply andb_false_r. }
  split; [apply service_interrupt_IE|].
  split; [apply service_interrupt_emem|].
  split; [apply service_interrupt_cpu|].
  destruct Hi as [->|[->|[->| ->]]]; reflexivity.
Qed.

End InterruptDispatch.

Lemma do_interrupts_single_witness :
  reg_PC (cpu (do_interrupts (emulator_pending 0x04 0x04 0xFFFE 0x1234))) = 0x50 /\
  reg_SP (cpu (do_interrupts (emulator_pending 0x04 0x04 0xFFFE 0x1234))) = 0xFFFC.
Proof.
  destruct (do_interrupts_single (emulator_pending 0x04 0x04 0xFFFE 0x1234))
    with (i := 2) as (_ & _ & _ & _ & _ & _ & Hsp & Hpc).
  - constructor; vm_compute; reflexivity.
  - vm_compute. split; discriminate.
  - vm_compute. split; discriminate.
  - reflexivity.
  - vm_compute. split; [discriminate | reflexivity].
  - vm_compute. reflexivity.
  - right. right. left. reflexivity.
  - split; [exact Hpc | exact Hsp].
Defined.

(** C2, as stated, fails in three ways.  With V-Blank and LCDC both
    requested and enabled, one call of [do_interrupts] services both: IF
    becomes 0x00, SP drops by four and PC ends at 0x48.  With Serial
    requested and enabled, PC is pushed but keeps its value, since
    [service_interrupt] has no case for Serial.  With SP = 0xFF11 the low
    byte of PC is pushed onto the IF register, and a second interrupt is
    serviced in the same call. *)
Lemma do_interrupts_not_exactly_one :
  (let e' := do_interrupts (emulator_pending 0x03 0x03 0xFFFE 0x1234) in
   reg_get IF (emem e') = 0x00 /\ reg_SP (cpu e') = 0xFFFA /\
   reg_PC (cpu e') = 0x48 /\
   read (emem e') 0xFFFD = Some 0x12 /\ read (emem e') 0xFFFC = Some 0x34 /\
   read (emem e') 0xFFFB = Some 0x00 /\ read (emem e') 0xFFFA = Some 0x40) /\
  (let e' := do_interrupts (emulator_pending 0x08 0x08 0xFFFE 0x1234) in
   reg_get IF (emem e') = 0x00 /\ reg_SP (cpu e') = 0xFFFC /\
   reg_PC (cpu e') = 0x1234 /\ interrupt_vector INTERRUPT_SERIAL = 0x58) /\
  (let e' := do_interrupts (emulator_pending 0x01 0x03 0xFF11 0x0102) in
   reg_get IF (emem e') = 0x00 /\ reg_SP (cpu e') = 0xFF0D /\
   reg_PC (cpu e') = 0x48).
Proof. repeat split; vm_compute; reflexivity. Qed.

(** ** The divider *)

Lemma to_byte_range (z : Z) : is_byte (to_byte z).
Proof. unfold is_byte, to_byte. apply Z.mod_pos_bound. lia. Qed.

Lemma to_int_small (z : Z) : int_range z -> to_int z = z.
Proof.
  unfold int_range, to_int, INT_MIN, INT_MAX. intros H.
  rewrite Z.mod_small; lia.
Qed.

Lemma update_divider_no_tick (cycles : Z) (e : Emulator) :
  int_range (divider_counter e + cycles) ->
  divider_counter e + cycles < 256 ->
  update_divider cycles e = set_divider_counter (divider_counter e + cycles) e.
Proof.
  intros Hi Hc. unfold update_divider. cbv zeta.
  rewrite to_int_small by exact Hi.
  cbn [divider_counter set_divider_counter].
  replace (256 <=? divider_counter e + cycles) with false
    by (symmetry; apply Z.leb_gt; exact Hc).
  reflexivity.
Qed.

Lemma update_divider_wf (cycles : Z) (e : Emulator) :
  wf_memory (emem e) -> wf_memory (emem (update_divider cycles e)).
Proof.
  intros Hwf. unfold update_divider. cbv zeta.
  destruct (256 <=? _); [|exact Hwf].
  apply reg_set_wf. exact Hwf.
Qed.

Lemma update_timers_divider (cycles : Z) (e : Emulator) :
  divider_state (update_timers cycles e) = divider_state (update_divider cycles e).
Proof.
  assert (Hsf : forall x, divider_state (set_timer_frequency x) = divider_state x).
  { intros x. unfold set_timer_frequency. cbv zeta.
    repeat case_match; reflexivity. }
  assert (Hset : forall r v x, 0 <= r -> r <> DIV ->
            divider_state (set_emem (reg_set r v (emem x)) x) = divider_state x).
  { intros r v x Hr Hne. unfold divider_state.
    cbn [divider_counter set_emem set_cpu emem cpu memory set_memory].
    f_equal. apply reg_get_set_other; unfold DIV in *; lia. }
  unfold update_timers. cbv zeta.
  set (e1 := update_divider cycles e).
  set (e2 := if negb (timer_frequency e1 =? get_timer_frequency e1)
             then set_timer_frequency_field (get_timer_frequency e1)
                    (set_timer_frequency e1)
             else e1).
  assert (H2 : divider_state e2 = divider_state e1).
  { subst e2. destruct (negb _); [|reflexivity].
    rewrite <- (Hsf e1). reflexivity. }
  clearbody e2.
  destruct (timer_enabled e2); [|exact H2].
  set (e3 := set_timer_counter (timer_counter e2 - cycles) e2).
  assert (H3 : divider_state e3 = divider_state e1) by exact H2.
  clearbody e3.
  destruct (timer_counter e3 <=? 0); [|exact H3].
  rewrite <- H3, <- (Hsf e3).
  destruct (reg_get TIMA (emem e3) =? 255).
  - unfold request_interrupt, reg_set_bit.
    rewrite !Hset by (unfold IF, TIMA, DIV; lia). reflexivity.
  - rewrite Hset by (unfold TIMA, DIV; lia). reflexivity.
Qed.

Section Divider.

Variable e : Emulator.
Hypothesis Hwf : wf_memory (emem e).

Lemma update_divider_tick (cycles : Z) :
  int_range (divider_counter e + cycles) ->
  256 <= divider_counter e + cycles ->
  divider_state (update_divider cycles e)
  = (0, to_byte (reg_get DIV (emem e) + 1)).
Proof.
  intros Hi Hc. unfold update_divider, divider_state. cbv zeta.
  rewrite to_int_small by exact Hi.
  cbn [divider_counter set_divider_counter].
  replace (256 <=? divider_counter e + cycles) with true
    by (symmetry; apply Z.leb_le; exact Hc).
  cbn [divider_counter set_divider_counter set_emem set_cpu emem cpu memory
       set_memory].
  f_equal. apply reg_get_set_same; [exact Hwf | unfold DIV; lia].
Qed.

Lemma update_divider_ignores_TAC (cycles t : Z) :
  divider_state (update_divider cycles (set_emem (reg_set TAC t (emem e)) e))
  = divider_state (update_divider cycles e).
Proof.
  unfold update_divider, divider_state. cbv zeta.
  cbn [divider_counter set_divider_counter set_emem set_cpu].
  destruct (256 <=? to_int (divider_counter e + cycles)).
  - cbn [divider_counter set_divider_counter set_emem set_cpu emem cpu memory
         set_memory].
    f_equal.
    rewrite !reg_get_set_same
      by (try apply reg_set_wf; assumption || (unfold DIV; lia)).
    now rewrite reg_get_set_other by (unfold TAC, DIV; lia).
  - cbn [divider_counter set_divider_counter emem cpu memory set_memory].
    f_equal. apply reg_get_set_other; unfold TAC, DIV; lia.
Qed.

End Divider.

(** Where the sum is not representable the compiled code wraps: from an
    accumulator and a cycle count that are both [int]s whose sum exceeds
    [INT_MAX], the accumulator becomes negative and DIV does not tick. *)
Lemma update_divider_overflow (cycles : Z) (e : Emulator) :
  int_range (divider_counter e) -> int_range cycles ->
  INT_MAX < divider_counter e + cycles ->
  divider_state (update_divider cycles e)
  = (divider_counter e + cycles - 4294967296, reg_get DIV (emem e)).
Proof.
  unfold int_range, INT_MIN, INT_MAX. intros Hd Hc Ho.
  assert (Hw : to_int (divider_counter e + cycles)
               = divider_counter e + cycles - 4294967296).
  { unfold to_int, INT_MIN.
    rewrite <- (Z.mod_unique (divider_counter e + cycles - -2147483648)
                  4294967296 1
                  (divider_counter e + cycles - 4294967296 + 2147483648)); lia. }
  unfold update_divider, divider_state. cbv zeta. rewrite Hw.
  cbn [divider_counter set_divider_counter].
  replace (256 <=? divider_counter e + cycles - 4294967296) with false
    by (symmetry; apply Z.leb_gt; lia).
  reflexivity.
Qed.

Lemma run_divider_ticks (cycles : list Z) :
  forall (e : Emulator) (ticks : Z),
    wf_memory (emem e) -> is_byte (reg_get DIV (emem e)) ->
    0 <= divider_counter e < 256 -> Forall cycle_count cycles ->
    let r := divider_ticks (divider_counter e) ticks cycles in
    divider_counter (run_divider cycles e) = fst r /\
    reg_get DIV (emem (run_divider cycles e))
    = to_byte (reg_get DIV (emem e) + (snd r - ticks)) /\
    256 * snd r + fst r <= 256 * ticks + divider_counter e + sum_cycles cycles /\
    0 <= fst r < 256.
Proof.
  induction cycles as [|c cs IH]; intros e ticks Hwf Hdiv Hdc Hcs.
  - cbn. replace (ticks - ticks) with 0 by lia. rewrite Z.add_0_r.
    rewrite byte_small by exact Hdiv. repeat split; lia.
  - cbn [divider_ticks run_divider fold_left sum_cycles fold_right].
    fold (run_divider cs (update_divider c e)). fold (sum_cycles cs).
    pose proof (Forall_inv Hcs) as Hc0. pose proof (Forall_inv_tail Hcs) as Hcs'.
    assert (Hi : int_range (divider_counter e + c))
      by (unfold cycle_count, int_range, INT_MIN, INT_MAX in *; lia).
    unfold cycle_count in Hc0.
    destruct (Z.leb_spec 256 (divider_counter e + c)) as [Hc|Hc].
    + pose proof (update_divider_tick e Hwf c Hi Hc) as Ht.
      unfold divider_state in Ht. injection Ht as Hdc' Hd.
      specialize (IH (update_divider c e) (ticks + 1)
                    (update_divider_wf c e Hwf)).
      rewrite Hdc', Hd in IH.
      specialize (IH (to_byte_range _) ltac:(lia) Hcs').
      cbv zeta in IH. destruct IH as (H1 & H2 & H3 & H4).
      split; [exact H1|]. split; [|split; [lia | exact H4]].
      rewrite H2. unfold to_byte. rewrite Zplus_mod_idemp_l. f_equal. lia.
    + rewrite (update_divider_no_tick c e Hi Hc).
      specialize (IH (set_divider_counter (divider_counter e + c) e) ticks Hwf Hdiv).
      cbv zeta in IH. cbn [divider_counter set_divider_counter] in IH.
      specialize (IH ltac:(lia) Hcs').
      destruct IH as (H1 & H2 & H3 & H4).
      split; [exact H1|]. split; [exact H2|split; [lia | exact H4]].
Qed.

(** C7. At each step the accumulator advances by the step's cycle count;
    at a step where it reaches 256 or more, DIV (FF04) increments once,
    modulo 256, and the accumulator is reset to 0, so the cycles beyond 256
    are dropped and a step adds at most one increment.  This holds for
    every step whose sum of accumulator and cycle count is representable
    as an [int].  Over any sequence of cycle counts between 0 and
    [INT_MAX - 255], from an accumulator in 0..255, DIV advances by the
    number of such steps, which is at most one per 256 elapsed cycles, and
    the accumulator stays in 0..255.  TAC is not consulted: the divider is
    the same whatever TAC holds, and [update_timers] always runs it. *)
Theorem divider_resets_accumulator (e : Emulator) :
  wf_memory (emem e) -> is_byte (reg_get DIV (emem e)) ->
  (forall cycles, int_range (divider_counter e + cycles) ->
     divider_counter e + cycles < 256 ->
     divider_state (update_divider cycles e)
     = (divider_counter e + cycles, reg_get DIV (emem e))) /\
  (forall cycles, int_range (divider_counter e + cycles) ->
     256 <= divider_counter e + cycles ->
     divider_state (update_divider cycles e)
     = (0, to_byte (reg_get DIV (emem e) + 1))) /\
  (forall cycles,
     0 <= divider_counter e < 256 -> Forall cycle_count cycles ->
     let r := divider_ticks (divider_counter e) 0 cycles in
     divider_state (run_divider cycles e)
     = (fst r, to_byte (reg_get DIV (emem e) + snd r)) /\
     256 * snd r + fst r <= divider_counter e + sum_cycles cycles /\
     0 <= fst r < 256) /\
  (forall cycles t,
     divider_state (update_divider cycles (set_emem (reg_set TAC t (emem e)) e))
     = divider_state (update_divider cycles e)) /\
  (forall cycles,
     divider_state (update_timers cycles e)
     = divider_state (update_divider cycles e)).
Proof.
  intros Hwf Hdiv.
  split; [intros cycles Hi Hc; now rewrite update_divider_no_tick|].
  split; [intros cycles Hi Hc; now apply update_divider_tick|].
  split.
  { intros cycles Hdc Hcs r.
    destruct (run_divider_ticks cycles e 0 Hwf Hdiv Hdc Hcs) as (H1 & H2 & H3 & H4).
    fold r in H1, H2, H3, H4. unfold divider_state.
    rewrite H1, H2, Z.sub_0_r. split; [reflexivity | split; [lia | exact H4]]. }
  split; [intros cycles t; now apply update_divider_ignores_TAC|].
  intros cycles. apply update_timers_divider.
Qed.

Lemma divider_resets_accumulator_witness :
  divider_state (run_divider [200; 200; 100] (Emulator_init false 0 0 1024 0))
  = (100, 1).
Proof.
  destruct (divider_resets_accumulator (Emulator_init false 0 0 1024 0))
    as (_ & _ & H & _).
  - constructor; vm_compute; reflexivity.
  - vm_compute. split; [discriminate | reflexivity].
  - refine (proj1 (H [200; 200; 100] _ _)).
    + simpl. lia.
    + repeat apply List.Forall_cons; try apply List.Forall_nil;
        unfold cycle_count, INT_MAX; lia.
Defined.

(** C7, as stated, fails.  Two steps of 200 cycles from an empty
    accumulator give one DIV increment and leave the accumulator at 0,
    where decreasing it by 256 would leave 144.  One step of 600 cycles
    gives one increment and an empty accumulator, where one increment
    per 256 cycles would give two and leave 88. *)
Lemma divider_drops_remainder :
  divider_state (run_divider [200; 200] (Emulator_init false 0 0 1024 0)) = (0, 1) /\
  spec_divider 200 (spec_divider 200 (0, 0)) = (144, 1) /\
  divider_state (run_divider [600] (Emulator_init false 0 0 1024 0)) = (0, 1) /\
  spec_divider 600 (0, 0) = (88, 2).
Proof. repeat split; vm_compute; reflexivity. Qed.

(** ** The scanline register *)

Lemma lcd_frame_reg_set (r v : Z) (e : Emulator) :
  0 <= r -> r <> LY -> r <> LCDC ->
  lcd_frame (set_emem (reg_set r v (emem e)) e) = lcd_frame e.
Proof.
  intros Hr H1 H2. unfold lcd_frame.
  cbn [scanline_counter set_emem set_cpu emem cpu memory set_memory].
  now rewrite !reg_get_set_other by (unfold LY, LCDC in *; lia).
Qed.

Lemma lcd_frame_request_interrupt (id : Z) (e : Emulator) :
  lcd_frame (request_interrupt id e) = lcd_frame e.
Proof.
  unfold request_interrupt, reg_set_bit.
  apply lcd_frame_reg_set; unfold IF, LY, LCDC; lia.
Qed.

Lemma request_interrupt_wf (id : Z) (e : Emulator) :
  wf_memory (emem e) -> wf_memory (emem (request_interrupt id e)).
Proof. intros H. apply reg_set_wf. exact H. Qed.

Lemma set_emem_wf (m : Memory) (e : Emulator) :
  wf_memory m -> wf_memory (emem (set_emem m e)).
Proof. intros H. exact H. Qed.

#[local] Hint Resolve request_interrupt_wf set_emem_wf : wf.

Lemma set_lcd_status_enabled (e : Emulator) :
  is_lcd_enabled e = true ->
  lcd_frame (set_lcd_status e) = lcd_frame e /\
  (wf_memory (emem e) -> wf_memory (emem (set_lcd_status e))).
Proof.
  intros Hen. unfold set_lcd_status. cbv zeta. rewrite Hen. cbn [negb].
  split_ifs.
  all: split;
    [ rewrite lcd_frame_reg_set by (unfold STAT, LY, LCDC; lia);
      rewrite ?lcd_frame_request_interrupt; reflexivity
    | intros Hwf; auto with wf ].
Qed.

Lemma lcd_frame_enabled (e e' : Emulator) :
  lcd_frame e' = lcd_frame e -> is_lcd_enabled e' = is_lcd_enabled e.
Proof.
  intros H. unfold is_lcd_enabled, reg_is_bit_set.
  now rewrite (f_equal (fun x => snd (fst x)) H : reg_get LCDC _ = reg_get LCDC _).
Qed.

Lemma emem_set_scanline_counter (v : Z) (e : Emulator) :
  emem (set_scanline_counter v e) = emem e.
Proof. reflexivity. Qed.

Lemma emem_set_emem (m : Memory) (e : Emulator) : emem (set_emem m e) = m.
Proof. reflexivity. Qed.

#[local] Hint Rewrite emem_set_scanline_counter emem_set_emem : emem.

Lemma update_scanline_LY (cycles : Z) (e : Emulator) :
  wf_memory (emem e) -> is_lcd_enabled e = true ->
  reg_get LY (emem (update_scanline cycles e))
  = if scanline_counter e - cycles <=? 0
    then if 153 <? reg_get LY (emem e) then 0
         else to_byte (reg_get LY (emem e) + 1)
    else reg_get LY (emem e).
Proof.
  intros Hwf Hen. unfold update_scanline. cbv zeta.
  destruct (set_lcd_status_enabled e Hen) as [Hf Hwf1].
  specialize (Hwf1 Hwf).
  rewrite (lcd_frame_enabled _ _ Hf), Hen.
  assert (Hly : reg_get LY (emem (set_lcd_status e)) = reg_get LY (emem e))
    by exact (f_equal (fun x => fst (fst x)) Hf).
  assert (Hsc : scanline_counter (set_lcd_status e) = scanline_counter e)
    by exact (f_equal snd Hf).
  set (e1 := set_lcd_status e) in *. clearbody e1.
  cbn [scanline_counter set_scanline_counter].
  rewrite Hsc.
  destruct (scanline_counter e - cycles <=? 0); [|exact Hly].
  rewrite !emem_set_scanline_counter, Hly.
  assert (Hset : reg_get LY (reg_set LY (reg_get LY (emem e) + 1) (emem e1))
                 = to_byte (reg_get LY (emem e) + 1))
    by (apply reg_get_set_same; [exact Hwf1 | unfold LY; lia]).
  destruct (Z.eqb_spec (reg_get LY (emem e)) 144) as [E|E].
  - replace (153 <? reg_get LY (emem e)) with false
      by (symmetry; apply Z.ltb_ge; lia).
    unfold request_interrupt, reg_set_bit.
    rewrite emem_set_emem, reg_get_set_other by (unfold IF, LY; lia).
    rewrite ?emem_set_scanline_counter, ?emem_set_emem. exact Hset.
  - destruct (153 <? reg_get LY (emem e)).
    + rewrite ?emem_set_emem, ?emem_set_scanline_counter, ?emem_set_emem.
      unfold reg_clear. apply reg_get_set_same; [|unfold LY; lia].
      apply reg_set_wf. exact Hwf1.
    + unfold draw_scanline.
      destruct (reg_get LY (emem e) <? 144);
        rewrite ?emem_set_scanline_counter, ?emem_set_emem; exact Hset.
Qed.

(** C6. From the state the constructors give (LCD enabled, LY = 0), 153
    scanline boundaries bring LY to 153, and the next one brings it to 154:
    [update_scanline] tests the value LY had before the increment against
    153, so LY is reset to 0 only at the boundary after that. *)
Theorem LY_reaches_154 (ime : bool) (n dc tc tf : Z) :
  let e0 := Emulator_init ime n dc tc tf in
  is_lcd_enabled e0 = true /\ reg_get LY (emem e0) = 0 /\
  reg_get LY (emem (after_scanlines 153 e0)) = 153 /\
  is_lcd_enabled (after_scanlines 153 e0) = true /\
  reg_get LY (emem (after_scanlines 154 e0)) = 154 /\
  is_lcd_enabled (after_scanlines 154 e0) = true /\
  reg_get LY (emem (after_scanlines 155 e0)) = 0.
Proof. repeat split; vm_compute; reflexivity. Qed.

Lemma update_scanline_at_153 (cycles : Z) (e : Emulator) :
  wf_memory (emem e) -> is_lcd_enabled e = true ->
  reg_get LY (emem e) = 153 -> scanline_counter e - cycles <= 0 ->
  reg_get LY (emem (update_scanline cycles e)) = 154.
Proof.
  intros Hwf Hen Hly Hc. rewrite update_scanline_LY, Hly by assumption.
  replace (scanline_counter e - cycles <=? 0) with true
    by (symmetry; apply Z.leb_le; exact Hc).
  reflexivity.
Qed.

Lemma update_scanline_LY_bound (cycles : Z) (e : Emulator) :
  wf_memory (emem e) -> is_lcd_enabled e = true ->
  0 <= reg_get LY (emem e) <= 154 ->
  0 <= reg_get LY (emem (update_scanline cycles e)) <= 154.
Proof.
  intros Hwf Hen Hly. rewrite update_scanline_LY by assumption.
  destruct (scanline_counter e - cycles <=? 0); [|exact Hly].
  destruct (Z.ltb_spec 153 (reg_get LY (emem e))); [lia|].
  rewrite byte_small by (unfold is_byte; lia). lia.
Qed.

Lemma update_scanline_enabled (cycles : Z) (e : Emulator) :
  wf_memory (emem e) -> is_lcd_enabled e = true ->
  wf_memory (emem (update_scanline cycles e)) /\
  is_lcd_enabled (update_scanline cycles e) = true.
Proof.
  intros Hwf Hen. unfold update_scanline. cbv zeta.
  destruct (set_lcd_status_enabled e Hen) as [Hf Hwf1].
  specialize (Hwf1 Hwf).
  assert (Hen1 : is_lcd_enabled (set_lcd_status e) = true)
    by (now rewrite (lcd_frame_enabled _ _ Hf)).
  rewrite Hen1.
  set (e1 := set_lcd_status e) in *. clearbody e1.
  destruct (scanline_counter _ <=? 0); [|now split].
  unfold request_interrupt, reg_set_bit, reg_clear, draw_scanline.
  split_ifs; split; autorewrite with emem; auto with wf.
  all: unfold is_lcd_enabled, reg_is_bit_set in *; autorewrite with emem;
    rewrite ?reg_get_set_other by (unfold LCDC, LY, IF; lia);
    exact Hen1.
Qed.

Lemma run_scanlines_LY_bound (cycles : list Z) :
  forall e, wf_memory (emem e) -> is_lcd_enabled e = true ->
    0 <= reg_get LY (emem e) <= 154 ->
    0 <= reg_get LY (emem (run_scanlines cycles e)) <= 154.
Proof.
  induction cycles as [|c cs IH]; intros e Hwf Hen Hly; [exact Hly|].
  cbn [run_scanlines fold_left]. fold (run_scanlines cs (update_scanline c e)).
  destruct (update_scanline_enabled c e Hwf Hen) as [Hwf' Hen'].
  apply IH; [exact Hwf' | exact Hen' |].
  now apply update_scanline_LY_bound.
Qed.

(* ================================================================== *)
(** * Further properties of the memory map *)

Lemma cell_read_byte (m : Memory) (c : Cell) (b : Z) :
  bytes_memory m -> cell_read m c = Some b -> is_byte b.
Proof.
  intros [H0 H1 H2 H3 H4 H5].
  destruct c; simpl; intros Hb;
    try (eapply Forall_lookup_1; [|exact Hb]; assumption).
  - inversion Hb. unfold is_byte. lia.
  - discriminate.
Qed.

Lemma read_byte (m : Memory) (a b : Z) :
  bytes_memory m -> read m a = Some b -> is_byte b.
Proof. rewrite read_cell. apply cell_read_byte. Qed.

Lemma cell_write_bytes (m : Memory) (c : Cell) (v : Z) :
  bytes_memory m -> is_byte v -> bytes_memory (cell_write m c v).
Proof.
  intros [H0 H1 H2 H3 H4 H5] Hv.
  destruct c; simpl; try (now constructor);
    constructor; simpl; try assumption; now apply Forall_insert.
Qed.

Lemma write_bytes (m : Memory) (a v : Z) :
  bytes_memory m -> bytes_memory (write m a v).
Proof.
  intros Hm. rewrite write_cell. apply cell_write_bytes; [exact Hm|].
  apply to_byte_range.
Qed.

Lemma write_ROM (m : Memory) (a v : Z) : CART_ROM (write m a v) = CART_ROM m.
Proof. rewrite write_cell. now destruct (cell_of a). Qed.

Lemma lookup_in_range (l : list Z) (i : Z) :
  0 <= i < Z.of_nat (length l) -> exists b, l !! Z.to_nat i = Some b.
Proof.
  intros Hi. destruct (l !! Z.to_nat i) as [b|] eqn:Hb; [now exists b|].
  apply lookup_ge_None_1 in Hb. lia.
Qed.

Lemma read_defined (m : Memory) (a : Z) :
  wf_memory m -> is_word a ->
  (a < 0x8000 -> a < Z.of_nat (length (CART_ROM m))) ->
  exists b, read m a = Some b.
Proof.
  intros [H1 H2 H3 H4 H5] Ha Hrom. unfold is_word in Ha.
  rewrite read_region by assumption.
  unfold region_of. range_cases; simpl;
    try (apply lookup_in_range; lia).
  now exists 0.
Qed.

(** X1. An address that is not a stored cell, that is the cartridge range
    0x0000-0x7FFF or the unusable range 0xFEA0-0xFEFF, cannot be written:
    [write] returns the memory unchanged, so every later read of any
    address gives what it gave before.  A read of the unusable range is
    0. *)
Theorem write_outside_stored_cells (m : Memory) (a v : Z) :
  is_word a -> ~ stored a ->
  write m a v = m /\
  (forall b, read (write m a v) b = read m b) /\
  (0xFEA0 <= a -> read m a = Some 0).
Proof.
  intros Ha Hs.
  assert (Hw : write m a v = m).
  { rewrite write_region by assumption. unfold is_word in Ha.
    unfold stored in Hs. unfold region_of. range_cases; reflexivity. }
  split; [exact Hw|]. split; [intros b; now rewrite Hw|].
  intros Hlo. rewrite read_region by assumption. unfold is_word in Ha.
  unfold stored in Hs. unfold region_of. range_cases; reflexivity.
Qed.

Lemma write_outside_stored_cells_witness :
  write Memory_init 0x0150 0x77 = Memory_init /\
  read Memory_init 0xFEA5 = Some 0.
Proof.
  split.
  - apply (write_outside_stored_cells Memory_init 0x0150 0x77);
      unfold is_word, stored; lia.
  - apply (write_outside_stored_cells Memory_init 0xFEA5 0x77);
      unfold is_word, stored; lia.
Defined.

(** X2. Reading back: after a write to a stored cell, a read of the same
    address gives the byte written (the value modulo 256), and a read of
    any other address, the echo partner 0x2000 above or below apart, gives
    what it gave before the write. *)
Theorem read_after_write (m : Memory) (a b v : Z) :
  wf_memory m -> is_word a -> is_word b ->
  (stored a -> read (write m a v) a = Some (to_byte v)) /\
  (b <> a -> b <> a + 0x2000 -> a <> b + 0x2000 ->
   read (write m a v) b = read m b).
Proof.
  intros Hwf Ha Hb. split; [now apply read_write_same|].
  intros H1 H2 H3. unfold is_word in Ha, Hb.
  rewrite write_region, !read_region by assumption.
  unfold region_of. range_cases; simpl; try reflexivity.
  all: apply lookup_insert_Z_ne; lia.
Qed.

Lemma read_after_write_witness :
  read (write Memory_init 0xC010 0x1AB) 0xC010 = Some 0xAB /\
  read (write Memory_init 0xC010 0x1AB) 0xC011 = read Memory_init 0xC011.
Proof.
  destruct (read_after_write Memory_init 0xC010 0xC011 0x1AB) as [Hs Ho];
    [apply Memory_init_wf | unfold is_word; lia | unfold is_word; lia |].
  split.
  - apply Hs. unfold stored. lia.
  - apply Ho; lia.
Defined.

(** X3. A write keeps the memory in shape: the five vectors keep the sizes
    the constructor gave them, every cell still holds a byte, and the
    cartridge image is never modified, whatever the address and the
    value. *)
Theorem write_preserves_shape (m : Memory) (a v : Z) :
  wf_memory m -> bytes_memory m ->
  wf_memory (write m a v) /\ bytes_memory (write m a v) /\
  CART_ROM (write m a v) = CART_ROM m.
Proof.
  intros Hwf Hb. split; [now apply write_wf|].
  split; [now apply write_bytes|apply write_ROM].
Qed.

Lemma forallb_is_byte (l : list Z) :
  forallb (fun z => (0 <=? z) && (z <? 256)) l = true -> Forall is_byte l.
Proof.
  induction l as [|z l IH]; simpl; intros H; constructor.
  - apply andb_true_iff in H as [H _]. unfold is_byte. lia.
  - apply IH. now apply andb_true_iff in H as [_ H].
Qed.

Lemma Memory_init_bytes : bytes_memory Memory_init.
Proof. constructor; apply forallb_is_byte; vm_compute; reflexivity. Qed.

Lemma write_preserves_shape_witness :
  wf_memory (write Memory_init 0x9000 0x300) /\
  CART_ROM (write Memory_init 0x9000 0x300) = [].
Proof.
  destruct (write_preserves_shape Memory_init 0x9000 0x300) as (H1 & _ & H3);
    [apply Memory_init_wf | apply Memory_init_bytes |].
  split; [exact H1 | exact H3].
Defined.

(** X4. With the vector sizes of the constructor, a read of any address
    from 0x8000 to 0xFFFF indexes inside its vector and so has a defined
    result; below 0x8000 this holds exactly for the addresses inside the
    loaded image.  If every cell holds a byte the result is a byte. *)
Theorem read_defined_above_rom (m : Memory) (a : Z) :
  wf_memory m -> is_word a ->
  (0x8000 <= a -> exists b, read m a = Some b) /\
  (a < 0x8000 ->
   ((exists b, read m a = Some b) <-> a < Z.of_nat (length (CART_ROM m)))) /\
  (forall b, bytes_memory m -> read m a = Some b -> is_byte b).
Proof.
  intros Hwf Ha. split; [|split].
  - intros Hlo. apply read_defined; try assumption. lia.
  - intros Hlo. split.
    + intros [b Hb]. unfold is_word in Ha.
      rewrite read_rom in Hb by lia.
      apply lookup_lt_Some in Hb. lia.
    + intros Hlen. apply read_defined; try assumption. intros _. exact Hlen.
  - intros b Hb. now apply read_byte.
Qed.

Lemma read_defined_above_rom_witness :
  exists b, read Memory_init 0xFF40 = Some b.
Proof.
  destruct (read_defined_above_rom Memory_init 0xFF40) as (H & _);
    [apply Memory_init_wf | unfold is_word; lia |].
  apply H. lia.
Defined.

(** X5. A [MemoryRegister] bound to [&ZRAM[r]] and the address
    [0xFF00 + r] are one cell: [get] returns what [read] returns there,
    and [set] has the effect of [write] there. *)
Theorem memory_register_is_cell (m : Memory) (r v : Z) :
  wf_memory m -> 0 <= r < 256 ->
  read m (0xFF00 + r) = Some (reg_get r m) /\
  write m (0xFF00 + r) v = reg_set r v m /\
  read (reg_set r v m) (0xFF00 + r) = Some (to_byte v) /\
  reg_get r (write m (0xFF00 + r) v) = to_byte v.
Proof.
  intros Hwf Hr.
  assert (Ha : is_word (0xFF00 + r)) by (unfold is_word; lia).
  assert (Hreg : region_of (0xFF00 + r) = CZram r).
  { unfold region_of. range_cases. f_equal. lia. }
  assert (Hw : write m (0xFF00 + r) v = reg_set r v m).
  { rewrite write_region, Hreg by assumption. reflexivity. }
  assert (Hg : forall m', wf_memory m' ->
            read m' (0xFF00 + r) = Some (reg_get r m')).
  { intros m' [H1 H2 H3 H4 H5]. rewrite read_region, Hreg by assumption.
    simpl. unfold reg_get.
    destruct (lookup_in_range (ZRAM m') r) as [b ->]; [lia|reflexivity]. }
  split; [now apply Hg|]. split; [exact Hw|].
  split.
  - rewrite Hg by auto with wf. f_equal. now apply reg_get_set_same.
  - rewrite Hw. now apply reg_get_set_same.
Qed.

Lemma memory_register_is_cell_witness :
  read Memory_init 0xFF40 = Some (reg_get LCDC Memory_init) /\
  write Memory_init 0xFF40 0x80 = reg_set LCDC 0x80 Memory_init.
Proof.
  destruct (memory_register_is_cell Memory_init LCDC 0x80) as (H1 & H2 & _);
    [apply Memory_init_wf | unfold LCDC; lia |].
  split; [exact H1 | exact H2].
Defined.
(* ================================================================== *)
(** * Further properties of the CPU helpers and the ALU *)

Lemma all_bytes2_spec (P : Z -> Z -> bool) :
  all_bytes2 P = true ->
  forall a b, is_byte a -> is_byte b -> P a b = true.
Proof.
  intros H a b Ha Hb. unfold is_byte in *.
  apply (all_from_spec (P a) 256 0); [|lia].
  apply (all_from_spec (fun a => all_from (P a) 0 256) 256 0 H). lia.
Qed.

Lemma all_bytes_spec (P : Z -> bool) :
  all_from P 0 256 = true -> forall a, is_byte a -> P a = true.
Proof.
  intros H a Ha. unfold is_byte in Ha. apply (all_from_spec P 256 0 H). lia.
Qed.

Lemma all_words_spec (P : Z -> bool) :
  all_from P 0 (Z.to_nat 65536) = true -> forall a, is_word a -> P a = true.
Proof.
  intros H a Ha. unfold is_word in Ha.
  apply (all_from_spec P (Z.to_nat 65536) 0 H). lia.
Qed.

Lemma pair_halves (high low : Z) :
  is_byte high -> is_byte low ->
  high_reg_pair (address high low) = high /\
  low_reg_pair (address high low) = low.
Proof.
  intros Hh Hl.
  pose proof (all_bytes2_spec
    (fun h l => (high_reg_pair (address h l) =? h)
                && (low_reg_pair (address h l) =? l))) as H.
  specialize (H ltac:(vm_compute; reflexivity) high low Hh Hl).
  apply andb_true_iff in H as [H1 H2]. split; now apply Z.eqb_eq.
Qed.

Lemma halves_pair (w : Z) :
  is_word w -> address (high_reg_pair w) (low_reg_pair w) = w.
Proof.
  intros Hw. apply Z.eqb_eq.
  apply (all_words_spec
    (fun w => address (high_reg_pair w) (low_reg_pair w) =? w)); [|exact Hw].
  vm_compute. reflexivity.
Qed.

Lemma address_word (high low : Z) : is_word (address high low).
Proof. apply to_word_range. Qed.

(** X6. The halves of a 16-bit word and [address] are inverse to each
    other: splitting the word made of two bytes gives the bytes back, and
    joining the two halves of a word gives the word back.  The high byte
    is the word divided by 256, the low byte the remainder. *)
Theorem address_round_trip :
  (forall high low, is_byte high -> is_byte low ->
     high_reg_pair (address high low) = high /\
     low_reg_pair (address high low) = low) /\
  (forall w, is_word w ->
     address (high_reg_pair w) (low_reg_pair w) = w /\
     high_reg_pair w = w / 256 /\ low_reg_pair w = w mod 256 /\
     is_byte (high_reg_pair w) /\ is_byte (low_reg_pair w)).
Proof.
  split; [apply pair_halves|].
  intros w Hw. split; [now apply halves_pair|].
  split; [|split; [reflexivity|split; apply to_byte_range]].
  apply Z.eqb_eq.
  apply (all_words_spec (fun w => high_reg_pair w =? w / 256)); [|exact Hw].
  vm_compute. reflexivity.
Qed.

Lemma address_round_trip_witness :
  high_reg_pair (address 0x12 0x34) = 0x12 /\
  address (high_reg_pair 0xFFFE) (low_reg_pair 0xFFFE) = 0xFFFE.
Proof.
  destruct address_round_trip as [H1 H2]. split.
  - apply (H1 0x12 0x34); unfold is_byte; lia.
  - apply (H2 0xFFFE). unfold is_word. lia.
Defined.

Lemma get_set_reg_same (r : Reg) (v : Z) (s : CPU) :
  get_reg r (set_reg r v s) = v.
Proof. now destruct r. Qed.

Lemma get_set_reg_other (r r' : Reg) (v : Z) (s : CPU) :
  r <> r' -> get_reg r (set_reg r' v s) = get_reg r s.
Proof. destruct r, r'; intros H; try reflexivity; now destruct H. Qed.

Lemma inc_reg_pair_value (rh rl : Reg) (s : CPU) :
  rh <> rl ->
  get_reg rh (inc_reg_pair rh rl s) = high_reg_pair (to_word (reg_pair rh rl s + 1)) /\
  get_reg rl (inc_reg_pair rh rl s) = low_reg_pair (to_word (reg_pair rh rl s + 1)).
Proof.
  intros Hne. unfold inc_reg_pair. cbv zeta.
  rewrite get_set_reg_other, !get_set_reg_same by exact Hne.
  split; reflexivity.
Qed.

Lemma dec_reg_pair_value (rh rl : Reg) (s : CPU) :
  rh <> rl ->
  get_reg rh (dec_reg_pair rh rl s) = high_reg_pair (to_word (reg_pair rh rl s - 1)) /\
  get_reg rl (dec_reg_pair rh rl s) = low_reg_pair (to_word (reg_pair rh rl s - 1)).
Proof.
  intros Hne. unfold dec_reg_pair. cbv zeta.
  rewrite get_set_reg_other, !get_set_reg_same by exact Hne.
  split; reflexivity.
Qed.

Lemma to_word_succ_pred (a : Z) :
  is_word a -> to_word (to_word (a + 1) - 1) = a.
Proof.
  intros Ha. unfold to_word. rewrite Zminus_mod_idemp_l.
  replace (a + 1 - 1) with a by lia. apply Z.mod_small. exact Ha.
Qed.

(** X7. [inc_reg_pair] and [dec_reg_pair] treat two 8-bit registers as one
    16-bit counter: the pair becomes its value plus or minus one modulo
    65536 (0xFFFF + 1 wraps to 0x0000 and 0x0000 - 1 to 0xFFFF), and on
    registers holding bytes each undoes the other. *)
Theorem inc_dec_reg_pair (rh rl : Reg) (s : CPU) :
  rh <> rl -> is_byte (get_reg rh s) -> is_byte (get_reg rl s) ->
  reg_pair rh rl (inc_reg_pair rh rl s) = (reg_pair rh rl s + 1) mod 65536 /\
  reg_pair rh rl (dec_reg_pair rh rl s) = (reg_pair rh rl s - 1) mod 65536 /\
  (get_reg rh (dec_reg_pair rh rl (inc_reg_pair rh rl s)) = get_reg rh s /\
   get_reg rl (dec_reg_pair rh rl (inc_reg_pair rh rl s)) = get_reg rl s) /\
  (get_reg rh (inc_reg_pair rh rl (dec_reg_pair rh rl s)) = get_reg rh s /\
   get_reg rl (inc_reg_pair rh rl (dec_reg_pair rh rl s)) = get_reg rl s).
Proof.
  intros Hne Hh Hl.
  destruct (inc_reg_pair_value rh rl s Hne) as [Ih Il].
  destruct (dec_reg_pair_value rh rl s Hne) as [Dh Dl].
  assert (Hi : reg_pair rh rl (inc_reg_pair rh rl s)
               = to_word (reg_pair rh rl s + 1)).
  { unfold reg_pair at 1. rewrite Ih, Il. apply halves_pair, to_word_range. }
  assert (Hd : reg_pair rh rl (dec_reg_pair rh rl s)
               = to_word (reg_pair rh rl s - 1)).
  { unfold reg_pair at 1. rewrite Dh, Dl. apply halves_pair, to_word_range. }
  assert (Hp : is_word (reg_pair rh rl s)) by apply address_word.
  destruct (pair_halves _ _ Hh Hl) as [Ph Pl].
  split; [exact Hi|]. split; [exact Hd|]. split.
  - destruct (dec_reg_pair_value rh rl (inc_reg_pair rh rl s) Hne) as [-> ->].
    rewrite Hi, to_word_succ_pred by exact Hp. split; assumption.
  - destruct (inc_reg_pair_value rh rl (dec_reg_pair rh rl s) Hne) as [-> ->].
    rewrite Hd, to_word_pred_succ by exact Hp. split; assumption.
Qed.

Lemma inc_dec_reg_pair_witness :
  reg_pair rH rL (inc_reg_pair rH rL (set_reg rH 0xFF (set_reg rL 0xFF cpu_stack_example)))
  = 0 /\
  reg_pair rH rL (dec_reg_pair rH rL (set_reg rH 0 (set_reg rL 0 cpu_stack_example)))
  = 0xFFFF.
Proof.
  split.
  - destruct (inc_dec_reg_pair rH rL
                (set_reg rH 0xFF (set_reg rL 0xFF cpu_stack_example)))
      as (H & _); [discriminate | simpl; unfold is_byte; lia
                   | simpl; unfold is_byte; lia |].
    rewrite H. reflexivity.
  - destruct (inc_dec_reg_pair rH rL
                (set_reg rH 0 (set_reg rL 0 cpu_stack_example)))
      as (_ & H & _); [discriminate | simpl; unfold is_byte; lia
                       | simpl; unfold is_byte; lia |].
    rewrite H. reflexivity.
Defined.

Lemma flag_set_reg (f : Z) (r : Reg) (v : Z) (s : CPU) :
  r <> rF -> flag f (set_reg r v s) = flag f s.
Proof. intros Hr. unfold flag. destruct r; try reflexivity. now destruct Hr. Qed.

Lemma reg_F_set_reg (r : Reg) (v : Z) (s : CPU) :
  r <> rF -> reg_F (set_reg r v s) = reg_F s.
Proof. intros Hr. destruct r; try reflexivity. now destruct Hr. Qed.

Lemma low_nibble_set_flag (k : Z) (b : bool) (x : Z) :
  4 <= k < 8 ->
  Z.land (if b then to_byte (Z.lor x (2 ^ k))
          else to_byte (Z.land x (Z.lnot (2 ^ k)))) 0xF
  = Z.land x 0xF.
Proof.
  intros Hk. apply Z.bits_inj'. intros n Hn.
  rewrite !Z.land_spec. change 0xF with (Z.ones 4).
  destruct (Z_lt_dec n 4) as [Hlt|Hge].
  - rewrite Z.ones_spec_low, !andb_true_r by lia.
    destruct b; rewrite testbit_to_byte by lia.
    + rewrite Z.lor_spec, Z.pow2_bits_false by lia. apply orb_false_r.
    + rewrite Z.land_spec, Z.lnot_spec, Z.pow2_bits_false by lia.
      apply andb_true_r.
  - rewrite Z.ones_spec_high by lia. now rewrite !andb_false_r.
Qed.

(** X8. [set_flag] with a single-bit mask changes that bit of F and no
    other: the flag tested afterwards has the value given, every other
    flag reads as before, F is a byte, the other registers are untouched,
    and for the four flag bits 4 to 7 the low nibble of F is as before. *)
Theorem set_flag_single_bit (k : Z) (b : bool) (s : CPU) :
  0 <= k < 8 ->
  let s' := set_flag (2 ^ k) b s in
  flag (2 ^ k) s' = b /\
  (forall i, 0 <= i < 8 -> i <> k -> flag (2 ^ i) s' = flag (2 ^ i) s) /\
  is_byte (reg_F s') /\
  (forall r, r <> rF -> get_reg r s' = get_reg r s) /\
  (4 <= k -> Z.land (reg_F s') 0xF = Z.land (reg_F s) 0xF).
Proof.
  intros Hk s'. subst s'. split; [|split; [|split; [|split]]].
  - rewrite flag_set_flag by lia. now rewrite Z.eqb_refl.
  - intros i Hi Hne. rewrite flag_set_flag by lia.
    destruct (Z.eqb_spec i k); [contradiction|reflexivity].
  - unfold set_flag. simpl. destruct b; apply to_byte_range.
  - intros r Hr. unfold set_flag. now apply get_set_reg_other.
  - intros Hk4. unfold set_flag. simpl. apply low_nibble_set_flag. lia.
Qed.

Lemma set_flag_single_bit_witness :
  flag FLAG_CARRY (set_flag FLAG_CARRY true cpu_stack_example) = true /\
  flag FLAG_ZERO (set_flag FLAG_CARRY true cpu_stack_example)
  = flag FLAG_ZERO cpu_stack_example.
Proof.
  destruct (set_flag_single_bit 4 true cpu_stack_example) as (H1 & H2 & _);
    [lia|].
  split; [exact H1|]. apply (H2 7); lia.
Defined.
Lemma land_15 (x : Z) : Z.land x 0xF = x mod 16.
Proof. change 0xF with (Z.ones 4). now rewrite Z.land_ones. Qed.

Lemma mod_16_range (x : Z) : 0 <= x mod 16 < 16.
Proof. apply Z.mod_pos_bound. lia. Qed.

Lemma bitops_byte (a b : Z) :
  is_byte a -> is_byte b ->
  to_byte (Z.land a b) = Z.land a b /\ to_byte (Z.lor a b) = Z.lor a b /\
  to_byte (Z.lxor a b) = Z.lxor a b.
Proof.
  intros Ha Hb.
  pose proof (all_bytes2_spec
    (fun a b => (to_byte (Z.land a b) =? Z.land a b)
                && (to_byte (Z.lor a b) =? Z.lor a b)
                && (to_byte (Z.lxor a b) =? Z.lxor a b))) as H.
  specialize (H ltac:(vm_compute; reflexivity) a b Ha Hb).
  apply andb_true_iff in H as [H H3]. apply andb_true_iff in H as [H1 H2].
  repeat split; now apply Z.eqb_eq.
Qed.

Lemma sub_mod_zero (a v : Z) :
  is_byte a -> is_byte v -> ((a - v) mod 256 =? 0) = (a =? v).
Proof.
  intros Ha Hv. unfold is_byte in *.
  destruct (Z.eqb_spec a v) as [->|Hne].
  - now rewrite Z.sub_diag.
  - apply Z.eqb_neq. destruct (Z_lt_dec a v).
    + replace ((a - v) mod 256) with (a - v + 256)
        by (apply (Z.mod_unique _ 256 (-1)); lia). lia.
    + rewrite Z.mod_small; lia.
Qed.

(** X9. SUB and CP on byte operands: A becomes (A - v) mod 256 under SUB
    and is kept by CP; both leave the same F.  Z is set exactly when the
    8-bit result is zero (A = v), N is set, H is set exactly when the low
    nibble of A is below the low nibble of v, and C exactly when A < v. *)
Theorem SUB_CP_flags (v : Z) (s : CPU) :
  is_byte (reg_A s) -> is_byte v ->
  reg_A (SUB rA v s) = (reg_A s - v) mod 256 /\
  flag FLAG_ZERO (SUB rA v s) = (reg_A (SUB rA v s) =? 0) /\
  flag FLAG_ZERO (SUB rA v s) = (reg_A s =? v) /\
  flag FLAG_SUB (SUB rA v s) = true /\
  flag FLAG_HALF_CARRY (SUB rA v s) = (reg_A s mod 16 <? v mod 16) /\
  flag FLAG_CARRY (SUB rA v s) = (reg_A s <? v) /\
  reg_A (CP rA v s) = reg_A s /\
  reg_F (CP rA v s) = reg_F (SUB rA v s).
Proof.
  intros Ha Hv.
  destruct (SUB_A_flags v s) as (Hz & Hn & Hh & Hc).
  assert (HA : reg_A (SUB rA v s) = (reg_A s - v) mod 256) by reflexivity.
  split; [exact HA|]. rewrite HA, Hz, Hn, Hh, Hc, !land_15.
  rewrite sub_mod_zero by assumption.
  pose proof (mod_16_range (reg_A s)). pose proof (mod_16_range v).
  repeat split.
  - destruct (Z.eqb_spec (reg_A s - v) 0), (Z.eqb_spec (reg_A s) v);
      (reflexivity || lia).
  - destruct (Z.eqb_spec (reg_A s - v) 0), (Z.eqb_spec (reg_A s) v);
      (reflexivity || lia).
  - destruct (Z.ltb_spec (reg_A s mod 16 - v mod 16) 0),
      (Z.ltb_spec (reg_A s mod 16) (v mod 16)); (reflexivity || lia).
  - destruct (Z.ltb_spec (reg_A s - v) 0), (Z.ltb_spec (reg_A s) v);
      (reflexivity || lia).
Qed.

Lemma SUB_CP_flags_witness :
  reg_A (SUB rA 0x0F (set_reg rA 0x3E cpu_stack_example)) = 0x2F /\
  flag FLAG_HALF_CARRY (SUB rA 0x0F (set_reg rA 0x3E cpu_stack_example)) = true.
Proof.
  destruct (SUB_CP_flags 0x0F (set_reg rA 0x3E cpu_stack_example))
    as (H1 & _ & _ & _ & H5 & _);
    [simpl; unfold is_byte; lia | unfold is_byte; lia |].
  split; [rewrite H1; reflexivity | rewrite H5; reflexivity].
Defined.

Lemma logic_flags (r : Z) (bh : bool) (s : CPU) :
  let s' := set_flag FLAG_CARRY false (set_flag FLAG_HALF_CARRY bh
              (set_flag FLAG_SUB false
                 (set_flag FLAG_ZERO (reg_A (set_reg rA r s) =? 0)
                    (set_reg rA r s)))) in
  reg_A s' = r /\ flag FLAG_ZERO s' = (r =? 0) /\ flag FLAG_SUB s' = false /\
  flag FLAG_HALF_CARRY s' = bh /\ flag FLAG_CARRY s' = false.
Proof.
  intros s'. split; [reflexivity|].
  exact (flags_after (r =? 0) false bh false (set_reg rA r s)).
Qed.

(** X10. AND, OR and XOR on byte operands: A becomes the bitwise result,
    Z is set exactly when that result is zero, N and C are reset, and H is
    set by AND and reset by OR and XOR.  The overload of XOR that takes
    its operand from memory calls OR: A becomes A | v, not A ^ v. *)
Theorem logic_ops_flags (v : Z) (s : CPU) :
  is_byte (reg_A s) -> is_byte v ->
  (reg_A (AND rA v s) = Z.land (reg_A s) v /\
   flag FLAG_ZERO (AND rA v s) = (Z.land (reg_A s) v =? 0) /\
   flag FLAG_SUB (AND rA v s) = false /\
   flag FLAG_HALF_CARRY (AND rA v s) = true /\
   flag FLAG_CARRY (AND rA v s) = false) /\
  (reg_A (OR rA v s) = Z.lor (reg_A s) v /\
   flag FLAG_ZERO (OR rA v s) = (Z.lor (reg_A s) v =? 0) /\
   flag FLAG_SUB (OR rA v s) = false /\
   flag FLAG_HALF_CARRY (OR rA v s) = false /\
   flag FLAG_CARRY (OR rA v s) = false) /\
  (reg_A (XOR rA v s) = Z.lxor (reg_A s) v /\
   flag FLAG_ZERO (XOR rA v s) = (Z.lxor (reg_A s) v =? 0) /\
   flag FLAG_SUB (XOR rA v s) = false /\
   flag FLAG_HALF_CARRY (XOR rA v s) = false /\
   flag FLAG_CARRY (XOR rA v s) = false) /\
  (forall addr, read (memory s) addr = Some v ->
     option_map reg_A (XOR_addr rA addr s) = Some (Z.lor (reg_A s) v)).
Proof.
  intros Ha Hv. destruct (bitops_byte _ _ Ha Hv) as (Hand & Hor & Hxor).
  split; [|split; [|split]].
  - rewrite <- Hand. apply (logic_flags (to_byte (Z.land (reg_A s) v)) true s).
  - rewrite <- Hor. apply (logic_flags (to_byte (Z.lor (reg_A s) v)) false s).
  - rewrite <- Hxor. apply (logic_flags (to_byte (Z.lxor (reg_A s) v)) false s).
  - intros addr Hr. unfold XOR_addr. rewrite Hr. simpl. f_equal. exact Hor.
Qed.

Lemma logic_ops_flags_witness :
  reg_A (AND rA 0x0F (set_reg rA 0x3C cpu_stack_example)) = 0x0C /\
  option_map reg_A (XOR_addr rA 0xFF47 (set_reg rA 0x0F cpu_stack_example))
  = Some 0xFF.
Proof.
  split.
  - destruct (logic_ops_flags 0x0F (set_reg rA 0x3C cpu_stack_example))
      as ((H & _) & _);
      [simpl; unfold is_byte; lia | unfold is_byte; lia |].
    rewrite H. reflexivity.
  - destruct (logic_ops_flags 0xFC (set_reg rA 0x0F cpu_stack_example))
      as (_ & _ & _ & H);
      [simpl; unfold is_byte; lia | unfold is_byte; lia |].
    rewrite (H 0xFF47); reflexivity.
Defined.

Lemma inc_half_carry (x : Z) :
  is_byte x ->
  negb (Z.land (Z.land x 0xF + 1) 0x10 =? 0) = (x mod 16 =? 15).
Proof.
  intros Hx.
  pose proof (all_bytes_spec
    (fun x => eqb (negb (Z.land (Z.land x 0xF + 1) 0x10 =? 0)) (x mod 16 =? 15)))
    as H.
  specialize (H ltac:(vm_compute; reflexivity) x Hx). now apply eqb_prop in H.
Qed.

Lemma inc_dec_flags (bz bn bh : bool) (s : CPU) :
  let s' := set_flag FLAG_HALF_CARRY bh
              (set_flag FLAG_SUB bn (set_flag FLAG_ZERO bz s)) in
  flag FLAG_ZERO s' = bz /\ flag FLAG_SUB s' = bn /\
  flag FLAG_HALF_CARRY s' = bh /\ flag FLAG_CARRY s' = flag FLAG_CARRY s.
Proof.
  intros s'. subst s'.
  change FLAG_ZERO with (2 ^ 7). change FLAG_SUB with (2 ^ 6).
  change FLAG_HALF_CARRY with (2 ^ 5). change FLAG_CARRY with (2 ^ 4).
  rewrite !flag_set_flag by lia. simpl. auto.
Qed.

Lemma INC_unfold (r : Reg) (s : CPU) :
  INC r s = set_reg r (to_byte (get_reg r s + 1))
              (set_flag FLAG_HALF_CARRY
                 (negb (Z.land (Z.land (get_reg r s) 0xF + 1) 0x10 =? 0))
                 (set_flag FLAG_SUB false
                    (set_flag FLAG_ZERO (get_reg r s + 1 =? 0) s))).
Proof. reflexivity. Qed.

Lemma DEC_unfold (r : Reg) (s : CPU) :
  DEC r s = set_reg r (to_byte (get_reg r s - 1))
              (set_flag FLAG_HALF_CARRY (Z.land (get_reg r s) 0xF - 1 <? 0)
                 (set_flag FLAG_SUB true
                    (set_flag FLAG_ZERO (get_reg r s - 1 =? 0) s))).
Proof. reflexivity. Qed.

(** X11. INC and DEC of a register holding a byte: the register becomes
    its value plus or minus one modulo 256 and the carry flag is not
    touched.  INC resets N, sets H exactly when the low nibble was 0xF,
    and never sets Z, not even when the register wraps from 0xFF to 0x00:
    the comparison with zero is made on the [int] before truncation.  DEC
    sets N, sets H exactly when the low nibble was 0, and sets Z exactly
    when the new value is zero. *)
Theorem INC_DEC_flags (r : Reg) (s : CPU) :
  r <> rF -> is_byte (get_reg r s) ->
  (get_reg r (INC r s) = (get_reg r s + 1) mod 256 /\
   flag FLAG_ZERO (INC r s) = false /\
   flag FLAG_SUB (INC r s) = false /\
   flag FLAG_HALF_CARRY (INC r s) = (get_reg r s mod 16 =? 15) /\
   flag FLAG_CARRY (INC r s) = flag FLAG_CARRY s) /\
  (get_reg r (DEC r s) = (get_reg r s - 1) mod 256 /\
   flag FLAG_ZERO (DEC r s) = (get_reg r (DEC r s) =? 0) /\
   flag FLAG_SUB (DEC r s) = true /\
   flag FLAG_HALF_CARRY (DEC r s) = (get_reg r s mod 16 =? 0) /\
   flag FLAG_CARRY (DEC r s) = flag FLAG_CARRY s).
Proof.
  intros Hr Hx. split.
  - rewrite INC_unfold, get_set_reg_same, !flag_set_reg by exact Hr.
    destruct (inc_dec_flags (get_reg r s + 1 =? 0) false
                (negb (Z.land (Z.land (get_reg r s) 0xF + 1) 0x10 =? 0)) s)
      as (-> & -> & -> & ->).
    rewrite inc_half_carry by exact Hx.
    repeat split. apply Z.eqb_neq. unfold is_byte in Hx. lia.
  - rewrite DEC_unfold, get_set_reg_same, !flag_set_reg by exact Hr.
    destruct (inc_dec_flags (get_reg r s - 1 =? 0) true
                (Z.land (get_reg r s) 0xF - 1 <? 0) s)
      as (-> & -> & -> & ->).
    rewrite land_15. pose proof (mod_16_range (get_reg r s)).
    repeat split.
    + change (to_byte (get_reg r s - 1)) with ((get_reg r s - 1) mod 256).
      rewrite (sub_mod_zero (get_reg r s) 1) by (unfold is_byte in *; lia).
      destruct (Z.eqb_spec (get_reg r s - 1) 0), (Z.eqb_spec (get_reg r s) 1);
        (reflexivity || lia).
    + destruct (Z.ltb_spec (get_reg r s mod 16 - 1) 0),
        (Z.eqb_spec (get_reg r s mod 16) 0); (reflexivity || lia).
Qed.

Lemma INC_DEC_flags_witness :
  get_reg rB (INC rB (set_reg rB 0xFF cpu_stack_example)) = 0x00 /\
  flag FLAG_ZERO (INC rB (set_reg rB 0xFF cpu_stack_example)) = false.
Proof.
  destruct (INC_DEC_flags rB (set_reg rB 0xFF cpu_stack_example))
    as ((H1 & H2 & _) & _); [discriminate | simpl; unfold is_byte; lia |].
  split; [rewrite H1; reflexivity | exact H2].
Defined.

Lemma add_half_carry (a v : Z) :
  is_byte a -> is_byte v ->
  negb (Z.land (Z.land a 0xF + Z.land v 0xF) 0x10 =? 0)
  = (15 <? a mod 16 + v mod 16).
Proof.
  intros Ha Hv.
  pose proof (all_bytes2_spec
    (fun a v => eqb (negb (Z.land (Z.land a 0xF + Z.land v 0xF) 0x10 =? 0))
                    (15 <? a mod 16 + v mod 16))) as H.
  specialize (H ltac:(vm_compute; reflexivity) a v Ha Hv).
  now apply eqb_prop in H.
Qed.

(** X12. ADD and ADC on byte operands: ADD leaves (A + v) mod 256 in A,
    resets N, sets H exactly when the low nibbles add up to more than 15
    and C exactly when A + v exceeds 255.  ADC leaves
    (A + v + carry) mod 256 in A, and its flags are those of ADD on the
    same operands: the carry-in has no effect on F. *)
Theorem ADD_ADC_flags (v : Z) (s : CPU) :
  is_byte (reg_A s) -> is_byte v ->
  reg_A (ADD rA v s) = (reg_A s + v) mod 256 /\
  flag FLAG_SUB (ADD rA v s) = false /\
  flag FLAG_HALF_CARRY (ADD rA v s) = (15 <? reg_A s mod 16 + v mod 16) /\
  flag FLAG_CARRY (ADD rA v s) = (255 <? reg_A s + v) /\
  reg_A (ADDC rA v s) = (reg_A s + v + carry_in s) mod 256 /\
  reg_F (ADDC rA v s) = reg_F (ADD rA v s) /\
  (carry_in s = 0 \/ carry_in s = 1).
Proof.
  intros Ha Hv. destruct (ADD_A_flags v s) as (_ & Hn & Hh & Hc).
  rewrite Hn, Hh, Hc, add_half_carry by assumption.
  split; [reflexivity|]. split; [reflexivity|]. split; [reflexivity|].
  split; [reflexivity|]. split; [|split; [reflexivity|]].
  - change (reg_A (ADDC rA v s))
      with (to_byte (to_byte (reg_A s + v) + carry_in s)).
    unfold to_byte. now rewrite Zplus_mod_idemp_l.
  - unfold carry_in. destruct (Z.land (reg_F s) FLAG_CARRY =? 0); auto.
Qed.

Lemma ADD_ADC_flags_witness :
  reg_A (ADDC rA 0x00 (set_reg rF 0x10 (set_reg rA 0xFF cpu_stack_example))) = 0x00 /\
  flag FLAG_CARRY (ADDC rA 0x00 (set_reg rF 0x10 (set_reg rA 0xFF cpu_stack_example)))
  = false.
Proof.
  destruct (ADD_ADC_flags 0x00 (set_reg rF 0x10 (set_reg rA 0xFF cpu_stack_example)))
    as (_ & _ & _ & H4 & H5 & H6 & _);
    [simpl; unfold is_byte; lia | unfold is_byte; lia |].
  split; [rewrite H5; reflexivity|].
  unfold flag in *. rewrite H6, H4. reflexivity.
Defined.
(* ================================================================== *)
(** * Further properties of the stack and of 16-bit stores *)

Lemma read_two_writes (m : Memory) (a1 a2 v1 v2 : Z) :
  wf_memory m -> is_word a1 -> is_word a2 -> stored a1 -> stored a2 ->
  region_of a1 <> region_of a2 ->
  read (write (write m a1 v1) a2 v2) a1 = Some (to_byte v1) /\
  read (write (write m a1 v1) a2 v2) a2 = Some (to_byte v2).
Proof.
  intros Hwf H1 H2 S1 S2 Hne. split.
  - rewrite read_write_other by (assumption || congruence).
    now apply read_write_same.
  - apply read_write_same; auto with wf.
Qed.

Lemma high_reg_pair_div (w : Z) : is_word w -> high_reg_pair w = w / 256.
Proof.
  intros Hw. apply Z.eqb_eq.
  apply (all_words_spec (fun w => high_reg_pair w =? w / 256)); [|exact Hw].
  vm_compute. reflexivity.
Qed.

Lemma to_byte_idem (v : Z) : to_byte (to_byte v) = to_byte v.
Proof. unfold to_byte. apply Z.mod_mod. lia. Qed.

Lemma to_byte_low (w : Z) : to_byte (low_reg_pair w) = w mod 256.
Proof. apply to_byte_idem. Qed.

Lemma to_byte_high (w : Z) :
  is_word w -> to_byte (high_reg_pair w) = w / 256.
Proof.
  intros Hw. rewrite <- (high_reg_pair_div w Hw). apply to_byte_idem.
Qed.

(** X13. PUSH stores the first byte it is given at SP-1 and the second at
    SP-2 and leaves SP two below (modulo 65536): for a register pair the
    high byte is at the higher address.  No register other than SP
    changes.  This needs the two stack bytes to be cells the memory map
    stores. *)
Theorem PUSH_layout (high low : Z) (s : CPU) :
  wf_memory (memory s) -> is_word (reg_SP s) ->
  stored (to_word (reg_SP s - 1)) -> stored (to_word (reg_SP s - 2)) ->
  let s' := PUSH high low s in
  reg_SP s' = (reg_SP s - 2) mod 65536 /\
  read (memory s') (to_word (reg_SP s - 1)) = Some (high mod 256) /\
  read (memory s') (to_word (reg_SP s - 2)) = Some (low mod 256) /\
  (forall r, get_reg r s' = get_reg r s) /\
  reg_PC s' = reg_PC s.
Proof.
  intros Hwf Hsp Hs1 Hs2 s'.
  set (a1 := to_word (reg_SP s - 1)) in *.
  assert (Ha2 : to_word (a1 - 1) = to_word (reg_SP s - 2))
    by apply to_word_pred_pred.
  assert (Hw1 : is_word a1) by apply to_word_range.
  assert (Hw2 : is_word (to_word (reg_SP s - 2))) by apply to_word_range.
  assert (Hm : memory s'
               = write (write (memory s) a1 high) (to_word (reg_SP s - 2)) low).
  { rewrite <- Ha2. reflexivity. }
  assert (Hne : region_of a1 <> region_of (to_word (reg_SP s - 2))).
  { intros Heq. apply (region_of_succ (to_word (reg_SP s - 2)) Hw2 Hs2).
    rewrite <- Ha2 at 2. rewrite to_word_pred_succ by exact Hw1.
    now rewrite Heq. }
  destruct (read_two_writes (memory s) a1 (to_word (reg_SP s - 2)) high low)
    as [R1 R2]; try assumption.
  split; [exact Ha2|]. rewrite Hm. split; [exact R1|]. split; [exact R2|].
  split; [intros r; now destruct r | reflexivity].
Qed.

Lemma PUSH_layout_witness :
  read (memory (PUSH 0x12 0x34 cpu_stack_example)) 0xFFFD = Some 0x12 /\
  read (memory (PUSH 0x12 0x34 cpu_stack_example)) 0xFFFC = Some 0x34.
Proof.
  destruct (PUSH_layout 0x12 0x34 cpu_stack_example) as (_ & H1 & H2 & _).
  - apply Memory_init_wf.
  - simpl. unfold is_word. lia.
  - change (stored 0xFFFD). unfold stored. lia.
  - change (stored 0xFFFC). unfold stored. lia.
  - split; [exact H1 | exact H2].
Defined.

(** X14. The 16-bit store [LD(Address, Byte_2)], used by [LD (nn),SP], is
    little-endian: the low byte of the word goes to the destination and
    the high byte to the address after it, so that reading the two bytes
    back and joining them with [address] gives the word stored.  No
    register changes.  This needs the two addresses to be stored cells. *)
Theorem LD_to16_little_endian (destination value : Z) (s : CPU) :
  wf_memory (memory s) -> is_word destination -> is_word value ->
  stored destination -> stored (to_word (destination + 1)) ->
  let s' := LD_to16 destination value s in
  read (memory s') destination = Some (value mod 256) /\
  read (memory s') (to_word (destination + 1)) = Some (value / 256) /\
  (exists lo hi, read (memory s') destination = Some lo /\
     read (memory s') (to_word (destination + 1)) = Some hi /\
     address hi lo = value) /\
  registers s' = registers s.
Proof.
  intros Hwf Hd Hv Hs1 Hs2 s'.
  assert (Hm : memory s'
               = write (write (memory s) destination (low_reg_pair value))
                   (to_word (destination + 1)) (high_reg_pair value))
    by reflexivity.
  destruct (read_two_writes (memory s) destination (to_word (destination + 1))
              (low_reg_pair value) (high_reg_pair value)) as [R1 R2];
    try assumption; [apply to_word_range | now apply region_of_succ |].
  rewrite to_byte_low in R1. rewrite to_byte_high in R2 by exact Hv.
  rewrite Hm.
  split; [exact R1|]. split; [exact R2|]. split; [|reflexivity].
  exists (value mod 256), (value / 256). split; [exact R1|]. split; [exact R2|].
  rewrite <- (high_reg_pair_div value Hv). now apply halves_pair.
Qed.

Lemma LD_to16_little_endian_witness :
  read (memory (LD_to16 0xC100 0xFFF8 cpu_stack_example)) 0xC100 = Some 0xF8 /\
  read (memory (LD_to16 0xC100 0xFFF8 cpu_stack_example)) 0xC101 = Some 0xFF.
Proof.
  destruct (LD_to16_little_endian 0xC100 0xFFF8 cpu_stack_example)
    as (H1 & H2 & _).
  - apply Memory_init_wf.
  - unfold is_word. lia.
  - unfold is_word. lia.
  - unfold stored. lia.
  - change (stored 0xC101). unfold stored. lia.
  - split; [exact H1 | exact H2].
Defined.
(* ================================================================== *)
(** * Further properties of the opcode dispatch *)

(** X15. An opcode without a case in the switch of [parse_opcode] is not
    an error: the call returns length 1 and changes nothing except H and
    L, which it has set to 0x00 and 0x05 before the switch.  This covers
    every value of the argument, in or out of the byte range. *)
Theorem unimplemented_opcode_is_nop (code : Z) (s : CPU) :
  existsb (Z.eqb code) implemented = false ->
  parse_opcode code s = Some (1, set_reg rL 5 (set_reg rH 0 s)).
Proof.
  unfold parse_opcode, decode.
  destruct code as [|p|p]; [reflexivity | | reflexivity].
  explore p ltac:(intros H; first [reflexivity | discriminate H]).
Qed.

Lemma unimplemented_opcode_is_nop_witness :
  parse_opcode 0x00 cpu_stack_example
  = Some (1, set_reg rL 5 (set_reg rH 0 cpu_stack_example)) /\
  parse_opcode 0xCB cpu_stack_example
  = Some (1, set_reg rL 5 (set_reg rH 0 cpu_stack_example)).
Proof.
  split.
  - apply (unimplemented_opcode_is_nop 0x00). reflexivity.
  - apply (unimplemented_opcode_is_nop 0xCB). reflexivity.
Defined.

(** X16. The flags register is assigned only by the ALU opcodes, by
    [LD HL,SP+n] and by [POP AF]: every other opcode, implemented or not,
    leaves F exactly as it was.  In particular no 8-bit load, no store, no
    16-bit immediate load and no PUSH touches a flag. *)
Theorem opcode_keeps_flags (code : Z) (s s' : CPU) (n : Z) :
  existsb (Z.eqb code) writes_F = false ->
  parse_opcode code s = Some (n, s') ->
  reg_F s' = reg_F s.
Proof.
  unfold parse_opcode, decode.
  destruct code as [|p|p].
  1,3: intros _ H; inversion H; reflexivity.
  explore p ltac:(intros Hw H; unfold_fallible H; case_reads H; inversion H;
                  first [reflexivity | discriminate Hw]).
Qed.

Lemma opcode_keeps_flags_witness :
  exists s', parse_opcode 0x06 cpu_stack_example = Some (2, s') /\
             reg_B s' = 200 /\ reg_F s' = reg_F cpu_stack_example.
Proof.
  eexists. split; [reflexivity|]. split; [reflexivity|].
  apply (opcode_keeps_flags 0x06 cpu_stack_example _ 2); reflexivity.
Defined.

(** X17. The memory is written only by the stores, the PUSHes and
    INC/DEC (HL): every other opcode leaves the whole memory as it was.
    The stack pointer is assigned only by PUSH, POP, [LD SP,nn] and
    [LD SP,HL]: every other opcode leaves SP as it was. *)
Theorem opcode_keeps_memory_and_SP (code : Z) (s s' : CPU) (n : Z) :
  parse_opcode code s = Some (n, s') ->
  (existsb (Z.eqb code) writes_memory = false -> memory s' = memory s) /\
  (existsb (Z.eqb code) [0xF5; 0xC5; 0xD5; 0xE5; 0xF1; 0xC1; 0xD1; 0xE1;
                          0x31; 0xF9] = false -> reg_SP s' = reg_SP s).
Proof.
  unfold parse_opcode, decode.
  destruct code as [|p|p].
  1,3: intros H; inversion H; split; reflexivity.
  explore p ltac:(intros H; unfold_fallible H; case_reads H; inversion H;
    split; intros Hw; first [reflexivity | discriminate Hw]).
Qed.

Lemma opcode_keeps_memory_and_SP_witness :
  exists s', parse_opcode 0x80 cpu_stack_example = Some (1, s') /\
             memory s' = memory cpu_stack_example /\
             reg_SP s' = reg_SP cpu_stack_example.
Proof.
  eexists. split; [reflexivity|].
  destruct (opcode_keeps_memory_and_SP 0x80 cpu_stack_example _ 1 eq_refl)
    as [Hm Hsp].
  split; [apply Hm | apply Hsp]; reflexivity.
Defined.
#[local] Arguments to_byte : simpl never.
#[local] Arguments to_word : simpl never.
#[local] Arguments address : simpl never.
#[local] Arguments high_reg_pair : simpl never.
#[local] Arguments low_reg_pair : simpl never.

Ltac unfold_fallible_goal :=
  unfold LD_from, ADD_addr, ADDC_addr, SUB_addr, SUBC_addr, AND_addr, OR_addr,
    XOR_addr, CP_addr, INC_addr, DEC_addr, POP; simpl.

(** Every read in the goal is of a 16-bit address and so is defined. *)
Ltac reads_defined Hwf Hsp Hrom :=
  repeat match goal with
  | |- context [read ?m ?a] =>
      let b := fresh "b" in
      destruct (read_defined m a) as [b ->];
      [ exact Hwf
      | first [apply to_word_range | apply address_word | exact Hsp]
      | intros; lia
      | simpl ]
  end.

Lemma decode_defined (code value value2 : Z) (s : CPU) :
  wf_memory (memory s) -> is_word (reg_SP s) ->
  0x8000 <= Z.of_nat (length (CART_ROM (memory s))) ->
  exists s', fst (decode code value value2 s) = Some s'.
Proof.
  intros Hwf Hsp Hrom. unfold decode.
  destruct code as [|p|p]; [now eexists | | now eexists].
  explore p ltac:(unfold_fallible_goal; reads_defined Hwf Hsp Hrom;
                  eexists; reflexivity).
Qed.

Lemma parse_opcode_defined_aux (code : Z) (s : CPU) :
  wf_memory (memory s) -> is_word (reg_SP s) ->
  0x8000 <= Z.of_nat (length (CART_ROM (memory s))) ->
  exists n s', parse_opcode code s = Some (n, s').
Proof.
  intros Hwf Hsp Hrom. unfold parse_opcode. cbv zeta.
  destruct (decode_defined code 200 200 (set_reg rL 5 (set_reg rH 0 s))
              Hwf Hsp Hrom) as [s' Hs'].
  destruct (decode code 200 200 (set_reg rL 5 (set_reg rH 0 s))) as [r n].
  simpl in Hs'. subst r. now exists n, s'.
Qed.

(** X18. With the vector sizes of the constructor, SP a 16-bit value and
    a cartridge image that fills the 32 KiB of the ROM range,
    [parse_opcode] has a defined result for every opcode and every
    register contents, and so has every case of the switch for every pair
    of operand bytes: no case makes [read] index a vector out of bounds,
    wherever BC, DE, C or SP point. *)
Theorem parse_opcode_defined (code : Z) (s : CPU) :
  wf_memory (memory s) -> is_word (reg_SP s) ->
  0x8000 <= Z.of_nat (length (CART_ROM (memory s))) ->
  (exists n s', parse_opcode code s = Some (n, s')) /\
  (forall value value2, exists s', fst (decode code value value2 s) = Some s').
Proof.
  intros Hwf Hsp Hrom. split.
  - now apply parse_opcode_defined_aux.
  - intros value value2. now apply decode_defined.
Qed.

Lemma parse_opcode_defined_witness :
  exists n s', parse_opcode 0x0A cpu_full_rom = Some (n, s').
Proof.
  destruct (parse_opcode_defined 0x0A cpu_full_rom) as [H _]; [| | |exact H].
  - constructor; vm_compute; reflexivity.
  - simpl. unfold is_word. lia.
  - vm_compute. discriminate.
Defined.

Ltac byte_goal :=
  lazymatch goal with
  | |- is_byte (if ?b then _ else _) => destruct b; apply to_byte_range
  | |- is_byte _ =>
      first [ assumption | apply to_byte_range
            | eapply read_byte; [|eassumption]; assumption
            | unfold is_byte; lia ]
  | |- is_word _ =>
      first [ assumption | apply to_word_range | apply address_word ]
  | |- wf_memory _ => auto with wf
  | |- bytes_memory _ => repeat apply write_bytes; assumption
  end.

Lemma decode_wf (code value value2 : Z) (s s' : CPU) :
  wf_cpu s -> bytes_memory (memory s) ->
  fst (decode code value value2 s) = Some s' ->
  wf_cpu s' /\ bytes_memory (memory s').
Proof.
  intros [HA HB HC HD HE HF HH HL HSP HPC Hm] Hb. unfold decode.
  destruct code as [|p|p].
  1,3: simpl; intros H; inversion H; subst s'; split;
         [constructor; assumption | assumption].
  explore p ltac:(intros H; unfold_fallible H; case_reads H; inversion H;
    subst s'; split; [constructor; simpl; byte_goal | simpl; byte_goal]).
Qed.

Lemma clobber_wf (s : CPU) :
  wf_cpu s -> wf_cpu (set_reg rL 5 (set_reg rH 0 s)).
Proof.
  intros [HA HB HC HD HE HF HH HL HSP HPC Hm].
  constructor; simpl; byte_goal.
Qed.

Lemma parse_opcode_wf (code : Z) (s s' : CPU) (n : Z) :
  wf_cpu s -> bytes_memory (memory s) ->
  parse_opcode code s = Some (n, s') ->
  wf_cpu s' /\ bytes_memory (memory s').
Proof.
  intros Hwf Hb. unfold parse_opcode. cbv zeta. intros H.
  apply (decode_wf code 200 200 (set_reg rL 5 (set_reg rH 0 s)) s');
    [now apply clobber_wf | exact Hb |].
  destruct (decode code 200 200 (set_reg rL 5 (set_reg rH 0 s))) as [r k].
  destruct r as [s1|]; [|discriminate H]. simpl in H. simpl. congruence.
Qed.

(** X19. Well-formed states stay well-formed: if the eight registers
    hold bytes, SP and PC hold 16-bit values, the memory vectors have the
    sizes of the constructor and every memory cell holds a byte, then the
    same is true after [parse_opcode], for every opcode, and after the
    switch of the decoder for every pair of operand bytes. *)
Theorem parse_opcode_preserves_wf (code : Z) (s s' : CPU) :
  wf_cpu s -> bytes_memory (memory s) ->
  (forall n, parse_opcode code s = Some (n, s') ->
     wf_cpu s' /\ bytes_memory (memory s')) /\
  (forall value value2, fst (decode code value value2 s) = Some s' ->
     wf_cpu s' /\ bytes_memory (memory s')).
Proof.
  intros Hwf Hb. split.
  - intros n. now apply parse_opcode_wf.
  - intros value value2. now apply decode_wf.
Qed.

Lemma cpu_stack_example_wf : wf_cpu cpu_stack_example.
Proof.
  constructor; try (simpl; unfold is_byte, is_word; lia).
  apply Memory_init_wf.
Qed.

Lemma parse_opcode_preserves_wf_witness :
  wf_cpu (INC rA (set_reg rL 5 (set_reg rH 0 (set_reg rA 0xFF cpu_stack_example)))).
Proof.
  destruct (parse_opcode_preserves_wf 0x3C (set_reg rA 0xFF cpu_stack_example)
              (INC rA (set_reg rL 5 (set_reg rH 0 (set_reg rA 0xFF cpu_stack_example)))))
    as [H _].
  - constructor; try (simpl; unfold is_byte, is_word; lia).
    apply Memory_init_wf.
  - apply Memory_init_bytes.
  - destruct (H 1 eq_refl) as [Hwf _]. exact Hwf.
Defined.

Lemma nibble_set_flag (k : Z) (b : bool) (s : CPU) :
  4 <= k < 8 ->
  Z.land (reg_F (set_flag (2 ^ k) b s)) 0xF = Z.land (reg_F s) 0xF.
Proof. intros Hk. unfold set_flag. simpl. now apply low_nibble_set_flag. Qed.

Lemma nibble_Z (b : bool) (s : CPU) :
  Z.land (reg_F (set_flag FLAG_ZERO b s)) 0xF = Z.land (reg_F s) 0xF.
Proof. apply (nibble_set_flag 7). lia. Qed.

Lemma nibble_N (b : bool) (s : CPU) :
  Z.land (reg_F (set_flag FLAG_SUB b s)) 0xF = Z.land (reg_F s) 0xF.
Proof. apply (nibble_set_flag 6). lia. Qed.

Lemma nibble_H (b : bool) (s : CPU) :
  Z.land (reg_F (set_flag FLAG_HALF_CARRY b s)) 0xF = Z.land (reg_F s) 0xF.
Proof. apply (nibble_set_flag 5). lia. Qed.

Lemma nibble_C (b : bool) (s : CPU) :
  Z.land (reg_F (set_flag FLAG_CARRY b s)) 0xF = Z.land (reg_F s) 0xF.
Proof. apply (nibble_set_flag 4). lia. Qed.

Lemma reg_F_set_SP (v : Z) (s : CPU) : reg_F (set_SP v s) = reg_F s.
Proof. reflexivity. Qed.

Lemma reg_F_set_memory (m : Memory) (s : CPU) : reg_F (set_memory m s) = reg_F s.
Proof. reflexivity. Qed.

Ltac nibble_goal :=
  unfold LD_to16, LD_pair16, LD_pair, LD_SP, LD_to, LD, PUSH, ADDC, ADD, SUBC,
    SUB, AND, OR, XOR, CP, INC, INC_byte, DEC, DEC_byte, inc_reg_pair,
    dec_reg_pair;
  cbv beta iota zeta;
  repeat first [ rewrite nibble_C | rewrite nibble_H | rewrite nibble_N
               | rewrite nibble_Z | rewrite reg_F_set_reg by discriminate
               | rewrite reg_F_set_SP | rewrite reg_F_set_memory ];
  reflexivity.

(** X20. The low nibble of F is changed by one opcode only, [POP AF]
    (0xF1), which loads F from the stack without masking it: after every
    other opcode the four low bits of F are what they were before, so if
    they were zero they stay zero. *)
Theorem F_low_nibble_kept (code : Z) (s s' : CPU) (n : Z) :
  code <> 0xF1 ->
  parse_opcode code s = Some (n, s') ->
  Z.land (reg_F s') 0xF = Z.land (reg_F s) 0xF.
Proof.
  unfold parse_opcode, decode.
  destruct code as [|p|p].
  1,3: intros _ H; inversion H; reflexivity.
  explore p ltac:(intros Hne H; unfold_fallible H; case_reads H; inversion H;
                  subst s'; first [ now destruct Hne | nibble_goal ]).
Qed.

Lemma F_low_nibble_kept_witness :
  exists s', parse_opcode 0x90 cpu_full_rom = Some (1, s') /\
             Z.land (reg_F s') 0xF = 0.
Proof.
  eexists. split; [reflexivity|].
  rewrite (F_low_nibble_kept 0x90 cpu_full_rom _ 1);
    [reflexivity | discriminate | reflexivity].
Defined.
(* ================================================================== *)
(** * Further properties of the timer, LCD and interrupt units *)

(** ** Invariants of the units

    A property of emulator states that is kept by the assignments to the
    counters and by [set] on the registers in [W] is kept by every
    function of the timer and LCD units that writes no other register. *)
Section UnitInvariant.

Variable Q : Emulator -> Prop.
Variable W : Z -> Prop.
Hypothesis Q_divider_counter : forall v e, Q e -> Q (set_divider_counter v e).
Hypothesis Q_timer_counter : forall v e, Q e -> Q (set_timer_counter v e).
Hypothesis Q_timer_frequency :
  forall v e, Q e -> Q (set_timer_frequency_field v e).
Hypothesis Q_scanline_counter : forall v e, Q e -> Q (set_scanline_counter v e).
Hypothesis Q_register :
  forall r v e, W r -> Q e -> Q (set_emem (reg_set r v (emem e)) e).

Lemma update_divider_inv (cycles : Z) (e : Emulator) :
  W DIV -> Q e -> Q (update_divider cycles e).
Proof.
  intros HW HQ. unfold update_divider. cbv zeta.
  destruct (256 <=? _); auto.
Qed.

Lemma set_timer_frequency_inv (e : Emulator) :
  Q e -> Q (set_timer_frequency e).
Proof.
  intros HQ. unfold set_timer_frequency. cbv zeta. repeat case_match; auto.
Qed.

Lemma request_interrupt_inv (id : Z) (e : Emulator) :
  W IF -> Q e -> Q (request_interrupt id e).
Proof. intros HW HQ. unfold request_interrupt, reg_set_bit. auto. Qed.

Lemma update_timers_inv (cycles : Z) (e : Emulator) :
  W DIV -> W TIMA -> W IF -> Q e -> Q (update_timers cycles e).
Proof.
  intros HD HT HI HQ. unfold update_timers. cbv zeta.
  set (e1 := update_divider cycles e).
  assert (H1 : Q e1) by now apply update_divider_inv.
  set (e2 := if negb (timer_frequency e1 =? get_timer_frequency e1)
             then set_timer_frequency_field (get_timer_frequency e1)
                    (set_timer_frequency e1)
             else e1).
  assert (H2 : Q e2).
  { subst e2. destruct (negb _); [|exact H1].
    apply Q_timer_frequency. now apply set_timer_frequency_inv. }
  clearbody e2. clear H1 e1.
  destruct (timer_enabled e2); [|exact H2].
  set (e3 := set_timer_counter (timer_counter e2 - cycles) e2).
  assert (H3 : Q e3) by now apply Q_timer_counter.
  clearbody e3.
  destruct (timer_counter e3 <=? 0); [|exact H3].
  assert (H4 : Q (set_timer_frequency e3)) by now apply set_timer_frequency_inv.
  destruct (reg_get TIMA (emem e3) =? 255).
  - apply request_interrupt_inv; [exact HI|]. now apply Q_register.
  - now apply Q_register.
Qed.

Lemma set_lcd_status_inv (e : Emulator) :
  W IF -> W STAT -> W LY -> Q e -> Q (set_lcd_status e).
Proof.
  intros HI HS HL HQ. unfold set_lcd_status, reg_clear. cbv zeta.
  destruct (negb (is_lcd_enabled e)).
  - apply Q_register; [exact HS|]. apply Q_register; [exact HL|].
    now apply Q_scanline_counter.
  - split_ifs; apply Q_register; try exact HS;
      repeat (apply request_interrupt_inv; [exact HI|]); exact HQ.
Qed.

Lemma update_scanline_inv (cycles : Z) (e : Emulator) :
  W IF -> W STAT -> W LY -> Q e -> Q (update_scanline cycles e).
Proof.
  intros HI HS HL HQ. unfold update_scanline. cbv zeta.
  set (e1 := set_lcd_status e).
  assert (H1 : Q e1) by now apply set_lcd_status_inv.
  clearbody e1.
  destruct (is_lcd_enabled e1); [|exact H1].
  set (e2 := set_scanline_counter (scanline_counter e1 - cycles) e1).
  assert (H2 : Q e2) by now apply Q_scanline_counter.
  clearbody e2.
  destruct (scanline_counter e2 <=? 0); [|exact H2].
  set (e3 := set_scanline_counter 456
               (set_emem (reg_set LY (reg_get LY (emem e2) + 1) (emem e2)) e2)).
  assert (H3 : Q e3).
  { apply Q_scanline_counter. now apply Q_register. }
  clearbody e3. unfold draw_scanline, reg_clear.
  split_ifs; try exact H3.
  - now apply request_interrupt_inv.
  - now apply Q_register.
Qed.

End UnitInvariant.

Lemma reg_set_is_write (r v : Z) (m : Memory) :
  0 <= r < 256 -> reg_set r v m = write m (0xFF00 + r) v.
Proof.
  intros Hr. rewrite write_region by (unfold is_word; lia).
  replace (region_of (0xFF00 + r)) with (CZram r); [reflexivity|].
  unfold region_of. range_cases. f_equal. lia.
Qed.

Lemma read_reg_set_other (r v a : Z) (m : Memory) :
  is_word a -> 0 <= r < 256 -> a <> 0xFF00 + r ->
  read (reg_set r v m) a = read m a.
Proof.
  intros Ha Hr Hne. rewrite reg_set_is_write by exact Hr.
  apply read_write_other; [unfold is_word; lia | exact Ha |].
  unfold is_word in Ha. unfold region_of. range_cases; intros Heq;
    inversion Heq; lia.
Qed.

(** X21. The timer and LCD units write nothing but their own registers:
    after [update_timers] every address except DIV (FF04), TIMA (FF05)
    and IF (FF0F) reads as before, after [update_scanline] every address
    except IF (FF0F), STAT (FF41) and LY (FF44) reads as before, and
    neither changes a CPU register, the interrupt master enable or the
    cycle count. *)
Theorem units_write_only_their_registers (cycles : Z) (e : Emulator) (a : Z) :
  is_word a ->
  (~ In a timer_addresses ->
   read (emem (update_timers cycles e)) a = read (emem e) a) /\
  (~ In a lcd_addresses ->
   read (emem (update_scanline cycles e)) a = read (emem e) a) /\
  cpu_state (update_timers cycles e) = cpu_state e /\
  cpu_state (update_scanline cycles e) = cpu_state e.
Proof.
  intros Ha. split; [|split; [|split]].
  - intros Hn.
    apply (update_timers_inv
             (fun e' => read (emem e') a = read (emem e) a)
             (fun r => r = DIV \/ r = TIMA \/ r = IF)); auto.
    intros r v e' Hr HQ. rewrite emem_set_emem, <- HQ.
    apply read_reg_set_other;
      [ exact Ha
      | destruct Hr as [-> | [-> | ->]]; unfold DIV, TIMA, IF, STAT, LY; lia
      | destruct Hr as [-> | [-> | ->]]; intros ->; apply Hn; simpl; auto ].
  - intros Hn.
    apply (update_scanline_inv
             (fun e' => read (emem e') a = read (emem e) a)
             (fun r => r = IF \/ r = STAT \/ r = LY)); auto.
    intros r v e' Hr HQ. rewrite emem_set_emem, <- HQ.
    apply read_reg_set_other;
      [ exact Ha
      | destruct Hr as [-> | [-> | ->]]; unfold DIV, TIMA, IF, STAT, LY; lia
      | destruct Hr as [-> | [-> | ->]]; intros ->; apply Hn; simpl; auto ].
  - apply update_timers_cpu.
  - apply update_scanline_cpu.
Qed.

Lemma units_write_only_their_registers_witness :
  read (emem (update_timers 300 (Emulator_init false 0 0 1024 0))) 0xFF40
  = read (emem (Emulator_init false 0 0 1024 0)) 0xFF40.
Proof.
  destruct (units_write_only_their_registers 300
              (Emulator_init false 0 0 1024 0) 0xFF40) as (H & _).
  - unfold is_word. lia.
  - apply H. simpl. intros [H1|[H1|[H1|[]]]]; discriminate H1.
Defined.
(** ** Well-formed emulator states *)

Lemma set_memory_wf (m : Memory) (c : CPU) :
  wf_cpu c -> wf_memory m -> wf_cpu (set_memory m c).
Proof.
  intros [HA HB HC HD HE HF HH HL HSP HPC Hm] Hwf. now constructor.
Qed.

Lemma reg_set_bytes (r v : Z) (m : Memory) :
  bytes_memory m -> bytes_memory (reg_set r v m).
Proof.
  intros [H0 H1 H2 H3 H4 H5]. constructor; simpl; try assumption.
  apply Forall_insert; [assumption | apply to_byte_range].
Qed.

Lemma wf_emulator_register (r v : Z) (e : Emulator) :
  wf_emulator e -> wf_emulator (set_emem (reg_set r v (emem e)) e).
Proof.
  intros [Hc Hb]. split.
  - apply set_memory_wf; [exact Hc|]. apply reg_set_wf. apply (wf_mem _ Hc).
  - now apply reg_set_bytes.
Qed.

Lemma update_timers_wf (cycles : Z) (e : Emulator) :
  wf_emulator e -> wf_emulator (update_timers cycles e).
Proof.
  apply (update_timers_inv wf_emulator (fun _ => True)); auto.
  intros r v e' _. apply wf_emulator_register.
Qed.

Lemma update_scanline_wf (cycles : Z) (e : Emulator) :
  wf_emulator e -> wf_emulator (update_scanline cycles e).
Proof.
  apply (update_scanline_inv wf_emulator (fun _ => True)); auto.
  intros r v e' _. apply wf_emulator_register.
Qed.

Lemma wf_emulator_IME (b : bool) (e : Emulator) :
  wf_emulator e -> wf_emulator (set_cpu (set_IME b (cpu e)) e).
Proof.
  intros [[HA HB HC HD HE HF HH HL HSP HPC Hm] Hb].
  split; [now constructor | exact Hb].
Qed.

Lemma wf_emulator_SP (v : Z) (e : Emulator) :
  wf_emulator e -> wf_emulator (set_cpu (set_SP (to_word v) (cpu e)) e).
Proof.
  intros [[HA HB HC HD HE HF HH HL HSP HPC Hm] Hb].
  split; [constructor; try assumption; apply to_word_range | exact Hb].
Qed.

Lemma wf_emulator_PC (v : Z) (e : Emulator) :
  is_word v -> wf_emulator e -> wf_emulator (set_cpu (set_PC v (cpu e)) e).
Proof.
  intros Hv [[HA HB HC HD HE HF HH HL HSP HPC Hm] Hb].
  split; [now constructor | exact Hb].
Qed.

Lemma wf_emulator_write (a v : Z) (e : Emulator) :
  wf_emulator e -> wf_emulator (set_emem (write (emem e) a v) e).
Proof.
  intros [Hc Hb]. split.
  - apply set_memory_wf; [exact Hc|]. apply write_wf. apply (wf_mem _ Hc).
  - now apply write_bytes.
Qed.

Lemma service_interrupt_wf (id : Z) (e : Emulator) :
  wf_emulator e -> wf_emulator (service_interrupt id e).
Proof.
  intros Hwf. unfold service_interrupt, reg_clear_bit. cbv zeta.
  set (e1 := set_cpu (set_IME false (cpu e)) e).
  assert (H1 : wf_emulator e1) by now apply wf_emulator_IME.
  clearbody e1.
  set (e2 := set_emem _ e1).
  assert (H2 : wf_emulator e2) by now apply wf_emulator_register.
  clearbody e2.
  set (e3 := set_cpu _ e2).
  assert (H3 : wf_emulator e3) by now apply wf_emulator_SP.
  clearbody e3.
  set (e4 := set_emem _ e3).
  assert (H4 : wf_emulator e4) by now apply wf_emulator_write.
  clearbody e4.
  set (e5 := set_cpu _ e4).
  assert (H5 : wf_emulator e5) by now apply wf_emulator_SP.
  clearbody e5.
  set (e6 := set_emem _ e5).
  assert (H6 : wf_emulator e6) by now apply wf_emulator_write.
  clearbody e6.
  repeat case_match; try exact H6;
    (apply wf_emulator_PC; [unfold is_word; lia | exact H6]).
Qed.

Lemma do_interrupts_wf (e : Emulator) :
  wf_emulator e -> wf_emulator (do_interrupts e).
Proof.
  intros Hwf. unfold do_interrupts.
  destruct (interrupt_master_enable (cpu e)); [|exact Hwf].
  destruct (0 <? reg_get IF (emem e)); [|exact Hwf].
  assert (Hbit : forall e i, wf_emulator e -> wf_emulator (do_interrupt_bit e i)).
  { intros e0 i H0. unfold do_interrupt_bit.
    destruct (reg_is_bit_set IF i (emem e0)); [|exact H0].
    destruct (reg_is_bit_set IE i (emem e0)); [|exact H0].
    now apply service_interrupt_wf. }
  cbn [fold_left]. repeat apply Hbit. exact Hwf.
Qed.

Lemma after_opcode_wf (e : Emulator) :
  wf_emulator e -> wf_emulator (after_opcode e).
Proof.
  intros Hwf. unfold after_opcode. cbv zeta.
  set (e1 := update_timers (num_cycles (cpu e)) e).
  assert (H1 : wf_emulator e1) by now apply update_timers_wf.
  clearbody e1.
  set (e2 := update_scanline (num_cycles (cpu e1)) e1).
  assert (H2 : wf_emulator e2) by now apply update_scanline_wf.
  clearbody e2.
  set (e3 := do_interrupts e2).
  assert (H3 : wf_emulator e3) by now apply do_interrupts_wf.
  clearbody e3.
  destruct H3 as [[HA HB HC HD HE HF HH HL HSP HPC Hm] Hb].
  split; [now constructor | exact Hb].
Qed.

Lemma step_wf (e e' : Emulator) :
  wf_emulator e -> step e = Some e' -> wf_emulator e'.
Proof.
  intros [Hc Hb] H. unfold step in H.
  apply bind_Some in H as (code & _ & H).
  apply bind_Some in H as ([n c] & Hp & H).
  destruct (parse_opcode_wf code (cpu e) c n Hc Hb Hp) as [Hc' Hb'].
  assert (He : e' = after_opcode (set_cpu c e)) by congruence.
  rewrite He. apply after_opcode_wf. split; [exact Hc' | exact Hb'].
Qed.
Lemma reg_set_ROM (r v : Z) (m : Memory) :
  CART_ROM (reg_set r v m) = CART_ROM m.
Proof. reflexivity. Qed.

Lemma decode_ROM (code value value2 : Z) (s s' : CPU) :
  fst (decode code value value2 s) = Some s' ->
  CART_ROM (memory s') = CART_ROM (memory s).
Proof.
  unfold decode.
  destruct code as [|p|p].
  1,3: simpl; intros H; inversion H; reflexivity.
  explore p ltac:(intros H; unfold_fallible H; case_reads H; inversion H;
    subst s'; simpl; rewrite ?write_ROM; reflexivity).
Qed.

Lemma parse_opcode_ROM (code : Z) (s s' : CPU) (n : Z) :
  parse_opcode code s = Some (n, s') ->
  CART_ROM (memory s') = CART_ROM (memory s).
Proof.
  unfold parse_opcode. cbv zeta. intros H.
  apply (decode_ROM code 200 200 (set_reg rL 5 (set_reg rH 0 s)) s').
  destruct (decode code 200 200 (set_reg rL 5 (set_reg rH 0 s))) as [r k].
  destruct r as [s1|]; [|discriminate H]. simpl in H. simpl. congruence.
Qed.

Lemma service_interrupt_pushes (id : Z) (e : Emulator) :
  emem (service_interrupt id e)
  = write (write (reg_clear_bit IF id (emem e))
             (to_word (reg_SP (cpu e) - 1)) (high_byte (reg_PC (cpu e))))
      (to_word (reg_SP (cpu e) - 2)) (low_byte (reg_PC (cpu e))) /\
  reg_SP (cpu (service_interrupt id e)) = to_word (reg_SP (cpu e) - 2) /\
  interrupt_master_enable (cpu (service_interrupt id e)) = false.
Proof.
  rewrite <- to_word_pred_pred.
  unfold service_interrupt. cbv zeta. repeat case_match; repeat split.
Qed.

Lemma service_interrupt_ROM (id : Z) (e : Emulator) :
  CART_ROM (emem (service_interrupt id e)) = CART_ROM (emem e).
Proof.
  destruct (service_interrupt_pushes id e) as (-> & _).
  rewrite !write_ROM. reflexivity.
Qed.

Lemma do_interrupts_ROM (e : Emulator) :
  CART_ROM (emem (do_interrupts e)) = CART_ROM (emem e).
Proof.
  unfold do_interrupts.
  destruct (interrupt_master_enable (cpu e)); [|reflexivity].
  destruct (0 <? reg_get IF (emem e)); [|reflexivity].
  assert (Hbit : forall e i,
            CART_ROM (emem (do_interrupt_bit e i)) = CART_ROM (emem e)).
  { intros e0 i. unfold do_interrupt_bit.
    destruct (reg_is_bit_set IF i (emem e0)); [|reflexivity].
    destruct (reg_is_bit_set IE i (emem e0)); [|reflexivity].
    apply service_interrupt_ROM. }
  cbn [fold_left]. now rewrite !Hbit.
Qed.

Lemma after_opcode_ROM (e : Emulator) :
  CART_ROM (emem (after_opcode e)) = CART_ROM (emem e).
Proof.
  unfold after_opcode. cbv zeta.
  set (e1 := update_timers (num_cycles (cpu e)) e).
  assert (H1 : CART_ROM (emem e1) = CART_ROM (emem e)).
  { apply (update_timers_inv
             (fun e' => CART_ROM (emem e') = CART_ROM (emem e))
             (fun _ => True)); auto. }
  clearbody e1.
  set (e2 := update_scanline (num_cycles (cpu e1)) e1).
  assert (H2 : CART_ROM (emem e2) = CART_ROM (emem e)).
  { apply (update_scanline_inv
             (fun e' => CART_ROM (emem e') = CART_ROM (emem e))
             (fun _ => True)); auto. }
  clearbody e2.
  rewrite <- H2, <- (do_interrupts_ROM e2). reflexivity.
Qed.

Lemma num_cycles_reset (e : Emulator) :
  num_cycles (cpu (set_cpu (set_num_cycles 0 (cpu e)) e)) = 0.
Proof. reflexivity. Qed.

Lemma fetch_defined (e : Emulator) :
  wf_emulator e -> full_rom (emem e) ->
  exists code n c,
    read (emem e) (reg_PC (cpu e)) = Some code /\
    parse_opcode code (cpu e) = Some (n, c) /\
    num_cycles c = num_cycles (cpu e) /\
    wf_emulator (after_opcode (set_cpu c e)) /\
    full_rom (emem (after_opcode (set_cpu c e))) /\
    num_cycles (cpu (after_opcode (set_cpu c e))) = 0.
Proof.
  intros Hwf Hrom. pose proof Hwf as [Hc Hb].
  destruct (read_defined (emem e) (reg_PC (cpu e))) as [code Hcode].
  { apply (wf_mem _ Hc). }
  { apply (wf_PC _ Hc). }
  { unfold full_rom in Hrom. lia. }
  destruct (parse_opcode_defined_aux code (cpu e)) as (n & c & Hp).
  { apply (wf_mem _ Hc). }
  { apply (wf_SP _ Hc). }
  { exact Hrom. }
  exists code, n, c. split; [exact Hcode|]. split; [exact Hp|].
  destruct (parse_opcode_wf code (cpu e) c n Hc Hb Hp) as [Hc' Hb'].
  split; [apply (parse_opcode_frame code (cpu e) c n Hp)|].
  split; [apply after_opcode_wf; split; assumption|].
  split.
  - unfold full_rom. rewrite after_opcode_ROM.
    change (emem (set_cpu c e)) with (memory c).
    rewrite (parse_opcode_ROM code (cpu e) c n Hp). exact Hrom.
  - unfold after_opcode. cbv zeta. apply num_cycles_reset.
Qed.

Lemma step_defined (e : Emulator) :
  wf_emulator e -> full_rom (emem e) ->
  exists e', step e = Some e' /\ wf_emulator e' /\
             CART_ROM (emem e') = CART_ROM (emem e).
Proof.
  intros Hwf Hrom.
  destruct (fetch_defined e Hwf Hrom)
    as (code & n & c & Hcode & Hp & _ & Hwf' & _ & _).
  exists (after_opcode (set_cpu c e)). unfold step.
  rewrite Hcode. cbn [mbind option_bind]. rewrite Hp. cbn [mbind option_bind].
  split; [reflexivity|]. split; [exact Hwf'|].
  rewrite after_opcode_ROM. apply (parse_opcode_ROM code (cpu e) c n Hp).
Qed.

(** ** The cycle accumulators *)

Lemma land_3 (x : Z) : Z.land x 0x3 = x mod 4.
Proof. change 0x3 with (Z.ones 2). now rewrite Z.land_ones. Qed.

Lemma get_timer_frequency_range (e : Emulator) :
  0 <= get_timer_frequency e <= 3.
Proof.
  unfold get_timer_frequency. rewrite land_3.
  pose proof (Z.mod_pos_bound (reg_get TAC (emem e)) 4 ltac:(lia)).
  unfold to_byte. rewrite Z.mod_small; lia.
Qed.

Lemma get_timer_frequency_cases (e : Emulator) :
  get_timer_frequency e = 0 \/ get_timer_frequency e = 1 \/
  get_timer_frequency e = 2 \/ get_timer_frequency e = 3.
Proof. pose proof (get_timer_frequency_range e). lia. Qed.

Lemma set_timer_frequency_eq (e : Emulator) :
  set_timer_frequency e
  = set_timer_counter (timer_period (get_timer_frequency e))
      (set_timer_frequency_field (get_timer_frequency e) e).
Proof.
  unfold set_timer_frequency. cbv zeta.
  destruct (get_timer_frequency_cases e) as [E|[E|[E|E]]]; rewrite E;
    reflexivity.
Qed.

Lemma timer_period_range (f : Z) : 16 <= timer_period f <= 1024.
Proof.
  unfold timer_period. destruct f as [|p|p]; try lia.
  destruct p as [[|p|]|[|p|]|]; lia.
Qed.

Lemma update_divider_counters (cycles : Z) (e : Emulator) :
  cycle_count cycles -> counters_in_range e ->
  counters_in_range (update_divider cycles e).
Proof.
  unfold cycle_count, INT_MAX. intros Hc (Hd & Ht & Hs).
  unfold update_divider. cbv zeta.
  rewrite to_int_small by (unfold int_range, INT_MIN, INT_MAX; lia).
  change (divider_counter (set_divider_counter (divider_counter e + cycles) e))
    with (divider_counter e + cycles).
  destruct (Z.leb_spec 256 (divider_counter e + cycles));
    (split; [|split]); simpl; lia.
Qed.

Lemma update_timers_counters (cycles : Z) (e : Emulator) :
  cycle_count cycles -> counters_in_range e ->
  counters_in_range (update_timers cycles e).
Proof.
  intros Hc HR. unfold update_timers. cbv zeta.
  set (e1 := update_divider cycles e).
  assert (H1 : counters_in_range e1) by now apply update_divider_counters.
  clearbody e1. unfold cycle_count in Hc.
  set (e2 := if negb (timer_frequency e1 =? get_timer_frequency e1)
             then set_timer_frequency_field (get_timer_frequency e1)
                    (set_timer_frequency e1)
             else e1).
  assert (H2 : counters_in_range e2).
  { subst e2. destruct (negb _); [|exact H1].
    rewrite set_timer_frequency_eq. destruct H1 as (Hd & Ht & Hs).
    pose proof (timer_period_range (get_timer_frequency e1)).
    split; [|split]; simpl; lia. }
  clearbody e2. clear H1 e1.
  destruct (timer_enabled e2); [|exact H2].
  change (timer_counter (set_timer_counter (timer_counter e2 - cycles) e2))
    with (timer_counter e2 - cycles).
  destruct H2 as (Hd & Ht & Hs).
  destruct (Z.leb_spec (timer_counter e2 - cycles) 0).
  - rewrite set_timer_frequency_eq.
    pose proof (timer_period_range
                  (get_timer_frequency
                     (set_timer_counter (timer_counter e2 - cycles) e2))).
    destruct (_ =? 255); (split; [|split]); simpl; lia.
  - split; [|split]; simpl; lia.
Qed.

Lemma set_lcd_status_counters (e : Emulator) :
  counters_in_range e -> counters_in_range (set_lcd_status e).
Proof.
  intros (Hd & Ht & Hs). unfold set_lcd_status, request_interrupt. cbv zeta.
  destruct (negb (is_lcd_enabled e)).
  - split; [|split]; simpl; lia.
  - split_ifs; (split; [|split]); simpl; lia.
Qed.

Lemma update_scanline_counters (cycles : Z) (e : Emulator) :
  cycle_count cycles -> counters_in_range e ->
  counters_in_range (update_scanline cycles e).
Proof.
  unfold cycle_count. intros Hc HR. unfold update_scanline. cbv zeta.
  set (e1 := set_lcd_status e).
  assert (H1 : counters_in_range e1) by now apply set_lcd_status_counters.
  clearbody e1.
  destruct (is_lcd_enabled e1); [|exact H1].
  change (scanline_counter (set_scanline_counter (scanline_counter e1 - cycles) e1))
    with (scanline_counter e1 - cycles).
  destruct H1 as (Hd & Ht & Hs).
  destruct (Z.leb_spec (scanline_counter e1 - cycles) 0).
  - unfold request_interrupt, draw_scanline.
    split_ifs; (split; [|split]); simpl; lia.
  - split; [|split]; simpl; lia.
Qed.

Lemma service_interrupt_counters (id : Z) (e : Emulator) :
  counters_in_range (service_interrupt id e) = counters_in_range e.
Proof. unfold service_interrupt. cbv zeta. repeat case_match; reflexivity. Qed.

Lemma do_interrupts_counters (e : Emulator) :
  counters_in_range e -> counters_in_range (do_interrupts e).
Proof.
  intros HR. unfold do_interrupts.
  destruct (interrupt_master_enable (cpu e)); [|exact HR].
  destruct (0 <? reg_get IF (emem e)); [|exact HR].
  assert (Hbit : forall e i, counters_in_range e ->
                             counters_in_range (do_interrupt_bit e i)).
  { intros e0 i H0. unfold do_interrupt_bit.
    destruct (reg_is_bit_set IF i (emem e0)); [|exact H0].
    destruct (reg_is_bit_set IE i (emem e0)); [|exact H0].
    now rewrite service_interrupt_counters. }
  cbn [fold_left]. repeat apply Hbit. exact HR.
Qed.

Lemma num_cycles_cpu_state (e e' : Emulator) :
  cpu_state e' = cpu_state e -> num_cycles (cpu e') = num_cycles (cpu e).
Proof. intros H. exact (f_equal snd H). Qed.

Lemma counters_reset_cycles (e : Emulator) :
  counters_in_range (set_cpu (set_num_cycles 0 (cpu e)) e) = counters_in_range e.
Proof. reflexivity. Qed.

Lemma after_opcode_counters (e : Emulator) :
  cycle_count (num_cycles (cpu e)) -> counters_in_range e ->
  counters_in_range (after_opcode e) /\ num_cycles (cpu (after_opcode e)) = 0.
Proof.
  intros Hn HR. unfold after_opcode. cbv zeta.
  set (e1 := update_timers (num_cycles (cpu e)) e).
  assert (H1 : counters_in_range e1) by now apply update_timers_counters.
  assert (N1 : num_cycles (cpu e1) = num_cycles (cpu e))
    by (apply num_cycles_cpu_state, update_timers_cpu).
  clearbody e1.
  set (e2 := update_scanline (num_cycles (cpu e1)) e1).
  assert (H2 : counters_in_range e2)
    by (apply update_scanline_counters; [now rewrite N1 | exact H1]).
  clearbody e2.
  apply do_interrupts_counters in H2.
  set (e3 := do_interrupts e2) in *. clearbody e3.
  rewrite counters_reset_cycles, num_cycles_reset. split; [exact H2 | reflexivity].
Qed.

Lemma step_counters (e e' : Emulator) :
  cycle_count (num_cycles (cpu e)) -> counters_in_range e -> step e = Some e' ->
  counters_in_range e' /\ num_cycles (cpu e') = 0.
Proof.
  intros Hn HR H. unfold step in H.
  apply bind_Some in H as (code & _ & H).
  apply bind_Some in H as ([n c] & Hp & H).
  apply parse_opcode_frame in Hp as (_ & _ & _ & Hc).
  assert (He : e' = after_opcode (set_cpu c e)) by congruence.
  rewrite He. apply after_opcode_counters; [|exact HR].
  change (num_cycles (cpu (set_cpu c e))) with (num_cycles c). now rewrite Hc.
Qed.

Lemma cycle_count_0 : cycle_count 0.
Proof. unfold cycle_count, INT_MAX. lia. Qed.

(** X22. On a full-size cartridge no read of the run loop leaves its
    vector and no accumulator overflows: from a well-formed state whose
    image fills the 32 KiB ROM range, with the three accumulators in range
    and a [num_cycles] between 0 and [INT_MAX - 255], any number of
    iterations of the loop body has a defined result, that is, neither the
    opcode fetch at PC nor any [Memory::read] made by [parse_opcode]
    indexes a vector out of bounds.  The state reached is well-formed
    again, its accumulators are in range again, and the cartridge image is
    the one loaded.  The registers the timer, LCD and interrupt units use
    are cells of ZRAM here; the binding of their [MemoryRegister] pointers
    is not part of the statement. *)
Theorem steps_defined (n : nat) (e : Emulator) :
  wf_emulator e -> full_rom (emem e) ->
  counters_in_range e -> cycle_count (num_cycles (cpu e)) ->
  exists e', steps n e = Some e' /\ wf_emulator e' /\
             counters_in_range e' /\
             CART_ROM (emem e') = CART_ROM (emem e).
Proof.
  revert e. induction n as [|k IH]; intros e Hwf Hrom HR Hn.
  - exists e. auto.
  - destruct (step_defined e Hwf Hrom) as (e1 & H1 & Hwf1 & Hrom1).
    destruct (step_counters e e1 Hn HR H1) as [HR1 Hn1].
    destruct (IH e1 Hwf1) as (e' & Hk & Hwf' & HR' & Hrom');
      [ unfold full_rom; rewrite Hrom1; exact Hrom
      | exact HR1
      | rewrite Hn1; exact cycle_count_0 | ].
    exists e'. cbn [steps]. rewrite H1. cbn [mbind option_bind].
    split; [exact Hk|]. split; [exact Hwf'|]. split; [exact HR' | congruence].
Qed.

Lemma steps_defined_witness :
  exists e', steps 2 emulator_full_rom = Some e' /\ wf_emulator e' /\
             counters_in_range e'.
Proof.
  destruct (steps_defined 2 emulator_full_rom) as (e' & H & Hwf & HR & _).
  - split.
    + constructor; try (vm_compute; split; [discriminate | reflexivity]).
      constructor; vm_compute; reflexivity.
    + constructor; apply forallb_is_byte; vm_compute; reflexivity.
  - unfold full_rom. vm_compute. discriminate.
  - unfold counters_in_range. cbn. lia.
  - vm_compute. split; discriminate.
  - exists e'. split; [exact H | split; [exact Hwf | exact HR]].
Defined.

(** X23. The three cycle accumulators stay in range: if the divider
    counter is in 0..255, the timer counter in 1..1024 and the scanline
    counter in 1..456, then the same holds after [update_timers] and after
    [update_scanline] for every cycle count between 0 and [INT_MAX - 255],
    and after any number of iterations of the run loop that starts with
    such a [num_cycles].  With a cycle count in that range, adding it to or
    subtracting it from an accumulator in range gives a value
    representable as an [int]. *)
Theorem counters_stay_in_range (e : Emulator) :
  counters_in_range e ->
  (forall cycles, cycle_count cycles ->
     counters_in_range (update_timers cycles e) /\
     counters_in_range (update_scanline cycles e) /\
     int_range (divider_counter e + cycles) /\
     (forall v, 0 <= v <= 1024 -> int_range (v - cycles))) /\
  (forall n e', cycle_count (num_cycles (cpu e)) -> steps n e = Some e' ->
     counters_in_range e').
Proof.
  intros HR. split.
  - intros cycles Hc.
    split; [now apply update_timers_counters|].
    split; [now apply update_scanline_counters|].
    destruct HR as (Hd & _). unfold cycle_count, int_range, INT_MIN, INT_MAX in *.
    split; [lia | intros v Hv; lia].
  - intros n. revert e HR. induction n as [|k IH]; intros e HR e' Hn H.
    + cbn in H. congruence.
    + cbn [steps] in H. apply bind_Some in H as (e1 & H1 & Hk).
      destruct (step_counters e e1 Hn HR H1) as [HR1 Hn1].
      apply (IH e1 HR1 e'); [rewrite Hn1; exact cycle_count_0 | exact Hk].
Qed.

Lemma counters_stay_in_range_witness :
  counters_in_range (update_timers 2000 (Emulator_init false 0 0 1024 0)) /\
  counters_in_range (update_scanline 2000 (Emulator_init false 0 0 1024 0)).
Proof.
  destruct (counters_stay_in_range (Emulator_init false 0 0 1024 0)) as [H _].
  - unfold counters_in_range. simpl. lia.
  - destruct (H 2000) as (H1 & H2 & _);
      [unfold cycle_count, INT_MAX; lia | split; [exact H1 | exact H2]].
Defined.

(** ** The timer *)





Lemma request_interrupt_regs (id r : Z) (e : Emulator) :
  0 <= r -> r <> IF ->
  reg_get r (emem (request_interrupt id e)) = reg_get r (emem e).
Proof.
  intros Hr Hne. unfold request_interrupt, reg_set_bit.
  rewrite emem_set_emem. apply reg_get_set_other; (assumption || (unfold IF; lia)).
Qed.

Lemma set_bit_byte (x i : Z) : to_byte (set_bit x i) = set_bit x i.
Proof. apply to_byte_idem. Qed.

Lemma request_interrupt_IF (id : Z) (e : Emulator) :
  wf_memory (emem e) ->
  reg_get IF (emem (request_interrupt id e)) = set_bit (reg_get IF (emem e)) id.
Proof.
  intros Hwf. unfold request_interrupt, reg_set_bit.
  rewrite emem_set_emem, reg_get_set_same by (assumption || (unfold IF; lia)).
  apply set_bit_byte.
Qed.



(** ** The LCD status *)

Lemma testbit_set_bit (x i j : Z) :
  0 <= i -> 0 <= j < 8 ->
  Z.testbit (set_bit x i) j = Z.testbit x j || (i =? j).
Proof.
  intros Hi Hj. unfold set_bit. rewrite testbit_to_byte by lia.
  rewrite Z.lor_spec, Z.shiftl_1_l, Z.pow2_bits_eqb by lia. reflexivity.
Qed.






Lemma maybe_request_regs (c : bool) (id r : Z) (e : Emulator) :
  0 <= r -> r <> IF ->
  reg_get r (emem (if c then request_interrupt id e else e)) = reg_get r (emem e).
Proof. intros Hr Hne. destruct c; [now apply request_interrupt_regs | reflexivity]. Qed.

Lemma maybe_request_wf (c : bool) (id : Z) (e : Emulator) :
  wf_memory (emem e) ->
  wf_memory (emem (if c then request_interrupt id e else e)).
Proof. intros Hwf. destruct c; auto with wf. Qed.

Lemma clear_bit_byte (x i : Z) : to_byte (clear_bit x i) = clear_bit x i.
Proof. apply to_byte_idem. Qed.

Lemma set_lcd_status_STAT (e : Emulator) :
  wf_memory (emem e) -> is_lcd_enabled e = true ->
  reg_get STAT (emem (set_lcd_status e))
  = let status := reg_get STAT (emem e) in
    let status :=
      if 144 <=? reg_get LY (emem e)
      then clear_bit (set_bit status 0) 1
      else if 376 <=? scanline_counter e
           then clear_bit (set_bit status 1) 0
           else if 204 <=? scanline_counter e
                then set_bit (set_bit status 1) 0
                else clear_bit (clear_bit status 1) 0 in
    if reg_get LY (emem e) =? reg_get LYC (emem e)
    then set_bit status 2
    else clear_bit status 2.
Proof.
  intros Hwf Hon. unfold set_lcd_status. rewrite Hon. cbn [negb]. cbv zeta.
  change (456 - 80 <=? scanline_counter e) with (376 <=? scanline_counter e).
  change (456 - 80 - 172 <=? scanline_counter e) with (204 <=? scanline_counter e).
  destruct (144 <=? reg_get LY (emem e));
    [|destruct (376 <=? scanline_counter e);
      [|destruct (204 <=? scanline_counter e)]];
    cbv beta iota;
    match goal with
    | |- context [if ?c then request_interrupt ?i e else e] =>
        set (E := if c then request_interrupt i e else e);
        assert (HL : reg_get LY (emem E) = reg_get LY (emem e))
          by (apply maybe_request_regs; unfold LY, IF; lia);
        assert (HC : reg_get LYC (emem E) = reg_get LYC (emem e))
          by (apply maybe_request_regs; unfold LYC, IF; lia);
        assert (HW : wf_memory (emem E)) by now apply maybe_request_wf
    end;
    clearbody E; rewrite HL, HC;
    destruct (reg_get LY (emem e) =? reg_get LYC (emem e));
    rewrite emem_set_emem;
    rewrite reg_get_set_same
      by (first [assumption | now apply maybe_request_wf | unfold STAT; lia]);
    first [apply set_bit_byte | apply clear_bit_byte].
Qed.

Ltac stat_bits :=
  repeat first [ rewrite testbit_set_bit by lia
               | rewrite testbit_clear_bit by lia ].

(** X26. With the LCD on, [set_lcd_status] writes the mode into bits 1-0
    of STAT: mode 1 (01) from line 144 on, otherwise mode 2 (10) while the
    scanline counter is at least 376, mode 3 (11) while it is at least
    204, and mode 0 (00) below that.  Bit 2 of STAT becomes the result of
    the comparison LY == LYC, bits 3 to 7 are kept, and LY, LCDC and the
    scanline counter are not changed. *)
Theorem lcd_status_mode (e : Emulator) :
  wf_memory (emem e) -> is_lcd_enabled e = true ->
  let e' := set_lcd_status e in
  stat_mode (emem e')
  = (if 144 <=? reg_get LY (emem e) then (false, true)
     else if 376 <=? scanline_counter e then (true, false)
     else if 204 <=? scanline_counter e then (true, true)
     else (false, false)) /\
  Z.testbit (reg_get STAT (emem e')) 2
  = (reg_get LY (emem e) =? reg_get LYC (emem e)) /\
  (forall j, 3 <= j < 8 ->
     Z.testbit (reg_get STAT (emem e')) j = Z.testbit (reg_get STAT (emem e)) j) /\
  lcd_frame e' = lcd_frame e.
Proof.
  intros Hwf Hon e'. subst e'.
  destruct (set_lcd_status_enabled e Hon) as [Hframe _].
  unfold stat_mode. rewrite (set_lcd_status_STAT e Hwf Hon). cbv zeta.
  split; [|split; [|split; [|exact Hframe]]].
  - destruct (144 <=? reg_get LY (emem e));
      [|destruct (376 <=? scanline_counter e);
        [|destruct (204 <=? scanline_counter e)]];
      destruct (reg_get LY (emem e) =? reg_get LYC (emem e));
      stat_bits;
      cbn [Z.eqb Pos.eqb negb];
      rewrite ?andb_true_r, ?andb_false_r, ?orb_true_r, ?orb_false_r;
      reflexivity.
  - destruct (144 <=? reg_get LY (emem e));
      [|destruct (376 <=? scanline_counter e);
        [|destruct (204 <=? scanline_counter e)]];
      destruct (reg_get LY (emem e) =? reg_get LYC (emem e));
      stat_bits;
      cbn [Z.eqb Pos.eqb negb];
      rewrite ?andb_true_r, ?andb_false_r, ?orb_true_r, ?orb_false_r;
      reflexivity.
  - intros j Hj.
    assert (E0 : (0 =? j) = false) by (apply Z.eqb_neq; lia).
    assert (E1 : (1 =? j) = false) by (apply Z.eqb_neq; lia).
    assert (E2 : (2 =? j) = false) by (apply Z.eqb_neq; lia).
    destruct (144 <=? reg_get LY (emem e));
      [|destruct (376 <=? scanline_counter e);
        [|destruct (204 <=? scanline_counter e)]];
      destruct (reg_get LY (emem e) =? reg_get LYC (emem e));
      stat_bits;
      rewrite ?E0, ?E1, ?E2; cbn [negb];
      rewrite ?andb_true_r, ?orb_false_r; reflexivity.
Qed.

Lemma lcd_status_mode_witness :
  stat_mode (emem (set_lcd_status (Emulator_init false 0 0 1024 0)))
  = (true, false).
Proof.
  destruct (lcd_status_mode (Emulator_init false 0 0 1024 0)) as (H & _).
  - apply Memory_init_wf.
  - reflexivity.
  - rewrite H. reflexivity.
Defined.

(** ** Scanline boundaries *)

Lemma maybe_request_IF_other (c : bool) (id j : Z) (e : Emulator) :
  wf_memory (emem e) -> 0 <= id -> 0 <= j < 8 -> id <> j ->
  Z.testbit (reg_get IF (emem (if c then request_interrupt id e else e))) j
  = Z.testbit (reg_get IF (emem e)) j.
Proof.
  intros Hwf Hid Hj Hne. destruct c; [|reflexivity].
  rewrite request_interrupt_IF, testbit_set_bit by (assumption || lia).
  destruct (Z.eqb_spec id j); [contradiction | apply orb_false_r].
Qed.

Lemma set_lcd_status_IF (j : Z) (e : Emulator) :
  wf_memory (emem e) -> is_lcd_enabled e = true -> 0 <= j < 8 -> j <> 1 ->
  Z.testbit (reg_get IF (emem (set_lcd_status e))) j
  = Z.testbit (reg_get IF (emem e)) j.
Proof.
  intros Hwf Hon Hj Hne. unfold set_lcd_status. rewrite Hon. cbn [negb].
  cbv zeta.
  destruct (144 <=? reg_get LY (emem e));
    [|destruct (456 - 80 <=? scanline_counter e);
      [|destruct (456 - 80 - 172 <=? scanline_counter e)]];
    cbv beta iota;
    match goal with
    | |- context [if ?c then request_interrupt ?i e else e] =>
        set (E := if c then request_interrupt i e else e);
        assert (HI : Z.testbit (reg_get IF (emem E)) j
                     = Z.testbit (reg_get IF (emem e)) j)
          by (apply maybe_request_IF_other;
              (assumption || (unfold INTERRUPT_LCDC; lia)));
        assert (HW : wf_memory (emem E)) by now apply maybe_request_wf
    end;
    clearbody E; rewrite <- HI;
    destruct (reg_get LY (emem E) =? reg_get LYC (emem E));
    rewrite emem_set_emem;
    rewrite reg_get_set_other by (unfold IF, STAT; lia);
    first [ reflexivity
          | apply maybe_request_IF_other;
            (assumption || (unfold INTERRUPT_LCDC; lia)) ].
Qed.

Lemma update_scanline_IF_counter (cycles : Z) (e : Emulator) :
  wf_memory (emem e) -> is_lcd_enabled e = true ->
  scanline_counter (update_scanline cycles e)
  = (if scanline_counter e - cycles <=? 0 then 456
     else scanline_counter e - cycles) /\
  Z.testbit (reg_get IF (emem (update_scanline cycles e))) 0
  = Z.testbit (reg_get IF (emem e)) 0
    || ((scanline_counter e - cycles <=? 0) && (reg_get LY (emem e) =? 144)).
Proof.
  intros Hwf Hen. unfold update_scanline. cbv zeta.
  destruct (set_lcd_status_enabled e Hen) as [Hf Hwf1].
  specialize (Hwf1 Hwf).
  pose proof (set_lcd_status_IF 0 e Hwf Hen ltac:(lia) ltac:(lia)) as HI.
  rewrite (lcd_frame_enabled _ _ Hf), Hen.
  assert (Hly : reg_get LY (emem (set_lcd_status e)) = reg_get LY (emem e))
    by exact (f_equal (fun x => fst (fst x)) Hf).
  assert (Hsc : scanline_counter (set_lcd_status e) = scanline_counter e)
    by exact (f_equal snd Hf).
  set (e1 := set_lcd_status e) in *. clearbody e1.
  cbn [scanline_counter set_scanline_counter].
  rewrite Hsc, <- HI.
  destruct (scanline_counter e - cycles <=? 0);
    [|split; [reflexivity | now rewrite orb_false_r]].
  rewrite !emem_set_scanline_counter, Hly. cbn [andb].
  set (e3 := set_scanline_counter 456 _).
  assert (H3 : scanline_counter e3 = 456) by reflexivity.
  assert (I3 : reg_get IF (emem e3) = reg_get IF (emem e1)).
  { subst e3. rewrite emem_set_scanline_counter, emem_set_emem.
    apply reg_get_set_other; unfold IF, LY; lia. }
  assert (W3 : wf_memory (emem e3)).
  { subst e3. rewrite emem_set_scanline_counter, emem_set_emem.
    auto with wf. }
  clearbody e3.
  destruct (reg_get LY (emem e) =? 144).
  - split; [exact H3|].
    rewrite request_interrupt_IF, testbit_set_bit by (assumption || lia).
    now rewrite !orb_true_r.
  - rewrite orb_false_r. unfold draw_scanline, reg_clear.
    destruct (153 <? reg_get LY (emem e)).
    + split; [exact H3|]. rewrite ?emem_set_emem.
      now rewrite !reg_get_set_other by (unfold IF, LY; lia).
    + destruct (reg_get LY (emem e) <? 144); split;
        (exact H3 || now rewrite I3).
Qed.

Lemma update_scanline_no_boundary (cycles : Z) (e : Emulator) :
  is_lcd_enabled e = true -> 0 < scanline_counter e - cycles ->
  update_scanline cycles e
  = set_scanline_counter (scanline_counter e - cycles) (set_lcd_status e).
Proof.
  intros Hen Hc. unfold update_scanline. cbv zeta.
  destruct (set_lcd_status_enabled e Hen) as [Hf _].
  rewrite (lcd_frame_enabled _ _ Hf), Hen.
  assert (Hsc : scanline_counter (set_lcd_status e) = scanline_counter e)
    by exact (f_equal snd Hf).
  set (e1 := set_lcd_status e) in *. clearbody e1.
  cbn [scanline_counter set_scanline_counter]. rewrite Hsc.
  replace (scanline_counter e - cycles <=? 0) with false
    by (symmetry; apply Z.leb_gt; lia).
  reflexivity.
Qed.

Lemma update_scanline_boundary_rest (cycles : Z) (e : Emulator) :
  wf_memory (emem e) -> is_lcd_enabled e = true ->
  scanline_counter e - cycles <= 0 ->
  reg_get STAT (emem (update_scanline cycles e))
  = reg_get STAT (emem (set_lcd_status e)) /\
  (forall j, 1 <= j < 8 ->
     Z.testbit (reg_get IF (emem (update_scanline cycles e))) j
     = Z.testbit (reg_get IF (emem (set_lcd_status e))) j).
Proof.
  intros Hwf Hen Hc. unfold update_scanline. cbv zeta.
  destruct (set_lcd_status_enabled e Hen) as [Hf Hwf1].
  specialize (Hwf1 Hwf).
  rewrite (lcd_frame_enabled _ _ Hf), Hen.
  assert (Hsc : scanline_counter (set_lcd_status e) = scanline_counter e)
    by exact (f_equal snd Hf).
  set (e1 := set_lcd_status e) in *. clearbody e1.
  cbn [scanline_counter set_scanline_counter]. rewrite Hsc.
  replace (scanline_counter e - cycles <=? 0) with true
    by (symmetry; apply Z.leb_le; lia).
  rewrite !emem_set_scanline_counter.
  set (e3 := set_scanline_counter 456 _).
  assert (S3 : reg_get STAT (emem e3) = reg_get STAT (emem e1)).
  { subst e3. rewrite emem_set_scanline_counter, emem_set_emem.
    apply reg_get_set_other; unfold STAT, LY; lia. }
  assert (I3 : reg_get IF (emem e3) = reg_get IF (emem e1)).
  { subst e3. rewrite emem_set_scanline_counter, emem_set_emem.
    apply reg_get_set_other; unfold IF, LY; lia. }
  assert (W3 : wf_memory (emem e3)).
  { subst e3. rewrite emem_set_scanline_counter, emem_set_emem.
    auto with wf. }
  clearbody e3.
  destruct (reg_get LY (emem e1) =? 144).
  - split.
    + rewrite request_interrupt_regs by (unfold STAT, IF; lia). exact S3.
    + intros j Hj.
      rewrite request_interrupt_IF, testbit_set_bit, I3 by (assumption || lia).
      destruct (Z.eqb_spec 0 j); [lia | apply orb_false_r].
  - unfold draw_scanline, reg_clear.
    destruct (153 <? reg_get LY (emem e1)).
    + rewrite ?emem_set_emem. split; [|intros j Hj].
      * now rewrite !reg_get_set_other by (unfold STAT, LY; lia).
      * now rewrite !reg_get_set_other by (unfold IF, LY; lia).
    + destruct (reg_get LY (emem e1) <? 144); split;
        (exact S3 || (intros j Hj; now rewrite I3)).
Qed.

(** X27. One call of [update_scanline] with the LCD on, for a cycle count
    whose difference from the scanline counter is representable as an
    [int].  [set_lcd_status] runs first in either case and leaves LY, the
    counter and every bit of IF but bit 1 (LCDC) as they are.  If the
    counter stays positive after the cycle count is subtracted, the result
    is the state [set_lcd_status] left with the counter decreased, and
    nothing else is done: LY and IF bit 0 are the ones before the call.
    Otherwise a
    scanline boundary is crossed: the counter is reloaded with 456 whatever
    the overshoot, LY goes up by one (a value above 153 is reset to 0),
    the V-Blank interrupt (IF bit 0) is requested exactly when LY was 144
    before the increment, that is when LY goes from 144 to 145, and STAT
    and the other bits of IF are as [set_lcd_status] left them. *)
Theorem scanline_boundary (cycles : Z) (e : Emulator) :
  wf_memory (emem e) -> is_lcd_enabled e = true ->
  int_range (scanline_counter e - cycles) ->
  let e0 := set_lcd_status e in
  let e' := update_scanline cycles e in
  (reg_get LY (emem e0) = reg_get LY (emem e) /\
   scanline_counter e0 = scanline_counter e /\
   forall j, 0 <= j < 8 -> j <> 1 ->
     Z.testbit (reg_get IF (emem e0)) j = Z.testbit (reg_get IF (emem e)) j) /\
  (0 < scanline_counter e - cycles ->
   e' = set_scanline_counter (scanline_counter e - cycles) e0 /\
   scanline_counter e' = scanline_counter e - cycles /\
   reg_get LY (emem e') = reg_get LY (emem e) /\
   Z.testbit (reg_get IF (emem e')) 0 = Z.testbit (reg_get IF (emem e)) 0) /\
  (scanline_counter e - cycles <= 0 ->
   scanline_counter e' = 456 /\
   reg_get LY (emem e')
   = (if 153 <? reg_get LY (emem e) then 0
      else (reg_get LY (emem e) + 1) mod 256) /\
   Z.testbit (reg_get IF (emem e')) 0
   = Z.testbit (reg_get IF (emem e)) 0 || (reg_get LY (emem e) =? 144) /\
   reg_get STAT (emem e') = reg_get STAT (emem e0) /\
   forall j, 1 <= j < 8 ->
     Z.testbit (reg_get IF (emem e')) j = Z.testbit (reg_get IF (emem e0)) j).
Proof.
  intros Hwf Hen _ e0 e'. subst e0 e'.
  destruct (update_scanline_IF_counter cycles e Hwf Hen) as [Hc Hi].
  destruct (set_lcd_status_enabled e Hen) as [Hf _].
  split; [|split; intros H].
  - split; [exact (f_equal (fun x => fst (fst x)) Hf)|].
    split; [exact (f_equal snd Hf)|].
    intros j Hj Hne. now apply set_lcd_status_IF.
  - split; [now apply update_scanline_no_boundary|].
    rewrite Hc, Hi, (update_scanline_LY cycles e Hwf Hen).
    replace (scanline_counter e - cycles <=? 0) with false
      by (symmetry; apply Z.leb_gt; lia).
    now rewrite orb_false_r.
  - destruct (update_scanline_boundary_rest cycles e Hwf Hen H) as [Hs Hj].
    rewrite Hc, Hi, (update_scanline_LY cycles e Hwf Hen).
    replace (scanline_counter e - cycles <=? 0) with true
      by (symmetry; apply Z.leb_le; lia).
    auto.
Qed.

Lemma scanline_boundary_witness :
  scanline_counter (update_scanline 1000 (Emulator_init false 0 0 1024 0)) = 456 /\
  reg_get LY (emem (update_scanline 1000 (Emulator_init false 0 0 1024 0))) = 1.
Proof.
  destruct (scanline_boundary 1000 (Emulator_init false 0 0 1024 0)) as (_ & _ & H).
  - apply Memory_init_wf.
  - reflexivity.
  - unfold int_range, INT_MIN, INT_MAX. simpl. lia.
  - destruct H as (H1 & H2 & _); [simpl; lia|].
    split; [exact H1 | rewrite H2; reflexivity].
Defined.

(** ** Interrupt dispatch *)

Lemma no_pending_bit (x y j : Z) :
  0 <= j < 5 -> Z.land (Z.land x y) 0x1F = 0 ->
  Z.testbit x j && Z.testbit y j = false.
Proof.
  intros Hj H0.
  assert (H : Z.testbit (Z.land (Z.land x y) 0x1F) j = false)
    by (rewrite H0; apply Z.bits_0).
  rewrite !Z.land_spec in H.
  replace (Z.testbit 0x1F j) with true in H.
  - now rewrite andb_true_r in H.
  - assert (Hc : j = 0 \/ j = 1 \/ j = 2 \/ j = 3 \/ j = 4) by lia.
    destruct Hc as [->|[->|[->|[->| ->]]]]; reflexivity.
Qed.

(** X28. [do_interrupts] changes nothing unless the master enable is set
    and one of the five interrupts is both requested in IF and enabled in
    IE: with IME clear, or with IF & IE & 0x1F equal to zero, the state
    after the call is the state before it. *)
Theorem do_interrupts_idle (e : Emulator) :
  interrupt_master_enable (cpu e) = false \/
  Z.land (Z.land (reg_get IF (emem e)) (reg_get IE (emem e))) 0x1F = 0 ->
  do_interrupts e = e.
Proof.
  intros [Hime|Hnone]; [now apply do_interrupts_disabled|].
  unfold do_interrupts.
  destruct (interrupt_master_enable (cpu e)); [|reflexivity].
  destruct (0 <? reg_get IF (emem e)); [|reflexivity].
  cbn [fold_left].
  rewrite (do_interrupt_bit_skip e 0), (do_interrupt_bit_skip e 1),
    (do_interrupt_bit_skip e 2), (do_interrupt_bit_skip e 3),
    (do_interrupt_bit_skip e 4); try reflexivity;
    apply no_pending_bit; (lia || assumption).
Qed.

Lemma do_interrupts_idle_witness :
  do_interrupts (emulator_pending 0x04 0x03 0xFFFE 0x1234)
  = emulator_pending 0x04 0x03 0xFFFE 0x1234.
Proof.
  apply (do_interrupts_idle (emulator_pending 0x04 0x03 0xFFFE 0x1234)).
  right. reflexivity.
Defined.

Lemma high_low_byte (w : Z) :
  is_word w ->
  to_byte (high_byte w) = w / 256 /\ to_byte (low_byte w) = w mod 256 /\
  address (w / 256) (w mod 256) = w.
Proof.
  intros Hw.
  pose proof (all_words_spec
    (fun w => (to_byte (high_byte w) =? w / 256)
              && (to_byte (low_byte w) =? w mod 256)
              && (address (w / 256) (w mod 256) =? w))) as H.
  specialize (H ltac:(vm_compute; reflexivity) w Hw).
  apply andb_true_iff in H as [H H3]. apply andb_true_iff in H as [H1 H2].
  repeat split; now apply Z.eqb_eq.
Qed.

(** X29. [service_interrupt] leaves the return address on the stack: when
    the two bytes below SP are cells the memory map stores, then after the
    call SP is two lower, the byte at SP is the low byte of the interrupted
    PC and the byte at SP+1 its high byte, so that [address] of the two
    gives the PC back; the master enable is off.  This holds for every
    interrupt number, and also when the push lands on the IF register. *)
Theorem service_interrupt_return_address (id : Z) (e : Emulator) :
  wf_memory (emem e) -> is_word (reg_SP (cpu e)) -> is_word (reg_PC (cpu e)) ->
  stored (to_word (reg_SP (cpu e) - 1)) ->
  stored (to_word (reg_SP (cpu e) - 2)) ->
  let e' := service_interrupt id e in
  reg_SP (cpu e') = (reg_SP (cpu e) - 2) mod 65536 /\
  interrupt_master_enable (cpu e') = false /\
  exists lo hi,
    read (emem e') (reg_SP (cpu e')) = Some lo /\
    read (emem e') (to_word (reg_SP (cpu e') + 1)) = Some hi /\
    lo = reg_PC (cpu e) mod 256 /\ hi = reg_PC (cpu e) / 256 /\
    address hi lo = reg_PC (cpu e).
Proof.
  intros Hwf Hsp Hpc Hs1 Hs2 e'. subst e'.
  destruct (service_interrupt_pushes id e) as (Hm & Hsp' & Hime).
  rewrite Hm, Hsp'. clear Hm Hsp'.
  set (a1 := to_word (reg_SP (cpu e) - 1)) in *.
  assert (Ha2 : to_word (a1 - 1) = to_word (reg_SP (cpu e) - 2))
    by apply to_word_pred_pred.
  assert (Hw1 : is_word a1) by apply to_word_range.
  assert (Hw2 : is_word (to_word (reg_SP (cpu e) - 2))) by apply to_word_range.
  assert (Hnext : to_word (to_word (reg_SP (cpu e) - 2) + 1) = a1).
  { rewrite <- Ha2. now apply to_word_pred_succ. }
  assert (Hne : region_of a1 <> region_of (to_word (reg_SP (cpu e) - 2))).
  { intros Heq.
    apply (region_of_succ (to_word (reg_SP (cpu e) - 2)) Hw2 Hs2).
    now rewrite Hnext, Heq. }
  destruct (read_two_writes (reg_clear_bit IF id (emem e)) a1
              (to_word (reg_SP (cpu e) - 2))
              (high_byte (reg_PC (cpu e))) (low_byte (reg_PC (cpu e))))
    as [R1 R2]; try assumption; [unfold reg_clear_bit; auto with wf|].
  destruct (high_low_byte (reg_PC (cpu e)) Hpc) as (Hh & Hl & Ha).
  rewrite Hh in R1. rewrite Hl in R2.
  split; [reflexivity|]. split; [exact Hime|].
  exists (reg_PC (cpu e) mod 256), (reg_PC (cpu e) / 256).
  rewrite Hnext. auto.
Qed.

Lemma service_interrupt_return_address_witness :
  read (emem (service_interrupt 2 (emulator_pending 0x04 0x04 0xFFFE 0x1234)))
    0xFFFC = Some 0x34 /\
  read (emem (service_interrupt 2 (emulator_pending 0x04 0x04 0xFFFE 0x1234)))
    0xFFFD = Some 0x12.
Proof.
  destruct (service_interrupt_return_address 2
              (emulator_pending 0x04 0x04 0xFFFE 0x1234))
    as (_ & _ & lo & hi & H1 & H2 & -> & -> & _).
  - constructor; vm_compute; reflexivity.
  - simpl. unfold is_word. lia.
  - simpl. unfold is_word. lia.
  - change (stored 0xFFFD). unfold stored. lia.
  - change (stored 0xFFFC). unfold stored. lia.
  - split; [exact H1 | exact H2].
Defined.

(** ** The run loop *)

Lemma run_frame_running (fuel : nat) (cycles_per_frame : Z) :
  forall current_cycle e,
    wf_emulator e -> full_rom (emem e) ->
    current_cycle < cycles_per_frame ->
    current_cycle + num_cycles (cpu e) < cycles_per_frame ->
    run_frame fuel cycles_per_frame current_cycle e = Running.
Proof.
  induction fuel as [|k IH]; intros cur e Hwf Hrom Hcur Hnext.
  - cbn [run_frame].
    destruct (Z.ltb_spec cur cycles_per_frame); [reflexivity | lia].
  - cbn [run_frame].
    destruct (Z.ltb_spec cur cycles_per_frame); [|lia].
    destruct (fetch_defined e Hwf Hrom)
      as (code & n & c & Hcode & Hp & Hn & Hwf' & Hrom' & Hz).
    rewrite Hcode, Hp. cbv zeta.
    change (num_cycles (cpu (set_cpu c e))) with (num_cycles c).
    apply IH; try assumption; rewrite ?Hz; lia.
Qed.

(** X30. [Emulator::run] does not return: [parse_opcode] never assigns
    [num_cycles] and the loop body resets it to 0, so from the second
    iteration on [current_cycle] stops growing.  From a well-formed state
    with a full-size cartridge image, if [current_cycle] plus the initial
    [num_cycles] is below [cycles_per_frame], the inner loop is still
    running after any number of iterations, without ever reading out of
    bounds, and so is [run] for one frame or more. *)
Theorem run_never_finishes (fuel : nat) (cycles_per_frame : Z) (e : Emulator) :
  wf_emulator e -> full_rom (emem e) ->
  (forall current_cycle,
     current_cycle < cycles_per_frame ->
     current_cycle + num_cycles (cpu e) < cycles_per_frame ->
     run_frame fuel cycles_per_frame current_cycle e = Running) /\
  (forall total_iterations,
     0 < cycles_per_frame -> num_cycles (cpu e) < cycles_per_frame ->
     run fuel (S total_iterations) cycles_per_frame e = Running).
Proof.
  intros Hwf Hrom. split.
  - intros cur. now apply run_frame_running.
  - intros i H0 Hn. cbn [run].
    rewrite run_frame_running; (assumption || reflexivity || lia).
Qed.

Lemma run_never_finishes_witness :
  run 50 1 70224 emulator_full_rom = Running.
Proof.
  destruct (run_never_finishes 50 70224 emulator_full_rom) as [_ H].
  - split.
    + constructor; try (vm_compute; split; [discriminate | reflexivity]).
      constructor; vm_compute; reflexivity.
    + constructor; apply forallb_is_byte; vm_compute; reflexivity.
  - unfold full_rom. vm_compute. discriminate.
  - apply H; [lia | vm_compute; reflexivity].
Defined.
